(** * NOTAM ingestion service: a shallow embedding of the resilience layer,
      the record store, the message parser and the per-message handler.

    Conventions of the embedding.
    - JavaScript numbers that the program only uses as integers (counters,
      millisecond timestamps, thresholds, row ids) are [Z].
    - A [Date] is its [getTime()] value, milliseconds since the epoch, in [Z].
    - Strings are [string]: sequences of 8-bit code units.
    - Every reading of the wall clock ([new Date()], SQL [NOW()]) is an explicit
      argument of the function that performs it.
    - A function that can throw returns a sum [T + JSError]. *)

From Stdlib Require Import ZArith List String Ascii Bool Lia Sorted.
Import ListNotations.

Open Scope string_scope.
Open Scope Z_scope.

(** ** JavaScript values shared by the modules *)

Module JS.

(** [s.includes(sub)] *)
Fixpoint includes (s sub : string) : bool :=
  if String.prefix sub s then true
  else match s with
       | EmptyString => false
       | String _ s' => includes s' sub
       end.

(** A thrown value, seen through the casts the sources apply to it:
    [error as { code?: string; message?: string }].  The first three
    constructors are the values for which
    [typeof error !== 'object' || error === null] holds. *)
Inductive JSError : Type :=
| ThrownUndefined
| ThrownNull
| ThrownString (s : string)
| ThrownObject (code : option string) (message : option string).

(** [new Error(msg)] *)
Definition Error (msg : string) : JSError := ThrownObject None (Some msg).

(** [msgs.some((msg) => err.message?.includes(msg) ?? false)] *)
Definition message_includes_some (message : option string) (msgs : list string) : bool :=
  existsb (fun msg => match message with
                      | Some m => includes m msg
                      | None => false
                      end) msgs.

(** [new TypeError(msg)], seen through the same cast. *)
Definition TypeError (msg : string) : JSError := ThrownObject None (Some msg).

(** [x || 0] on a number *)
Definition or_zero (x : Z) : Z := if x =? 0 then 0 else x.

(** Sequencing of calls that can throw: the first exception ends the run. *)
Definition bind {A B : Type} (m : A + JSError) (k : A -> B + JSError) : B + JSError :=
  match m with
  | inl a => k a
  | inr e => inr e
  end.

End JS.

Notation "x <- m ;; k" := (JS.bind m (fun x => k))
  (at level 61, m at next level, right associativity).

Import JS.

(** ** src/utils/circuit-breaker.ts *)

Module CircuitBreaker.

Record CircuitBreakerState : Type := {
  failures : Z;
  lastFailure : option Z;
  isOpen : bool
}.

(** The private fields of the class other than [state]. *)
Record CircuitBreakerOptions : Type := {
  threshold : Z;
  timeout : Z;
  isConnectionErrorOpt : JSError -> bool
}.

Definition connectionErrorMessages : list string :=
  [ "Connection terminated unexpectedly";
    "connection timeout";
    "ECONNRESET";
    "ETIMEDOUT";
    "ECONNREFUSED" ].

(** Default connection error detector *)
Definition isConnectionError (error : JSError) : bool :=
  match error with
  | ThrownObject _ message => message_includes_some message connectionErrorMessages
  | _ => false
  end.

(** State installed by the constructor. *)
Definition initial : CircuitBreakerState :=
  {| failures := 0; lastFailure := None; isOpen := false |}.

Definition open (s : CircuitBreakerState) : CircuitBreakerState :=
  {| failures := failures s; lastFailure := lastFailure s; isOpen := true |}.

Definition reset (s : CircuitBreakerState) : CircuitBreakerState :=
  {| failures := 0; lastFailure := lastFailure s; isOpen := false |}.

(** [now.getTime() - (this.state.lastFailure?.getTime() || 0)] *)
Definition timeSinceLastFailure (now : Z) (s : CircuitBreakerState) : Z :=
  now - match lastFailure s with
        | Some t => or_zero t
        | None => 0
        end.

Definition isRequestAllowed (o : CircuitBreakerOptions) (now : Z)
    (s : CircuitBreakerState) : bool * CircuitBreakerState :=
  if negb (isOpen s) then (true, s)
  else if timeSinceLastFailure now s >? timeout o then (true, reset s)
  else (false, s).

Definition recordSuccess (s : CircuitBreakerState) : CircuitBreakerState :=
  if failures s >? 0
  then {| failures := 0; lastFailure := lastFailure s; isOpen := isOpen s |}
  else s.

Definition recordFailure (o : CircuitBreakerOptions) (now : Z) (error : JSError)
    (s : CircuitBreakerState) : CircuitBreakerState :=
  if negb (isConnectionErrorOpt o error) then s
  else
    let s1 := {| failures := failures s + 1;
                 lastFailure := Some now;
                 isOpen := isOpen s |} in
    if failures s1 >=? threshold o then open s1 else s1.

(** [execute]: [t_check] is the clock read by the admission check, [t_fail]
    the clock read when a failure is recorded.  The operation acts on a world
    [W]; it is not invoked when admission is denied. *)
Definition execute {T W : Type} (o : CircuitBreakerOptions) (t_check t_fail : Z)
    (operation : W -> (T + JSError) * W)
    (s : CircuitBreakerState) (w : W) : (T + JSError) * CircuitBreakerState * W :=
  let '(allowed, s1) := isRequestAllowed o t_check s in
  if negb allowed then (inr (Error "Circuit breaker is open"), s1, w)
  else match operation w with
       | (inl result, w') => (inl result, recordSuccess s1, w')
       | (inr error, w') => (inr error, recordFailure o t_fail error s1, w')
       end.

(** The calls a client can make on a breaker, with the clock each one reads. *)
Inductive Call : Type :=
| CallIsRequestAllowed (now : Z)
| CallRecordSuccess
| CallRecordFailure (now : Z) (error : JSError).

Definition call (o : CircuitBreakerOptions) (c : Call)
    (s : CircuitBreakerState) : CircuitBreakerState :=
  match c with
  | CallIsRequestAllowed now => snd (isRequestAllowed o now s)
  | CallRecordSuccess => recordSuccess s
  | CallRecordFailure now error => recordFailure o now error s
  end.

(** Recording a sequence of failures, each with the clock it reads. *)
Definition recordFailures (o : CircuitBreakerOptions) (fs : list (Z * JSError))
    (s : CircuitBreakerState) : CircuitBreakerState :=
  fold_left (fun st f => recordFailure o (fst f) (snd f) st) fs s.

Definition all_qualifying (o : CircuitBreakerOptions) (fs : list (Z * JSError)) : bool :=
  forallb (fun f => isConnectionErrorOpt o (snd f)) fs.


(** States a breaker can be in: the constructor's state, then any calls. *)
Inductive reachable (o : CircuitBreakerOptions) : CircuitBreakerState -> Prop :=
| reachable_initial : reachable o initial
| reachable_call : forall s c, reachable o s -> reachable o (call o c s).

End CircuitBreaker.

(** ** src/utils/retry.ts *)

Module Retry.

Record RetryOptions : Type := {
  maxRetries : Z;
  backoffBase : Z;
  maxBackoff : Z;
  isRetriable : JSError -> bool
}.

Definition retriableCodes : list string :=
  [ "57P01"; "57P02"; "57P03"; "08000"; "08003"; "08006"; "08P01"; "53300" ].

Definition retriableMessages : list string :=
  [ "Connection terminated unexpectedly";
    "connection timeout";
    "ECONNRESET";
    "ETIMEDOUT";
    "ECONNREFUSED";
    "Client has encountered a connection error" ].

(** Default retriable error detector for database connection errors *)
Definition isRetriableDatabaseError (error : JSError) : bool :=
  match error with
  | ThrownObject code message =>
      match code with
      | Some c => existsb (String.eqb c) retriableCodes
      | None => false
      end
      || message_includes_some message retriableMessages
  | _ => false
  end.

(** [Math.min(base * Math.pow(2, attempt), max)] *)
Definition calculateBackoff (attempt base max : Z) : Z :=
  Z.min (base * 2 ^ attempt) max.

(** What one run of [withRetry] did: the value returned or thrown ([None]
    only if the loop ran out of fuel, which [withRetry] never does), the
    result of every invocation of the operation in order, the argument of
    every [sleep] in order, and the world left behind. *)
Record Run (T W : Type) : Type := {
  outcome : option (T + JSError);
  invocations : list (T + JSError);
  sleeps : list Z;
  world : W
}.

Arguments outcome {T W} _.
Arguments invocations {T W} _.
Arguments sleeps {T W} _.
Arguments world {T W} _.

Section WithRetry.

Context {T W : Type}.
Variable operation : W -> (T + JSError) * W.
Variable options : RetryOptions.

(** The [for] loop, one iteration per unit of fuel; [lastError] is the
    variable of that name. *)
Fixpoint retry_loop (fuel : nat) (attempt : Z) (lastError : JSError) (w : W)
    : Run T W :=
  match fuel with
  | O => {| outcome := None; invocations := []; sleeps := []; world := w |}
  | S fuel' =>
      if attempt <=? maxRetries options then
        match operation w with
        | (inl v, w') =>
            {| outcome := Some (inl v); invocations := [inl v];
               sleeps := []; world := w' |}
        | (inr error, w') =>
            let isLastAttempt := attempt =? maxRetries options in
            let retriable := isRetriable options error in
            if negb retriable || isLastAttempt then
              {| outcome := Some (inr error); invocations := [inr error];
                 sleeps := []; world := w' |}
            else
              let backoffMs :=
                calculateBackoff attempt (backoffBase options) (maxBackoff options) in
              let r := retry_loop fuel' (attempt + 1) error w' in
              {| outcome := outcome r;
                 invocations := inr error :: invocations r;
                 sleeps := backoffMs :: sleeps r;
                 world := world r |}
        end
      else
        {| outcome := Some (inr lastError); invocations := [];
           sleeps := []; world := w |}
  end.

(** [let lastError: unknown;] starts undefined.  The loop body runs at most
    [maxRetries + 1] times and one more unit of fuel pays for the final
    test of the loop condition. *)
Definition withRetry (w : W) : Run T W :=
  retry_loop (S (Z.to_nat (maxRetries options + 1))) 0 ThrownUndefined w.

(** The delays [min (base * 2^i) cap] for the [k] attempts from [attempt] on. *)
Definition backoffs (attempt : Z) (k : nat) : list Z :=
  map (fun i => Z.min (backoffBase options * 2 ^ (attempt + Z.of_nat i))
                      (maxBackoff options))
      (seq 0 k).

End WithRetry.

End Retry.

(** ** src/models/notam.ts and migrations/001_create_notams.sql *)

Module NOTAMModel.

Record QLine : Type := {
  q_purpose : option string;
  q_scope : option string;
  q_traffic_type : option string;
  lower_altitude : option string;
  upper_altitude : option string;
  coordinates : option string
}.

(** The fields of the interface [NOTAM] that a caller supplies.  Its optional
    [id], [created_at] and [updated_at] are set by the store only and live in
    [Row]. *)
Record NOTAM : Type := {
  notam_id : string;
  icao_location : string;
  effective_start : Z;
  effective_end : option Z;
  schedule : option string;
  notam_text : string;
  q_line : option QLine;
  purpose : option string;
  scope : option string;
  traffic_type : option string;
  raw_message : option string
}.

(** A row of table [notams]. *)
Record Row : Type := {
  id : Z;
  cols : NOTAM;
  created_at : Z;
  updated_at : Z
}.

Record NOTAMQueryFilters : Type := {
  f_location : option string;
  f_start : option Z;
  f_end : option Z;
  f_purpose : option string;
  f_scope : option string;
  f_limit : option Z;
  f_offset : option Z
}.

(** The table and the sequence behind its [SERIAL] key. *)
Record DB : Type := {
  rows : list Row;
  next_id : Z
}.

(** What the model's calls act on: the database, the outcome the connection
    pool has in store for each coming [pool.query] ([Some e]: the query throws
    [e], a lost connection or a statement the server rejects, and the table
    stays as it was; [None] or no entry: the statement runs), the counter
    [notamDuplicatesTotal], and the choice the server makes where a statement
    leaves it one: [ORDER BY effective_start DESC] names no second key, so
    among rows with equal [effective_start] the server returns those first
    that it ranks lower under [tiebreak], a ranking of its own that may be
    another one for every statement (here: for every set of filters). *)
Record World : Type := {
  db : DB;
  faults : list (option JSError);
  duplicatesTotal : Z;
  tiebreak : NOTAMQueryFilters -> Row -> Z
}.

(** Environment variables read by [withRetry], already through [parseInt]. *)
Record Env : Type := {
  DB_MAX_RETRIES : Z;
  DB_RETRY_BACKOFF_BASE : Z
}.

(** The defaults [withRetry] destructures when called without options. *)
Definition defaultRetryOptions (env : Env) : Retry.RetryOptions :=
  {| Retry.maxRetries := DB_MAX_RETRIES env;
     Retry.backoffBase := DB_RETRY_BACKOFF_BASE env;
     Retry.maxBackoff := 10000;
     Retry.isRetriable := Retry.isRetriableDatabaseError |}.

(** JavaScript truthiness of an optional string: defined and not empty. *)
Definition truthy_string (o : option string) : bool :=
  match o with
  | Some s => negb (String.eqb s "")
  | None => false
  end.

(** SQL [col = $n] on a nullable column: NULL never satisfies it. *)
Definition sql_eq_nullable (col : option string) (v : string) : bool :=
  match col with
  | Some c => String.eqb c v
  | None => false
  end.

Definition set_db (w : World) (d : DB) (fs : list (option JSError)) : World :=
  {| db := d; faults := fs; duplicatesTotal := duplicatesTotal w;
     tiebreak := tiebreak w |}.

(** [pool.query(...)] running statement [stmt]. *)
Definition pool_query {T : Type} (stmt : DB -> (T + JSError) * DB) (w : World)
    : (T + JSError) * World :=
  match faults w with
  | Some e :: rest => (inr e, set_db w (db w) rest)
  | None :: rest => let '(r, d) := stmt (db w) in (r, set_db w d rest)
  | [] => let '(r, d) := stmt (db w) in (r, set_db w d [])
  end.

Definition same_notam_id (n : NOTAM) (r : Row) : bool :=
  String.eqb (notam_id (cols r)) (notam_id n).

(** [DO UPDATE SET ...]: every column named in the statement is taken from
    the proposed row, [updated_at] becomes [NOW()], the others stay. *)
Definition do_update (now : Z) (n : NOTAM) (r : Row) : Row :=
  {| id := id r;
     cols := {| notam_id := notam_id (cols r);
                icao_location := icao_location n;
                effective_start := effective_start n;
                effective_end := effective_end n;
                schedule := schedule n;
                notam_text := notam_text n;
                q_line := q_line n;
                purpose := purpose n;
                scope := scope n;
                traffic_type := traffic_type n;
                raw_message := raw_message n |};
     created_at := created_at r;
     updated_at := now |}.

(** The statement of [create]: [INSERT ... ON CONFLICT (notam_id) DO UPDATE
    ... RETURNING *, (xmax = 0) AS inserted], with the row it returns and the
    flag [inserted].  The sequence advances on every execution, also when the
    insert turns into an update. *)
Definition sql_upsert (now : Z) (n : NOTAM) (d : DB)
    : ((Row * bool) + JSError) * DB :=
  match find (same_notam_id n) (rows d) with
  | Some old =>
      (inl (do_update now n old, false),
       {| rows := map (fun r => if same_notam_id n r then do_update now n r else r)
                      (rows d);
          next_id := next_id d + 1 |})
  | None =>
      let r := {| id := next_id d; cols := n; created_at := now; updated_at := now |} in
      (inl (r, true), {| rows := rows d ++ [r]; next_id := next_id d + 1 |})
  end.

Definition incDuplicates (w : World) : World :=
  {| db := db w; faults := faults w; duplicatesTotal := duplicatesTotal w + 1;
     tiebreak := tiebreak w |}.

Definition create (env : Env) (now : Z) (notam : NOTAM) (w : World)
    : (Row + JSError) * World :=
  let run := Retry.withRetry (pool_query (sql_upsert now notam))
                             (defaultRetryOptions env) w in
  match Retry.outcome run with
  | Some (inl (row, inserted)) =>
      (inl row, if negb inserted then incDuplicates (Retry.world run)
                else Retry.world run)
  | Some (inr error) => (inr error, Retry.world run)
  | None => (inr ThrownUndefined, Retry.world run)
  end.


(** The [conditions] array of [findByFilters], each entry with its value. *)
Definition query_conditions (filters : NOTAMQueryFilters) : list (Row -> bool) :=
  (if truthy_string (f_location filters)
   then [fun r => sql_eq_nullable (Some (icao_location (cols r)))
                    (match f_location filters with Some l => l | None => "" end)]
   else [])
  ++ (match f_start filters with
      | Some start => [fun r => match effective_end (cols r) with
                                | None => true
                                | Some e => e >=? start
                                end]
      | None => []
      end)
  ++ (match f_end filters with
      | Some e => [fun r => effective_start (cols r) <=? e]
      | None => []
      end)
  ++ (if truthy_string (f_purpose filters)
      then [fun r => sql_eq_nullable (purpose (cols r))
                       (match f_purpose filters with Some p => p | None => "" end)]
      else [])
  ++ (if truthy_string (f_scope filters)
      then [fun r => sql_eq_nullable (scope (cols r))
                       (match f_scope filters with Some p => p | None => "" end)]
      else []).

(** The [conditions] array of [count]. *)
Definition count_conditions (filters : option NOTAMQueryFilters) : list (Row -> bool) :=
  match filters with
  | None => []
  | Some filters =>
      (if truthy_string (f_location filters)
       then [fun r => sql_eq_nullable (Some (icao_location (cols r)))
                        (match f_location filters with Some l => l | None => "" end)]
       else [])
      ++ (match f_start filters with
          | Some start => [fun r => match effective_end (cols r) with
                                    | None => true
                                    | Some e => e >=? start
                                    end]
          | None => []
          end)
      ++ (match f_end filters with
          | Some e => [fun r => effective_start (cols r) <=? e]
          | None => []
          end)
  end.

(** [WHERE c1 AND c2 AND ...]; no clause when the array is empty. *)
Definition where_clause (conditions : list (Row -> bool)) (r : Row) : bool :=
  forallb (fun c => c r) conditions.

(** [ORDER BY effective_start DESC].  SQL leaves the order of rows with equal
    keys open: [r] comes before [x] when it starts later, and among rows that
    start together when the server's ranking for the statement, [rank], does
    not put it after [x]. *)
Definition comes_before (rank : Row -> Z) (r x : Row) : bool :=
  (effective_start (cols x) <? effective_start (cols r))
  || ((effective_start (cols x) =? effective_start (cols r)) && (rank r <=? rank x)).

Fixpoint insert_desc (rank : Row -> Z) (r : Row) (l : list Row) : list Row :=
  match l with
  | [] => [r]
  | x :: l' =>
      if comes_before rank r x
      then r :: x :: l'
      else x :: insert_desc rank r l'
  end.

Definition order_by_effective_start_desc (rank : Row -> Z) (l : list Row) : list Row :=
  fold_right (insert_desc rank) [] l.

(** [filters.limit || 100], [filters.offset || 0] *)
Definition limit_of (filters : NOTAMQueryFilters) : Z :=
  match f_limit filters with
  | Some l => if l =? 0 then 100 else l
  | None => 100
  end.

Definition offset_of (filters : NOTAMQueryFilters) : Z :=
  match f_offset filters with
  | Some o => or_zero o
  | None => 0
  end.

(** The [SELECT] of [findByFilters]; PostgreSQL rejects a negative [LIMIT]
    (2201W) or [OFFSET] (2201X).  [rank] is the server's ranking of rows with
    equal keys for this execution. *)
Definition sql_select (rank : Row -> Z) (filters : NOTAMQueryFilters) (d : DB)
    : (list Row + JSError) * DB :=
  if limit_of filters <? 0
  then (inr (ThrownObject (Some "2201W") (Some "LIMIT must not be negative")), d)
  else if offset_of filters <? 0
  then (inr (ThrownObject (Some "2201X") (Some "OFFSET must not be negative")), d)
  else
    let selected := filter (where_clause (query_conditions filters)) (rows d) in
    let ordered := order_by_effective_start_desc rank selected in
    (inl (firstn (Z.to_nat (limit_of filters))
                 (skipn (Z.to_nat (offset_of filters)) ordered)), d).

Definition findByFilters (filters : NOTAMQueryFilters) (w : World)
    : (list Row + JSError) * World :=
  pool_query (sql_select (tiebreak w filters) filters) w.

(** [SELECT COUNT( * ) FROM notams ...], then [parseInt(rows[0].count, 10)]. *)
Definition sql_count (filters : option NOTAMQueryFilters) (d : DB)
    : (Z + JSError) * DB :=
  (inl (Z.of_nat (List.length (filter (where_clause (count_conditions filters)) (rows d)))), d).

Definition count (filters : option NOTAMQueryFilters) (w : World)
    : (Z + JSError) * World :=
  pool_query (sql_count filters) w.

(** Milliseconds in [INTERVAL '1 day'] (session time zone UTC). *)
Definition day_ms : Z := 86400000.

(** [effective_end IS NOT NULL AND effective_end < NOW() - INTERVAL '1 day' * $1] *)
Definition expired (now olderThanDays : Z) (r : Row) : bool :=
  match effective_end (cols r) with
  | None => false
  | Some e => e <? now - day_ms * olderThanDays
  end.

(** The [DELETE] of [deleteExpired], with its [rowCount]. *)
Definition sql_delete_expired (now olderThanDays : Z) (d : DB)
    : (Z + JSError) * DB :=
  (inl (Z.of_nat (List.length (filter (expired now olderThanDays) (rows d)))),
   {| rows := filter (fun r => negb (expired now olderThanDays r)) (rows d);
      next_id := next_id d |}).

(** [return result.rowCount || 0] *)
Definition deleteExpired (now olderThanDays : Z) (w : World)
    : (Z + JSError) * World :=
  match pool_query (sql_delete_expired now olderThanDays) w with
  | (inl rowCount, w') => (inl (or_zero rowCount), w')
  | (inr error, w') => (inr error, w')
  end.

(** What the pool has in store for the coming [pool.query]. *)
Definition next_fault (w : World) : option JSError :=
  match faults w with
  | Some e :: _ => Some e
  | _ => None
  end.

(** The rows the [WHERE] clause of [findByFilters] selects, before [ORDER
    BY], [LIMIT] and [OFFSET]. *)
Definition selected_by_query (filters : NOTAMQueryFilters) (d : DB) : list Row :=
  filter (where_clause (query_conditions filters)) (rows d).

(** The filters with another page: the same predicates, [limit] and
    [offset] replaced. *)
Definition with_page (filters : NOTAMQueryFilters) (limit offset : Z)
    : NOTAMQueryFilters :=
  {| f_location := f_location filters;
     f_start := f_start filters;
     f_end := f_end filters;
     f_purpose := f_purpose filters;
     f_scope := f_scope filters;
     f_limit := Some limit;
     f_offset := Some offset |}.


(** No two rows that the [WHERE] clause of [findByFilters] selects start at
    the same time: [ORDER BY effective_start DESC] then leaves the server no
    choice. *)
Definition no_ties (filters : NOTAMQueryFilters) (d : DB) : Prop :=
  NoDup (map (fun r => effective_start (cols r)) (selected_by_query filters d)).

(** The constraint [notam_id ... UNIQUE] on a table. *)
Definition unique_notam_ids (d : DB) : Prop :=
  NoDup (map (fun r => notam_id (cols r)) (rows d)).

End NOTAMModel.

(** ** src/services/notam-parser.ts *)

Module NOTAMParser.

Import NOTAMModel.

(** *** Strings *)

(** White space of [trim()] and of [\s] among 8-bit code units. *)
Definition is_space (c : ascii) : bool :=
  let n := nat_of_ascii c in
  ((9 <=? n) && (n <=? 13) || (n =? 32) || (n =? 160))%nat.

Definition is_digit (c : ascii) : bool :=
  let n := nat_of_ascii c in ((48 <=? n) && (n <=? 57))%nat.

Definition is_upper (c : ascii) : bool :=
  let n := nat_of_ascii c in ((65 <=? n) && (n <=? 90))%nat.

Definition is_lower (c : ascii) : bool :=
  let n := nat_of_ascii c in ((97 <=? n) && (n <=? 122))%nat.

Fixpoint trimStart (s : string) : string :=
  match s with
  | String c s' => if is_space c then trimStart s' else s
  | EmptyString => EmptyString
  end.

Fixpoint trimEnd (s : string) : string :=
  match s with
  | String c s' =>
      match trimEnd s' with
      | EmptyString => if is_space c then EmptyString else String c EmptyString
      | t => String c t
      end
  | EmptyString => EmptyString
  end.

Definition trim (s : string) : string := trimEnd (trimStart s).

Definition startsWith (s p : string) : bool := String.prefix p s.

Fixpoint drop (n : nat) (s : string) : string :=
  match n, s with
  | S n', String _ s' => drop n' s'
  | _, _ => s
  end.

Fixpoint take (n : nat) (s : string) : string :=
  match n, s with
  | S n', String c s' => String c (take n' s')
  | _, _ => EmptyString
  end.

(** [s.split(sep)] for a one-character separator. *)
Fixpoint split (sep : ascii) (s : string) : list string :=
  match s with
  | EmptyString => [EmptyString]
  | String c s' =>
      if Ascii.eqb c sep then EmptyString :: split sep s'
      else match split sep s' with
           | x :: l => String c x :: l
           | [] => [String c EmptyString]
           end
  end.

(** [line.split(/\s+/)[0]]: the text before the first white space. *)
Fixpoint first_token (s : string) : string :=
  match s with
  | String c s' => if is_space c then EmptyString else String c (first_token s')
  | EmptyString => EmptyString
  end.

(** [toUpperCase()]; only the letters a-z matter to the comparisons made. *)
Definition upcase (c : ascii) : ascii :=
  if is_lower c then ascii_of_nat (nat_of_ascii c - 32) else c.

Fixpoint toUpperCase (s : string) : string :=
  match s with
  | String c s' => String (upcase c) (toUpperCase s')
  | EmptyString => EmptyString
  end.

Fixpoint all_digits (s : string) : bool :=
  match s with
  | String c s' => is_digit c && all_digits s'
  | EmptyString => true
  end.

Fixpoint skip_digits (s : string) : string :=
  match s with
  | String c s' => if is_digit c then skip_digits s' else s
  | EmptyString => EmptyString
  end.

(** [\d+] at the start of [s]: what follows the digits, if there is one. *)
Definition digits1 (s : string) : option string :=
  match s with
  | String c s' => if is_digit c then Some (skip_digits s') else None
  | EmptyString => None
  end.

(** [/^[A-Z]\d+\/\d+/.test(line)] *)
Definition matches_notam_id (line : string) : bool :=
  match line with
  | String c rest =>
      is_upper c &&
      match digits1 rest with
      | Some (String "/" rest') =>
          match digits1 rest' with
          | Some _ => true
          | None => false
          end
      | _ => false
      end
  | EmptyString => false
  end.

(** [parseInt(s, 10)] on a string of digits. *)
Definition parseInt_digits (s : string) : Z :=
  fold_left (fun acc c => 10 * acc + Z.of_nat (nat_of_ascii c - 48))
            (list_ascii_of_string s) 0.

(** *** Dates *)

(** Days from 1970-01-01 to day [d] of month [m] (1 to 12) of year [y]. *)
Definition days_from_civil (y m d : Z) : Z :=
  let y' := if m <=? 2 then y - 1 else y in
  let era := y' / 400 in
  let yoe := y' - era * 400 in
  let doy := (153 * (m + (if m >? 2 then -3 else 9)) + 2) / 5 + d - 1 in
  let doe := yoe * 365 + yoe / 4 - yoe / 100 + doy in
  era * 146097 + doe - 719468.

(** [Date.UTC(year, month, day, hour, minute)]: years 0 to 99 mean 1900 to
    1999, the month counts from 0 and overflows into the year. *)
Definition Date_UTC (year month day hour minute : Z) : Z :=
  let year := if (0 <=? year) && (year <=? 99) then 1900 + year else year in
  let ym := year + month / 12 in
  let mn := month mod 12 in
  (days_from_civil ym (mn + 1) 1 + day - 1) * 86400000
  + hour * 3600000 + minute * 60000.

(** *** The tree the XML parser returns *)

#[local] Unset Elimination Schemes.

(** A number is given by the text [String()] prints for it, which is all
    the parser code ever takes from a number besides its truthiness, and
    which tells the numbers apart: ["4146"], ["1.5"], ["1e+21"], ["NaN"].
    An object is given by its own properties; its prototype is
    [Object.prototype]. *)
Inductive JSValue : Type :=
| JUndefined
| JNull
| JBool (b : bool)
| JNumber (text : string)
| JString (s : string)
| JObject (fields : list (string * JSValue))
| JArray (items : list JSValue).

#[local] Set Elimination Schemes.

(** Induction on a tree: through the properties of an object and the items
    of an array. *)
Section JSValue_induction.

Variable P : JSValue -> Prop.
Hypothesis HUndefined : P JUndefined.
Hypothesis HNull : P JNull.
Hypothesis HBool : forall b, P (JBool b).
Hypothesis HNumber : forall text, P (JNumber text).
Hypothesis HString : forall s, P (JString s).
Hypothesis HObject :
  forall fields, Forall (fun kv => P (snd kv)) fields -> P (JObject fields).
Hypothesis HArray : forall items, Forall P items -> P (JArray items).

Fixpoint JSValue_ind (v : JSValue) : P v :=
  match v with
  | JUndefined => HUndefined
  | JNull => HNull
  | JBool b => HBool b
  | JNumber text => HNumber text
  | JString s => HString s
  | JObject fields =>
      HObject fields
        ((fix go (l : list (string * JSValue)) : Forall (fun kv => P (snd kv)) l :=
            match l with
            | [] => Forall_nil _
            | kv :: l' => Forall_cons kv (JSValue_ind (snd kv)) (go l')
            end) fields)
  | JArray items =>
      HArray items
        ((fix go (l : list JSValue) : Forall P l :=
            match l with
            | [] => Forall_nil _
            | x :: l' => Forall_cons x (JSValue_ind x) (go l')
            end) items)
  end.

End JSValue_induction.

Definition truthy (v : JSValue) : bool :=
  match v with
  | JUndefined | JNull => false
  | JBool b => b
  | JNumber text => negb (String.eqb text "0" || String.eqb text "NaN")
  | JString s => negb (String.eqb s "")
  | JObject _ | JArray _ => true
  end.

Definition nullish (v : JSValue) : bool :=
  match v with
  | JUndefined | JNull => true
  | _ => false
  end.

(** [typeof v === 'object'] *)
Definition typeof_object (v : JSValue) : bool :=
  match v with
  | JNull | JObject _ | JArray _ => true
  | _ => false
  end.

Fixpoint lookup (key : string) (fields : list (string * JSValue)) : JSValue :=
  match fields with
  | [] => JUndefined
  | (k, v) :: rest => if String.eqb k key then v else lookup key rest
  end.

(** [v[key]] for the keys this file uses, none of which an array, a string,
    a number or a boolean has.  On [null] and [undefined] JavaScript throws
    instead; every access below is made on a value already tested, except
    the first one of [parseAIXMMessage], which tests [nullish] itself. *)
Definition prop (v : JSValue) (key : string) : JSValue :=
  match v with
  | JObject fields => lookup key fields
  | _ => JUndefined
  end.

(** [a || b] *)
Definition js_or (a b : JSValue) : JSValue := if truthy a then a else b.

(** [v[k1] || v[k2] || ...]; the last operand is the value when none is truthy. *)
Fixpoint first_truthy (v : JSValue) (keys : list string) : JSValue :=
  match keys with
  | [] => JUndefined
  | [k] => prop v k
  | k :: rest => js_or (prop v k) (first_truthy v rest)
  end.

(** [Object.prototype.hasOwnProperty.call(o, key)] *)
Definition has_own (key : string) (fields : list (string * JSValue)) : bool :=
  existsb (fun kv => String.eqb (fst kv) key) fields.

(** [String(v)].  An object is converted by calling its [toString], then its
    [valueOf].  Without a property [toString] of its own that is the method
    of [Object.prototype].  A property [toString] of its own is data in a
    parsed tree, never a function, and is passed over; [valueOf] is then
    either data as well or the method of [Object.prototype], which returns
    the object itself: no primitive is reached and the conversion throws.
    An array joins the conversions of its items, in order. *)
Fixpoint js_String (v : JSValue) : string + JSError :=
  match v with
  | JUndefined => inl "undefined"
  | JNull => inl "null"
  | JBool true => inl "true"
  | JBool false => inl "false"
  | JNumber text => inl text
  | JString s => inl s
  | JObject fields =>
      if has_own "toString" fields
      then inr (TypeError "Cannot convert object to primitive value")
      else inl "[object Object]"
  | JArray items =>
      (fix join (l : list JSValue) : string + JSError :=
         match l with
         | [] => inl ""
         | x :: l' =>
             match (match x with
                    | JUndefined | JNull => inl ""
                    | _ => js_String x
                    end) with
             | inr e => inr e
             | inl sx =>
                 match l' with
                 | [] => inl sx
                 | _ => match join l' with
                        | inr e => inr e
                        | inl rest => inl (sx ++ "," ++ rest)
                        end
                 end
             end
         end) items
  end.

(** [o || d] on an optional string *)
Definition or_string (o : option string) (d : string) : string :=
  match o with
  | Some s => if String.eqb s "" then d else s
  | None => d
  end.

(** [o || null] on an optional string *)
Definition or_null (o : option string) : option string :=
  match o with
  | Some s => if String.eqb s "" then None else Some s
  | None => None
  end.

(** The walk of [extractField] along the parts of a dotted name. *)
Fixpoint walk (value : JSValue) (parts : list string) : JSValue :=
  match parts with
  | [] => value
  | part :: rest =>
      if truthy value && typeof_object value
      then walk (prop value part) rest
      else JUndefined
  end.

(** The value [extractField] looks at for one field name. *)
Definition field_value (data : JSValue) (fieldName : string) : JSValue :=
  if includes fieldName "." then walk data (split "." fieldName)
  else if includes fieldName ":" then prop data fieldName
  else js_or (prop data fieldName)
         (js_or (prop data ("aixm:" ++ fieldName)) (prop data ("event:" ++ fieldName))).

(** Extract field from data using multiple possible field names *)
Fixpoint extractField (data : JSValue) (fieldNames : list string)
    : option string + JSError :=
  match fieldNames with
  | [] => inl None
  | fieldName :: rest =>
      let value := field_value data fieldName in
      if negb (nullish value) then s <- js_String value ;; inl (Some s)
      else extractField data rest
  end.

(** Extract Q-line data from NOTAM *)
Definition extractQLine (data : JSValue) : option QLine + JSError :=
  let qLineData := first_truthy data ["qLine"; "QLine"; "aixm:qLine"] in
  if negb (truthy qLineData) || negb (typeof_object qLineData) then inl None
  else
    purpose <- extractField qLineData ["purpose"; "Purpose"] ;;
    scope <- extractField qLineData ["scope"; "Scope"] ;;
    traffic_type <- extractField qLineData ["trafficType"; "TrafficType"] ;;
    lower <- extractField qLineData ["lowerAltitude"; "LowerLimit"] ;;
    upper <- extractField qLineData ["upperAltitude"; "UpperLimit"] ;;
    coords <- extractField qLineData ["coordinates"; "Coordinates"] ;;
    inl (Some {| q_purpose := purpose;
                 q_scope := scope;
                 q_traffic_type := traffic_type;
                 lower_altitude := lower;
                 upper_altitude := upper;
                 coordinates := coords |}).

(** The line carries one of the tags of the legacy format. *)
Definition tagged (line : string) : bool :=
  startsWith line "A)" || startsWith line "B)" || startsWith line "C)"
  || startsWith line "D)" || startsWith line "E)".

(** The last line that starts with [tag]. *)
Definition last_with (tag : string) (lines : list string) : option string :=
  find (fun l => startsWith l tag) (rev lines).

(** The field of a [Partial] object has been assigned. *)
Definition is_assigned {A : Type} (o : option A) : bool :=
  match o with
  | Some _ => true
  | None => false
  end.

(** No key of [keys] is present in [v]. *)
Definition absent (v : JSValue) (keys : list string) : Prop :=
  forall k, In k keys -> prop v k = JUndefined.

(** No object in [v] has a property [toString] of its own: the tree of a
    document without an element or attribute of that name. *)
Fixpoint plain (v : JSValue) : bool :=
  match v with
  | JObject fields =>
      negb (has_own "toString" fields)
      && (fix all (l : list (string * JSValue)) : bool :=
            match l with
            | [] => true
            | kv :: l' => plain (snd kv) && all l'
            end) fields
  | JArray items =>
      (fix all (l : list JSValue) : bool :=
         match l with
         | [] => true
         | x :: l' => plain x && all l'
         end) items
  | _ => true
  end.

(** The keys [extractField] reads for one undotted field name. *)
Definition candidates (fieldName : string) : list string :=
  if includes fieldName ":" then [fieldName]
  else [fieldName; "aixm:" ++ fieldName; "event:" ++ fieldName].

Section Parser.

(** The XML parser of package fast-xml-parser: the tree, or [None] when it
    throws. *)
Variable xml_parse : string -> option JSValue.

(** [new Date(dateStr).getTime()], whose grammar beyond ISO 8601 is the
    engine's own; [None] when the result is [NaN]. *)
Variable Date_parse : string -> option Z.

(** Parse date string to Date object *)
Definition parseDate (dateStr : option string) : option Z :=
  match dateStr with
  | None => None
  | Some dateStr =>
      if String.eqb dateStr "" then None
      else if String.eqb (toUpperCase dateStr) "PERM"
              || String.eqb (toUpperCase dateStr) "PERMANENT" then None
      else
        match Date_parse dateStr with
        | Some date => Some date
        | None =>
            if all_digits dateStr && (String.length dateStr =? 12)%nat then
              let year := parseInt_digits (take 4 dateStr) in
              let month := parseInt_digits (take 2 (drop 4 dateStr)) - 1 in
              let day := parseInt_digits (take 2 (drop 6 dateStr)) in
              let hour := parseInt_digits (take 2 (drop 8 dateStr)) in
              let minute := parseInt_digits (take 2 (drop 10 dateStr)) in
              Some (Date_UTC year month day hour minute)
            else if all_digits dateStr && (String.length dateStr =? 10)%nat then
              let year := 2000 + parseInt_digits (take 2 dateStr) in
              let month := parseInt_digits (take 2 (drop 2 dateStr)) - 1 in
              let day := parseInt_digits (take 2 (drop 4 dateStr)) in
              let hour := parseInt_digits (take 2 (drop 6 dateStr)) in
              let minute := parseInt_digits (take 2 (drop 8 dateStr)) in
              Some (Date_UTC year month day hour minute)
            else None
        end
  end.

(** [if (pos && !current) current = parseDate(String(pos))] *)
Definition fallback_date (pos : JSValue) (current : option Z) : option Z + JSError :=
  match current with
  | Some _ => inl current
  | None =>
      if truthy pos then s <- js_String pos ;; inl (parseDate (Some s))
      else inl None
  end.

(** The field names of [extractNOTAMFromData]. *)
Definition series_names : list string := ["series"; "event:series"].
Definition number_names : list string := ["number"; "event:number"].
Definition year_names : list string := ["year"; "event:year"].
Definition effectiveStart_names : list string :=
  ["effectiveStart"; "event:effectiveStart"; "validityStart"].
Definition effectiveEnd_names : list string :=
  ["effectiveEnd"; "event:effectiveEnd"; "validityEnd"].
Definition location_names : list string := ["location"; "event:location"; "icaoLocation"].
Definition text_names : list string := ["text"; "event:text"; "notamText"; "itemE"].
Definition purpose_names : list string := ["purpose"; "event:purpose"].
Definition scope_names : list string := ["scope"; "event:scope"].
Definition traffic_names : list string := ["traffic"; "event:traffic"].

(** What [gml:validTime] of the event time slice adds to the dates read from
    the direct fields: [beginPosition] and [endPosition] of its [TimePeriod],
    each for a date still missing. *)
Definition validTime_fallback (eventTimeSlice : JSValue)
    (effectiveStart effectiveEnd : option Z) : (option Z * option Z) + JSError :=
  let validTime := first_truthy eventTimeSlice ["gml:validTime"; "validTime"] in
  if truthy validTime && typeof_object validTime then
    let timePeriod := first_truthy validTime ["gml:TimePeriod"; "TimePeriod"] in
    if truthy timePeriod && typeof_object timePeriod then
      let beginPos := first_truthy timePeriod ["gml:beginPosition"; "beginPosition"] in
      let endPos := first_truthy timePeriod ["gml:endPosition"; "endPosition"] in
      effectiveStart' <- fallback_date beginPos effectiveStart ;;
      effectiveEnd' <- fallback_date endPos effectiveEnd ;;
      inl (effectiveStart', effectiveEnd')
    else inl (effectiveStart, effectiveEnd)
  else inl (effectiveStart, effectiveEnd).

(** The effective window of [extractNOTAMFromData]: the direct fields first,
    then [gml:validTime] of the event time slice if either is missing. *)
Definition effective_window (data eventTimeSlice : JSValue)
    : (option Z * option Z) + JSError :=
  startText <- extractField data effectiveStart_names ;;
  endText <- extractField data effectiveEnd_names ;;
  let effectiveStart := parseDate startText in
  let effectiveEnd := parseDate endText in
  match effectiveStart, effectiveEnd with
  | Some _, Some _ => inl (effectiveStart, effectiveEnd)
  | _, _ => validTime_fallback eventTimeSlice effectiveStart effectiveEnd
  end.

(** What [gml:validTime] of the event time slice offers as a start: the
    parsed [beginPosition] of its [TimePeriod], if all of that is there. *)
Definition begin_fallback (eventTimeSlice : JSValue) : option Z + JSError :=
  let validTime := first_truthy eventTimeSlice ["gml:validTime"; "validTime"] in
  if truthy validTime && typeof_object validTime then
    let timePeriod := first_truthy validTime ["gml:TimePeriod"; "TimePeriod"] in
    if truthy timePeriod && typeof_object timePeriod then
      fallback_date (first_truthy timePeriod ["gml:beginPosition"; "beginPosition"]) None
    else inl None
  else inl None.

(** Extract NOTAM fields from parsed data structure; [now] is [new Date()].
    The conversions run in the order of the source; the first that throws
    ends the extraction. *)
Definition extractNOTAMFromData (now : Z) (data eventTimeSlice : JSValue)
    (rawXml : string) : NOTAM + JSError :=
  series <- extractField data series_names ;;
  number <- extractField data number_names ;;
  year <- extractField data year_names ;;
  let series := or_string series "" in
  let number := or_string number "" in
  let year := or_string year "" in
  let notamId :=
    if negb (String.eqb series "") && negb (String.eqb number "")
       && negb (String.eqb year "")
    then series ++ number ++ "/" ++ year
    else "UNKNOWN" in
  window <- effective_window data eventTimeSlice ;;
  location <- extractField data location_names ;;
  text <- extractField data text_names ;;
  qLine <- extractQLine data ;;
  purpose <- extractField data purpose_names ;;
  scope <- extractField data scope_names ;;
  traffic <- extractField data traffic_names ;;
  inl {| notam_id := notamId;
         icao_location := or_string location "ZZZZ";
         effective_start := match fst window with Some d => d | None => now end;
         effective_end := snd window;
         schedule := None;
         notam_text := or_string text "";
         q_line := qLine;
         purpose := or_null purpose;
         scope := or_null scope;
         traffic_type := or_null traffic;
         raw_message := Some rawXml |}.

(** One step of the navigation: the section under the first candidate key
    that holds a truthy value, or [None] where the code returns [null]. *)
Definition section (v : JSValue) (keys : list string) : option JSValue :=
  let s := first_truthy v keys in
  if truthy s then Some s else None.

(** The candidate keys of each section, in the order the code tries them. *)
Definition message_keys : list string := ["AIXMBasicMessage"; "aixm:AIXMBasicMessage"].
Definition member_keys : list string := ["hasMember"; "aixm:hasMember"].
Definition event_keys : list string := ["Event"; "event:Event"; "aixm:Event"].
Definition timeSlice_keys : list string := ["timeSlice"; "event:timeSlice"; "aixm:timeSlice"].
Definition eventTimeSlice_keys : list string :=
  ["EventTimeSlice"; "event:EventTimeSlice"; "aixm:EventTimeSlice"].
Definition textNOTAM_keys : list string := ["textNOTAM"; "event:textNOTAM"].
Definition NOTAM_keys : list string := ["NOTAM"; "event:NOTAM"].

(** The chain from the parsed tree to the event time slice. *)
Definition navigate (parsed : JSValue) : option JSValue :=
  if nullish parsed then None
  else
    match section parsed message_keys with
    | None => None
    | Some message =>
        match section message member_keys with
        | None => None
        | Some member =>
            match section member event_keys with
            | None => None
            | Some event =>
                match section event timeSlice_keys with
                | None => None
                | Some timeSlice => section timeSlice eventTimeSlice_keys
                end
            end
        end
    end.

(** The chain as a list of sections, and the descent along such a list. *)
Definition chain : list (list string) :=
  [message_keys; member_keys; event_keys; timeSlice_keys; eventTimeSlice_keys].

Fixpoint descend (v : JSValue) (sections : list (list string)) : option JSValue :=
  match sections with
  | [] => Some v
  | keys :: rest =>
      match section v keys with
      | None => None
      | Some v' => descend v' rest
      end
  end.

(** [notam || eventTimeSlice.NOTAM || eventTimeSlice['event:NOTAM'] ||
    eventTimeSlice], where [notam] is looked up under [textNOTAM] with
    optional chaining. *)
Definition notamData_of (eventTimeSlice : JSValue) : JSValue :=
  let textNOTAM := first_truthy eventTimeSlice textNOTAM_keys in
  let notam := if nullish textNOTAM then JUndefined
               else first_truthy textNOTAM NOTAM_keys in
  js_or notam (js_or (first_truthy eventTimeSlice NOTAM_keys) eventTimeSlice).

(** Parse AIXM XML message from FAA SWIM JMS.  Whatever is thrown inside the
    [try], by the XML parser or by a conversion of the extraction, ends in
    the [catch], which returns [null]. *)
Definition parseAIXMMessage (now : Z) (xmlString : string) : option NOTAM :=
  match xml_parse xmlString with
  | None => None
  | Some parsed =>
      match navigate parsed with
      | None => None
      | Some eventTimeSlice =>
          match extractNOTAMFromData now (notamData_of eventTimeSlice)
                                     eventTimeSlice xmlString with
          | inl notam => Some notam
          | inr _ => None
          end
      end
  end.

(** The object [parseTextNOTAM] fills in, a [Partial<NOTAM>]: [None] is a
    field not assigned. *)
Record PartialNOTAM : Type := {
  p_notam_id : option string;
  p_icao_location : option string;
  p_effective_start : option Z;
  p_effective_end : option (option Z);
  p_schedule : option string;
  p_notam_text : string;
  p_raw_message : string
}.

(** The body of the loop over the lines; [now] is [new Date()]. *)
Definition process_line (now : Z) (notam : PartialNOTAM) (line : string) : PartialNOTAM :=
  if startsWith line "A)" then
    {| p_notam_id := p_notam_id notam;
       p_icao_location := Some (take 10 (trim (drop 2 line)));
       p_effective_start := p_effective_start notam;
       p_effective_end := p_effective_end notam;
       p_schedule := p_schedule notam;
       p_notam_text := p_notam_text notam;
       p_raw_message := p_raw_message notam |}
  else if startsWith line "B)" then
    {| p_notam_id := p_notam_id notam;
       p_icao_location := p_icao_location notam;
       p_effective_start :=
         Some match parseDate (Some (trim (drop 2 line))) with
              | Some d => d
              | None => now
              end;
       p_effective_end := p_effective_end notam;
       p_schedule := p_schedule notam;
       p_notam_text := p_notam_text notam;
       p_raw_message := p_raw_message notam |}
  else if startsWith line "C)" then
    {| p_notam_id := p_notam_id notam;
       p_icao_location := p_icao_location notam;
       p_effective_start := p_effective_start notam;
       p_effective_end := Some (parseDate (Some (trim (drop 2 line))));
       p_schedule := p_schedule notam;
       p_notam_text := p_notam_text notam;
       p_raw_message := p_raw_message notam |}
  else if startsWith line "D)" then
    {| p_notam_id := p_notam_id notam;
       p_icao_location := p_icao_location notam;
       p_effective_start := p_effective_start notam;
       p_effective_end := p_effective_end notam;
       p_schedule := Some (trim (drop 2 line));
       p_notam_text := p_notam_text notam;
       p_raw_message := p_raw_message notam |}
  else if startsWith line "E)" then
    {| p_notam_id := p_notam_id notam;
       p_icao_location := p_icao_location notam;
       p_effective_start := p_effective_start notam;
       p_effective_end := p_effective_end notam;
       p_schedule := p_schedule notam;
       p_notam_text := trim (drop 2 line);
       p_raw_message := p_raw_message notam |}
  else if negb (truthy_string (p_notam_id notam)) && matches_notam_id line then
    {| p_notam_id := Some (first_token line);
       p_icao_location := p_icao_location notam;
       p_effective_start := p_effective_start notam;
       p_effective_end := p_effective_end notam;
       p_schedule := p_schedule notam;
       p_notam_text := p_notam_text notam;
       p_raw_message := p_raw_message notam |}
  else notam.

(** [text.split('\n').map((l) => l.trim()).filter((l) => l.length > 0)] *)
Definition lines_of (text : string) : list string :=
  filter (fun l => negb (String.eqb l ""))
         (map trim (split "010"%char text)).

Definition process_lines (now : Z) (text : string) : PartialNOTAM :=
  fold_left (process_line now) (lines_of text)
    {| p_notam_id := None;
       p_icao_location := None;
       p_effective_start := None;
       p_effective_end := None;
       p_schedule := None;
       p_notam_text := text;
       p_raw_message := text |}.

(** The final test and [return notam as NOTAM].  A [Date] is always truthy.
    Fields left unassigned stay [undefined] in the object returned, which the
    store writes as NULL: they are [None] here. *)
Definition complete (notam : PartialNOTAM) : option NOTAM :=
  match p_notam_id notam, p_icao_location notam, p_effective_start notam with
  | Some i, Some l, Some start =>
      if negb (String.eqb i "") && negb (String.eqb l "") then
        Some {| notam_id := i;
                icao_location := l;
                effective_start := start;
                effective_end := match p_effective_end notam with
                                 | Some e => e
                                 | None => None
                                 end;
                schedule := p_schedule notam;
                notam_text := p_notam_text notam;
                q_line := None;
                purpose := None;
                scope := None;
                traffic_type := None;
                raw_message := Some (p_raw_message notam) |}
      else None
  | _, _, _ => None
  end.

(** Parse legacy text-based NOTAM format (fallback) *)
Definition parseTextNOTAM (now : Z) (text : string) : option NOTAM :=
  complete (process_lines now text).

End Parser.

End NOTAMParser.

(** ** src/services/notam-ingestion.ts *)

Module NOTAMIngestionService.

Import NOTAMModel.

(** A [solace.Message], by what each call the handler makes on it does: it
    returns or it throws (the broker library raises an [OperationError] on a
    message or a session that is not in the state the call needs).
    [getBinaryAttachment] stands for the getter followed by
    [binaryPayload.toString()], [getSdtContainer] for the getter followed by
    [JSON.stringify]; a getter that returns [null] gives [None].
    [debugContext] stands for the calls that fill the debug entry of a
    message without payload: [getType()], [getDestination()?.getName()] and
    [getUserPropertyMap()]. *)
Record Message : Type := {
  getBinaryAttachment : option string + JSError;
  getXmlContent : option string + JSError;
  getSdtContainer : option string + JSError;
  debugContext : unit + JSError;
  acknowledge : unit + JSError
}.

(** The clock readings one run of the handler can make: the admission check,
    the parser's [new Date()], the statement's [NOW()], the recording of a
    failure. *)
Record Clock : Type := {
  t_admission : Z;
  t_parse : Z;
  t_store : Z;
  t_failure : Z
}.

(** What the handler acts on: the breaker of the service and the world of the
    model; and what it leaves for the broker and the operator: whether
    [message.acknowledge()] was called, and what went to Sentry. *)
Record Service : Type := {
  circuitBreaker : CircuitBreaker.CircuitBreakerState;
  world : World
}.

Record Handled : Type := {
  service : Service;
  acknowledged : bool;
  captured : option JSError
}.

(** The payload tried as binary attachment, XML content, SDT container; a
    getter is called only while no payload has been found. *)
Definition messageBody_of (message : Message) : option string + JSError :=
  binaryPayload <- getBinaryAttachment message ;;
  if truthy_string binaryPayload then inl binaryPayload
  else
    xmlContent <- getXmlContent message ;;
    if truthy_string xmlContent then inl xmlContent
    else
      sdtContainer <- getSdtContainer message ;;
      if truthy_string sdtContainer then inl sdtContainer
      else inl None.

Section Service.

Variable xml_parse : string -> option NOTAMParser.JSValue.
Variable Date_parse : string -> option Z.
Variable env : Env.
Variable options : CircuitBreaker.CircuitBreakerOptions.

(** The parse step of [processMessage]. *)
Definition parse (now : Z) (messageBody : string) : option NOTAM :=
  if NOTAMParser.startsWith (NOTAMParser.trim messageBody) "<"
  then NOTAMParser.parseAIXMMessage xml_parse Date_parse now messageBody
  else NOTAMParser.parseTextNOTAM Date_parse now messageBody.

(** Process incoming NOTAM message *)
Definition processMessage (clock : Clock) (messageBody : string) (w : World)
    : (unit + JSError) * World :=
  match parse (t_parse clock) messageBody with
  | None => (inl tt, w)
  | Some notam =>
      match create env (t_store clock) notam w with
      | (inl _, w') => (inl tt, w')
      | (inr error, w') => (inr error, w')
      end
  end.

(** The [catch] of [handleMessage]: the failure is recorded, the error goes
    to Sentry, and the message is not acknowledged. *)
Definition caught (clock : Clock) (error : JSError)
    (cb : CircuitBreaker.CircuitBreakerState) (w : World) : Handled :=
  {| service := {| circuitBreaker :=
                     CircuitBreaker.recordFailure options (t_failure clock) error cb;
                   world := w |};
     acknowledged := false;
     captured := Some error |}.

(** [message.acknowledge()] as the last call inside the [try]. *)
Definition acknowledge_in_try (clock : Clock) (message : Message)
    (cb : CircuitBreaker.CircuitBreakerState) (w : World) : Handled :=
  match acknowledge message with
  | inl _ =>
      {| service := {| circuitBreaker := cb; world := w |};
         acknowledged := true;
         captured := None |}
  | inr error => caught clock error cb w
  end.

(** Handle incoming message.  Everything after the admission check runs
    inside one [try]: the getters, [processMessage], [recordSuccess] and
    [acknowledge].  Of these [recordSuccess], which only resets a counter,
    has nothing that throws. *)
Definition handleMessage (clock : Clock) (message : Message) (s : Service) : Handled :=
  let '(allowed, cb) :=
    CircuitBreaker.isRequestAllowed options (t_admission clock) (circuitBreaker s) in
  if negb allowed then
    {| service := {| circuitBreaker := cb; world := world s |};
       acknowledged := false;
       captured := None |}
  else
    match messageBody_of message with
    | inr error => caught clock error cb (world s)
    | inl None =>
        match debugContext message with
        | inr error => caught clock error cb (world s)
        | inl _ => acknowledge_in_try clock message cb (world s)
        end
    | inl (Some messageBody) =>
        match processMessage clock messageBody (world s) with
        | (inl _, w') =>
            acknowledge_in_try clock message (CircuitBreaker.recordSuccess cb) w'
        | (inr error, w') => caught clock error cb w'
        end
    end.

End Service.

End NOTAMIngestionService.

(** ** src/config/jms.ts *)

Module SolaceConfig.

(** The variables of [process.env] that [getSolaceConfig] reads; [None] is
    an unset variable. *)
Record ProcessEnv : Type := {
  JMS_HOST : option string;
  JMS_PORT : option string;
  JMS_DESTINATION : option string;
  JMS_VHOST : option string;
  JMS_USERNAME : option string;
  JMS_PASSWORD : option string
}.

Record SolaceConfig : Type := {
  url : string;
  vpnName : string;
  username : string;
  password : string;
  queueName : string
}.

(** [destination.replace(/^\/(queue|topic)\//, '')] *)
Definition strip_prefix (destination : string) : string :=
  if NOTAMParser.startsWith destination "/queue/" then NOTAMParser.drop 7 destination
  else if NOTAMParser.startsWith destination "/topic/" then NOTAMParser.drop 7 destination
  else destination.

Definition getSolaceConfig (env : ProcessEnv) : SolaceConfig + JSError :=
  let host := NOTAMParser.or_string (JMS_HOST env) "localhost" in
  let port := NOTAMParser.or_string (JMS_PORT env) "55443" in
  let destination := NOTAMParser.or_string (JMS_DESTINATION env) "" in
  let config :=
    {| url := "tcps://" ++ host ++ ":" ++ port;
       vpnName := NOTAMParser.or_string (JMS_VHOST env) "AIM_FNS";
       username := NOTAMParser.or_string (JMS_USERNAME env) "";
       password := NOTAMParser.or_string (JMS_PASSWORD env) "";
       queueName := strip_prefix destination |} in
  if String.eqb (username config) "" || String.eqb (password config) "" then
    inr (Error "Solace credentials not configured. Set JMS_USERNAME and JMS_PASSWORD environment variables.")
  else if String.eqb (queueName config) "" then
    inr (Error "JMS_DESTINATION not configured. Set the queue name from SCDS.")
  else inl config.

End SolaceConfig.

(** ** src/middleware/auth.ts *)

Module Auth.

(** A row of table [api_tokens]. *)
Record ApiToken : Type := {
  id : Z;
  token : string;
  name : string;
  is_active : bool;
  last_used_at : option Z
}.

(** The token table and what the pool has in store for the coming queries,
    as in [NOTAMModel.World]. *)
Record World : Type := {
  api_tokens : list ApiToken;
  faults : list (option JSError)
}.

(** [res.status(code).json({ error })] *)
Record Response : Type := {
  status : Z;
  error : string
}.

(** What the middleware did: the response it sent, if any; whether it called
    [next()]; the [req.token] it attached; the row id for which it started,
    without awaiting it, the update of [last_used_at]; and the world after
    its own query. *)
Record Outcome : Type := {
  response : option Response;
  next : bool;
  req_token : option (Z * string);
  touched : option Z;
  world : World
}.

Definition pool_query {T : Type} (stmt : list ApiToken -> T) (w : World)
    : (T + JSError) * World :=
  match faults w with
  | Some e :: rest => (inr e, {| api_tokens := api_tokens w; faults := rest |})
  | None :: rest => (inl (stmt (api_tokens w)),
                     {| api_tokens := api_tokens w; faults := rest |})
  | [] => (inl (stmt (api_tokens w)), {| api_tokens := api_tokens w; faults := [] |})
  end.

(** [SELECT id, name FROM api_tokens WHERE token = $1 AND is_active = TRUE] *)
Definition select_token (wanted : string) (rows : list ApiToken) : list ApiToken :=
  filter (fun r => String.eqb (token r) wanted && is_active r) rows.

Definition reject (code : Z) (message : string) (w : World) : Outcome :=
  {| response := Some {| status := code; error := message |};
     next := false;
     req_token := None;
     touched := None;
     world := w |}.

(** Bearer token authentication middleware; [authHeader] is
    [req.headers.authorization]. *)
Definition authenticateToken (env : NOTAMModel.Env) (authHeader : option string)
    (w : World) : Outcome :=
  match authHeader with
  | None => reject 401 "Missing authorization header" w
  | Some authHeader =>
      if String.eqb authHeader "" then reject 401 "Missing authorization header" w
      else
        let parts := NOTAMParser.split " " authHeader in
        if negb (Nat.eqb (List.length parts) 2)
           || negb (String.eqb (nth 0 parts "") "Bearer")
        then reject 401 "Invalid authorization header format. Use: Bearer <token>" w
        else
          let token := nth 1 parts "" in
          let run := Retry.withRetry (pool_query (select_token token))
                       (NOTAMModel.defaultRetryOptions env) w in
          match Retry.outcome run with
          | Some (inl []) => reject 401 "Invalid or inactive token" (Retry.world run)
          | Some (inl (row :: _)) =>
              {| response := None;
                 next := true;
                 req_token := Some (id row, name row);
                 touched := Some (id row);
                 world := Retry.world run |}
          | Some (inr _) | None => reject 500 "Internal server error" (Retry.world run)
          end
  end.

End Auth.

(** ** Concrete configurations and inputs used to exercise the model *)

Module Examples.

Import CircuitBreaker.

(** [new CircuitBreaker({ threshold: 3, timeout: 5000 })] *)
Definition breaker3 : CircuitBreakerOptions :=
  {| threshold := 3; timeout := 5000; isConnectionErrorOpt := isConnectionError |}.

Definition econnreset : JSError := Error "ECONNRESET".

Definition syntax_error : JSError := Error "syntax error".

(** Three connection failures at time 1000, and two. *)
Definition three_failures : list (Z * JSError) :=
  [(1000, econnreset); (1000, econnreset); (1000, econnreset)].

Definition two_failures : list (Z * JSError) :=
  [(1000, econnreset); (1000, econnreset)].


Definition opened : CircuitBreakerState := recordFailures breaker3 three_failures initial.

(** [{ maxRetries: 2, backoffBase: 1000, maxBackoff: 10000 }] *)
Definition retry2 : Retry.RetryOptions :=
  {| Retry.maxRetries := 2;
     Retry.backoffBase := 1000;
     Retry.maxBackoff := 10000;
     Retry.isRetriable := Retry.isRetriableDatabaseError |}.

(** Operations on a world that counts the invocations. *)
Definition always_succeeds (n : nat) : (string + JSError) * nat := (inl "success", S n).

Definition always_econnreset (n : nat) : (string + JSError) * nat := (inr econnreset, S n).

Definition always_syntax_error (n : nat) : (string + JSError) * nat :=
  (inr syntax_error, S n).

(** The operation of the unit test that fails twice with a connection error
    and then succeeds. *)
Definition fails_twice (n : nat) : (string + JSError) * nat :=
  if (n <? 2)%nat then (inr (Error "Connection terminated unexpectedly"), S n)
  else (inl "success", S n).

Definition retry_negative : Retry.RetryOptions :=
  {| Retry.maxRetries := -1;
     Retry.backoffBase := 1000;
     Retry.maxBackoff := 10000;
     Retry.isRetriable := Retry.isRetriableDatabaseError |}.

Import NOTAMModel.

Definition env3 : Env := {| DB_MAX_RETRIES := 3; DB_RETRY_BACKOFF_BASE := 1000 |}.

Definition kjfk (ident text : string) (p : option string) (e : option Z) : NOTAM :=
  {| notam_id := ident;
     icao_location := "KJFK";
     effective_start := 1736949600000;
     effective_end := e;
     schedule := None;
     notam_text := text;
     q_line := None;
     purpose := p;
     scope := Some "A";
     traffic_type := Some "I";
     raw_message := None |}.

Definition stored (i : Z) (n : NOTAM) : Row :=
  {| id := i; cols := n; created_at := 0; updated_at := 0 |}.

(** Two rankings a server may use among rows with equal keys: none of its
    own, which leaves them in the order of the table, and the one that
    returns the row inserted last first. *)
Definition table_order : NOTAMQueryFilters -> Row -> Z := fun _ _ => 0.

Definition newest_id_first : NOTAMQueryFilters -> Row -> Z := fun _ r => - id r.

Definition empty_world : World :=
  {| db := {| rows := []; next_id := 1 |}; faults := []; duplicatesTotal := 0;
     tiebreak := table_order |}.

(** A table of two rows with purposes N and B, and the filter
    [{ purpose: 'N' }]. *)
Definition two_purposes : World :=
  {| db := {| rows := [stored 1 (kjfk "A1/25" "RWY CLSD" (Some "N") None);
                       stored 2 (kjfk "A2/25" "TWY CLSD" (Some "B") None)];
              next_id := 3 |};
     faults := [];
     duplicatesTotal := 0; tiebreak := table_order |}.

Definition purpose_N : NOTAMQueryFilters :=
  {| f_location := None; f_start := None; f_end := None;
     f_purpose := Some "N"; f_scope := None;
     f_limit := None; f_offset := None |}.

Definition location_KJFK : NOTAMQueryFilters :=
  {| f_location := Some "KJFK"; f_start := None; f_end := None;
     f_purpose := None; f_scope := None;
     f_limit := None; f_offset := None |}.

(** A table with a row that ended long ago, one that ends later and one
    without an end. *)
Definition three_ends : World :=
  {| db := {| rows := [stored 1 (kjfk "A1/25" "OLD" None (Some 1000));
                       stored 2 (kjfk "A2/25" "RECENT" None (Some 9000000000));
                       stored 3 (kjfk "A3/25" "PERM" None None)];
              next_id := 4 |};
     faults := [];
     duplicatesTotal := 0; tiebreak := table_order |}.













Import NOTAMParser.

(** The trees of
    [<AIXMBasicMessage><hasMember><Event><timeSlice><EventTimeSlice>...]
    around an event time slice. *)
Definition around (eventTimeSlice : JSValue) : JSValue :=
  JObject [("AIXMBasicMessage",
    JObject [("hasMember",
      JObject [("Event",
        JObject [("timeSlice",
          JObject [("EventTimeSlice", eventTimeSlice)])])])])].

(** An event time slice with a location and no [textNOTAM]. *)
Definition slice_without_textNOTAM : JSValue := JObject [("location", JString "KJFK")].

Definition xml_without_textNOTAM : string :=
  "<AIXMBasicMessage><hasMember><Event><timeSlice><EventTimeSlice><location>KJFK</location></EventTimeSlice></timeSlice></Event></hasMember></AIXMBasicMessage>".

(** An event time slice whose NOTAM has neither location nor dates. *)
Definition slice_without_location : JSValue :=
  JObject [("textNOTAM",
    JObject [("NOTAM",
      JObject [("series", JString "A"); ("number", JNumber "4146");
               ("year", JNumber "2025"); ("text", JString "EXER WILL TAKE PLACE")])])].

Definition xml_without_location : string :=
  "<AIXMBasicMessage><hasMember><Event><timeSlice><EventTimeSlice><textNOTAM><NOTAM><series>A</series><number>4146</number><year>2025</year><text>EXER WILL TAKE PLACE</text></NOTAM></textNOTAM></EventTimeSlice></timeSlice></Event></hasMember></AIXMBasicMessage>".

(** An event time slice whose NOTAM has an element [toString] inside its
    location. *)
Definition slice_with_toString : JSValue :=
  JObject [("textNOTAM",
    JObject [("NOTAM",
      JObject [("series", JString "A"); ("number", JNumber "4146");
               ("year", JNumber "2025");
               ("location", JObject [("toString", JString "KJFK")])])])].

Definition xml_with_toString : string :=
  "<AIXMBasicMessage><hasMember><Event><timeSlice><EventTimeSlice><textNOTAM><NOTAM><series>A</series><number>4146</number><year>2025</year><location><toString>KJFK</toString></location></NOTAM></textNOTAM></EventTimeSlice></timeSlice></Event></hasMember></AIXMBasicMessage>".

(** An event time slice whose NOTAM has a location, a start in ISO 8601 and
    a number too large to print in full. *)
Definition slice_complete : JSValue :=
  JObject [("textNOTAM",
    JObject [("NOTAM",
      JObject [("series", JString "A");
               ("number", JNumber "1.2345678901234568e+22");
               ("year", JNumber "2025");
               ("location", JString "KJFK");
               ("effectiveStart", JString "2025-01-15T14:00:00Z")])])].

Definition xml_complete : string :=
  "<AIXMBasicMessage><hasMember><Event><timeSlice><EventTimeSlice><textNOTAM><NOTAM><series>A</series><number>12345678901234567890123</number><year>2025</year><location>KJFK</location><effectiveStart>2025-01-15T14:00:00Z</effectiveStart></NOTAM></textNOTAM></EventTimeSlice></timeSlice></Event></hasMember></AIXMBasicMessage>".

(** An engine whose [Date] constructor understands that one string. *)
Definition iso_Date_parse (s : string) : option Z :=
  if String.eqb s "2025-01-15T14:00:00Z" then Some 1736949600000 else None.

Definition nl : string := String "010"%char EmptyString.

(** The legacy text of the unit tests, and a text whose [A)] line is blank. *)
Definition text_kjfk : string :=
  "A2/1234" ++ nl ++ "A) KJFK" ++ nl ++ "B) 2501151400" ++ nl
  ++ "C) 2501202359" ++ nl ++ "E) RWY 04L/22R CLSD".

Definition text_blank_location : string :=
  "A1/25" ++ nl ++ "A)" ++ nl ++ "B) 2501151400".

(** A text with two identifier lines, two [A)] lines and a [C)] line in
    lower case. *)
Definition text_two_headers : string :=
  "A2/1234 NOTAMN" ++ nl ++ "B7/99" ++ nl ++ "A) KJFK" ++ nl ++ "A) KLAX" ++ nl
  ++ "B) 2501151400" ++ nl ++ "C) perm".

(** The tree of [<invalid>xml</invalid>], the invalid input of the unit tests. *)
Definition invalid_tree : JSValue := JObject [("invalid", JString "xml")].

(** An XML parser that answers [tree]. *)
Definition parses_to (tree : JSValue) (xmlString : string) : option JSValue := Some tree.

(** An engine whose [Date] constructor understands none of the strings. *)
Definition no_Date_parse (s : string) : option Z := None.

Import NOTAMIngestionService.

(** A message whose binary attachment is the incomplete legacy text of the
    unit tests. *)
Definition incomplete_message : Message :=
  {| getBinaryAttachment := inl (Some "E) RWY 04L/22R CLSD");
     getXmlContent := inl None;
     getSdtContainer := inl None;
     debugContext := inl tt;
     acknowledge := inl tt |}.

(** A message without any payload. *)
Definition empty_message : Message :=
  {| getBinaryAttachment := inl None;
     getXmlContent := inl None;
     getSdtContainer := inl None;
     debugContext := inl tt;
     acknowledge := inl tt |}.

Definition no_xml_parse (s : string) : option JSValue := None.

Definition clock2000 : Clock :=
  {| t_admission := 2000; t_parse := 2000; t_store := 2000; t_failure := 2000 |}.

(** A service whose breaker has seen two connection failures, and one whose
    breaker three failures have opened. *)
Definition two_down : Service :=
  {| circuitBreaker := recordFailures breaker3 two_failures initial;
     world := empty_world |}.


(** A message carrying the legacy text of the unit tests, and a service with
    two counted failures whose pool is about to fail four queries. *)
Definition kjfk_message : Message :=
  {| getBinaryAttachment := inl (Some text_kjfk);
     getXmlContent := inl None;
     getSdtContainer := inl None;
     debugContext := inl tt;
     acknowledge := inl tt |}.




Definition two_down_breaker : CircuitBreakerState :=
  recordFailures breaker3 two_failures initial.

(** An environment with credentials and a topic destination. *)
Definition jms_env : SolaceConfig.ProcessEnv :=
  {| SolaceConfig.JMS_HOST := Some "swim.faa.gov";
     SolaceConfig.JMS_PORT := None;
     SolaceConfig.JMS_DESTINATION := Some "/topic/faa.notam.all";
     SolaceConfig.JMS_VHOST := None;
     SolaceConfig.JMS_USERNAME := Some "user";
     SolaceConfig.JMS_PASSWORD := Some "secret" |}.

(** The token table after the migration, with an inactive token added. *)
Definition dev_tokens : Auth.World :=
  {| Auth.api_tokens :=
       [{| Auth.id := 1; Auth.token := "dev-token-12345";
           Auth.name := "Development Token"; Auth.is_active := true;
           Auth.last_used_at := None |};
        {| Auth.id := 2; Auth.token := "revoked"; Auth.name := "Old";
           Auth.is_active := false; Auth.last_used_at := None |}];
     Auth.faults := [] |}.

(** A table of three rows that start at three different times, and a table
    of two rows that start together behind a server that returns the row
    inserted last first when asked for both, and the other way round on a
    page of one. *)
Definition starting (start : Z) (n : NOTAM) : NOTAM :=
  {| notam_id := notam_id n;
     icao_location := icao_location n;
     effective_start := start;
     effective_end := effective_end n;
     schedule := schedule n;
     notam_text := notam_text n;
     q_line := q_line n;
     purpose := purpose n;
     scope := scope n;
     traffic_type := traffic_type n;
     raw_message := raw_message n |}.

Definition three_starts : World :=
  {| db := {| rows := [stored 1 (starting 1000 (kjfk "A1/25" "FIRST" None None));
                       stored 2 (starting 3000 (kjfk "A2/25" "THIRD" None None));
                       stored 3 (starting 2000 (kjfk "A3/25" "SECOND" None None))];
              next_id := 4 |};
     faults := [];
     duplicatesTotal := 0; tiebreak := newest_id_first |}.

Definition tied_rows : World :=
  {| db := {| rows := [stored 1 (kjfk "A1/25" "FIRST" None None);
                       stored 2 (kjfk "A2/25" "SECOND" None None)];
              next_id := 3 |};
     faults := [];
     duplicatesTotal := 0;
     tiebreak := fun filters r => if limit_of filters =? 1 then id r else - id r |}.

(** [three_ends] after thirty days of retention at time 10000000000. *)
Definition three_ends_pruned : World :=
  {| db := {| rows := [stored 2 (kjfk "A2/25" "RECENT" None (Some 9000000000));
                       stored 3 (kjfk "A3/25" "PERM" None None)];
              next_id := 4 |};
     faults := [];
     duplicatesTotal := 0; tiebreak := table_order |}.

End Examples.

(** * Properties *)

(** ** Circuit breaker *)

Section CircuitBreakerFacts.

Import CircuitBreaker.

Variable o : CircuitBreakerOptions.

Lemma recordFailure_qualifying (now : Z) (e : JSError) (s : CircuitBreakerState) :
  isConnectionErrorOpt o e = true ->
  recordFailure o now e s =
  {| failures := failures s + 1;
     lastFailure := Some now;
     isOpen := isOpen s || (threshold o <=? failures s + 1) |}.
Proof.
  intros He. unfold recordFailure. rewrite He. cbn.
  rewrite Z.geb_leb.
  destruct (threshold o <=? failures s + 1); cbn.
  - now rewrite orb_true_r.
  - now rewrite orb_false_r.
Qed.


Lemma recordFailures_failures (fs : list (Z * JSError)) :
  forall s, all_qualifying o fs = true ->
  failures (recordFailures o fs s) = failures s + Z.of_nat (List.length fs).
Proof.
  induction fs as [|f fs IH]; intros s Hq; cbn in *.
  - lia.
  - apply andb_prop in Hq as [Hf Hq].
    fold (recordFailures o fs (recordFailure o (fst f) (snd f) s)).
    rewrite IH by assumption.
    rewrite recordFailure_qualifying by assumption. cbn. lia.
Qed.

Lemma recordFailures_isOpen (fs : list (Z * JSError)) :
  forall s, all_qualifying o fs = true ->
  isOpen (recordFailures o fs s) =
  isOpen s || (negb (Nat.eqb (List.length fs) 0)
               && (threshold o <=? failures s + Z.of_nat (List.length fs))).
Proof.
  induction fs as [|f fs IH]; intros s Hq.
  - cbn. now rewrite orb_false_r.
  - cbn in Hq. apply andb_prop in Hq as [Hf Hq].
    change (recordFailures o (f :: fs) s)
      with (recordFailures o fs (recordFailure o (fst f) (snd f) s)).
    rewrite IH by assumption.
    rewrite recordFailure_qualifying by assumption.
    cbn [failures isOpen List.length Nat.eqb negb andb].
    destruct (isOpen s); cbn [orb]; [reflexivity|].
    destruct fs as [|g fs].
    + cbn. rewrite orb_false_r. reflexivity.
    + cbn [List.length Nat.eqb negb andb].
      destruct (threshold o <=? failures s + 1) eqn:E1; cbn [orb].
      * symmetry. apply Z.leb_le. apply Z.leb_le in E1. lia.
      * f_equal. lia.
Qed.






(** [execute] closes an open breaker only through the admission check it
    starts with, after the timeout. *)
Lemma execute_closes_after_timeout {T W : Type} (t_check t_fail : Z)
    (operation : W -> (T + JSError) * W) (s : CircuitBreakerState) (w : W) :
  isOpen s = true ->
  isOpen (snd (fst (execute o t_check t_fail operation s w))) = false ->
  timeSinceLastFailure t_check s > timeout o.
Proof.
  intros Ho. unfold execute, isRequestAllowed. rewrite Ho. cbn [negb].
  destruct (timeSinceLastFailure t_check s >? timeout o) eqn:Et.
  - intros _. rewrite Z.gtb_ltb in Et. apply Z.ltb_lt in Et. lia.
  - cbn. congruence.
Qed.

End CircuitBreakerFacts.

(** The classifiers on the errors of the unit tests. *)
Example isConnectionError_examples :
  CircuitBreaker.isConnectionError (Error "Connection terminated unexpectedly") = true /\
  CircuitBreaker.isConnectionError (Error "ETIMEDOUT") = true /\
  CircuitBreaker.isConnectionError (Error "Some business logic error") = false /\
  CircuitBreaker.isConnectionError ThrownNull = false /\
  CircuitBreaker.isConnectionError (ThrownString "error") = false.
Proof. repeat split; reflexivity. Qed.

Example isRetriableDatabaseError_examples :
  Retry.isRetriableDatabaseError (ThrownObject (Some "08006") (Some "connection_failure"))
    = true /\
  Retry.isRetriableDatabaseError (ThrownObject (Some "23505") (Some "unique_violation"))
    = false /\
  Retry.isRetriableDatabaseError (Error "syntax error at or near FROM") = false /\
  Retry.isRetriableDatabaseError ThrownUndefined = false.
Proof. repeat split; reflexivity. Qed.

Lemma reachable_recordFailures (o : CircuitBreaker.CircuitBreakerOptions)
    (fs : list (Z * JSError)) :
  forall s, CircuitBreaker.reachable o s ->
  CircuitBreaker.reachable o (CircuitBreaker.recordFailures o fs s).
Proof.
  induction fs as [|f fs IH]; intros s Hr; [exact Hr|].
  apply IH.
  exact (CircuitBreaker.reachable_call o s
           (CircuitBreaker.CallRecordFailure (fst f) (snd f)) Hr).
Defined.



(** ** Retry *)

Section RetryFacts.

Import Retry.

Context {T W : Type}.
Variable operation : W -> (T + JSError) * W.
Variable options : RetryOptions.

(** The loop never runs out of the fuel [withRetry] gives it. *)
Lemma retry_loop_total (fuel : nat) :
  forall attempt lastError w,
    (Z.to_nat (maxRetries options - attempt + 1) < fuel)%nat ->
    outcome (retry_loop operation options fuel attempt lastError w) <> None.
Proof.
  induction fuel as [|fuel IH]; intros attempt lastError w Hfuel; [lia|].
  cbn [retry_loop].
  destruct (attempt <=? maxRetries options) eqn:Ele; [|discriminate].
  apply Z.leb_le in Ele.
  destruct (operation w) as [[v|e] w']; [discriminate|].
  destruct (negb (isRetriable options e) || (attempt =? maxRetries options));
    [discriminate|].
  cbn [outcome]. apply IH. lia.
Qed.

Lemma withRetry_total (w : W) :
  outcome (withRetry operation options w) <> None.
Proof.
  unfold withRetry. apply retry_loop_total. lia.
Qed.

Lemma backoffs_S (attempt : Z) (k : nat) :
  backoffs options attempt (S k) =
  calculateBackoff attempt (backoffBase options) (maxBackoff options)
  :: backoffs options (attempt + 1) k.
Proof.
  unfold backoffs, calculateBackoff. cbn [seq map].
  rewrite Z.add_0_r. f_equal.
  rewrite <- seq_shift, map_map.
  apply map_ext. intros i. do 3 f_equal. lia.
Qed.

Lemma retry_loop_all_fail :
  (forall w0, exists e w1,
      operation w0 = (inr e, w1) /\ isRetriable options e = true) ->
  forall k fuel attempt lastError w,
    attempt <= maxRetries options ->
    k = Z.to_nat (maxRetries options - attempt) ->
    (k < fuel)%nat ->
    let r := retry_loop operation options fuel attempt lastError w in
    List.length (invocations r) = S k /\
    sleeps r = backoffs options attempt k /\
    exists pre e, invocations r = (pre ++ [inr e])%list /\ outcome r = Some (inr e).
Proof.
  intros Hfail k.
  induction k as [|k IH]; intros fuel attempt lastError w Hle Hk Hfuel;
    (destruct fuel as [|fuel]; [lia|]); cbn zeta; cbn [retry_loop];
    (replace (attempt <=? maxRetries options) with true
      by (symmetry; apply Z.leb_le; lia));
    destruct (Hfail w) as (e & w1 & Hop & Hret); rewrite Hop, Hret;
    cbn [negb orb].
  - replace (attempt =? maxRetries options) with true
      by (symmetry; apply Z.eqb_eq; lia).
    cbn. split; [reflexivity|]. split; [reflexivity|].
    exists [], e. now split.
  - replace (attempt =? maxRetries options) with false
      by (symmetry; apply Z.eqb_neq; lia).
    destruct (IH fuel (attempt + 1) e w1) as (Hlen & Hsl & pre & e' & Hinv & Hout);
      [lia|lia|lia|].
    cbn [invocations sleeps outcome List.length].
    split; [now rewrite Hlen|].
    split; [now rewrite Hsl, backoffs_S|].
    exists (inr e :: pre), e'. rewrite Hinv. now split.
Qed.

(** C6. With [maxRetries] not negative: a first attempt that succeeds is the
    only invocation and nothing sleeps; a first attempt that fails with an
    error that is not retriable is the only invocation and the error is
    thrown as it is; and when every attempt fails with a retriable error the
    operation is invoked [maxRetries + 1] times, the sleep after attempt [i]
    lasts [min (base * 2^i) cap], and the error thrown is the one the last
    invocation raised. *)
Theorem C6_withRetry_attempts (Hmax : 0 <= maxRetries options) (w : W) :
  (forall v w', operation w = (inl v, w') ->
     withRetry operation options w =
     {| outcome := Some (inl v); invocations := [inl v];
        sleeps := []; world := w' |}) /\
  (forall e w', operation w = (inr e, w') -> isRetriable options e = false ->
     withRetry operation options w =
     {| outcome := Some (inr e); invocations := [inr e];
        sleeps := []; world := w' |}) /\
  ((forall w0, exists e w1,
       operation w0 = (inr e, w1) /\ isRetriable options e = true) ->
   Z.of_nat (List.length (invocations (withRetry operation options w)))
     = maxRetries options + 1 /\
   sleeps (withRetry operation options w) =
     map (fun i => Z.min (backoffBase options * 2 ^ Z.of_nat i) (maxBackoff options))
         (seq 0 (Z.to_nat (maxRetries options))) /\
   exists pre e,
     invocations (withRetry operation options w) = (pre ++ [inr e])%list /\
     outcome (withRetry operation options w) = Some (inr e)).
Proof.
  assert (Hle : (0 <=? maxRetries options) = true) by (apply Z.leb_le; lia).
  split; [|split].
  - intros v w' Hop. unfold withRetry. cbn [retry_loop]. now rewrite Hle, Hop.
  - intros e w' Hop Hret. unfold withRetry. cbn [retry_loop].
    now rewrite Hle, Hop, Hret.
  - intros Hfail.
    destruct (retry_loop_all_fail Hfail (Z.to_nat (maxRetries options))
                (S (Z.to_nat (maxRetries options + 1))) 0 ThrownUndefined w)
      as (Hlen & Hsl & Hlast); [lia|f_equal; lia|lia|].
    fold (withRetry operation options w) in Hlen, Hsl, Hlast.
    split; [rewrite Hlen; lia|]. split; [|exact Hlast].
    rewrite Hsl. unfold backoffs. apply map_ext. intros i. now rewrite Z.add_0_l.
Qed.

End RetryFacts.

Lemma C6_withRetry_attempts_witness :
  0 <= Retry.maxRetries Examples.retry2 /\
  Retry.withRetry Examples.always_succeeds Examples.retry2 O =
    {| Retry.outcome := Some (inl "success"); Retry.invocations := [inl "success"];
       Retry.sleeps := []; Retry.world := 1%nat |} /\
  Retry.withRetry Examples.always_syntax_error Examples.retry2 O =
    {| Retry.outcome := Some (inr Examples.syntax_error);
       Retry.invocations := [inr Examples.syntax_error];
       Retry.sleeps := []; Retry.world := 1%nat |} /\
  Z.of_nat (List.length
    (Retry.invocations (Retry.withRetry Examples.always_econnreset Examples.retry2 O)))
    = 3 /\
  Retry.sleeps (Retry.withRetry Examples.always_econnreset Examples.retry2 O)
    = [1000; 2000].
Proof.
  assert (H : 0 <= Retry.maxRetries Examples.retry2) by (cbn; lia).
  split; [exact H|].
  split.
  { apply (proj1 (C6_withRetry_attempts Examples.always_succeeds Examples.retry2 H O)).
    reflexivity. }
  split.
  { apply (proj1 (proj2
      (C6_withRetry_attempts Examples.always_syntax_error Examples.retry2 H O)));
      reflexivity. }
  destruct (proj2 (proj2
      (C6_withRetry_attempts Examples.always_econnreset Examples.retry2 H O)))
    as (Hlen & Hsl & _).
  { intros n. exists Examples.econnreset, (S n). split; reflexivity. }
  split; [exact Hlen|exact Hsl].
Defined.

(** ** Record store *)

Section NOTAMModelFacts.

Import NOTAMModel.

Lemma pool_query_no_fault {T : Type} (stmt : DB -> (T + JSError) * DB) (w : World) :
  next_fault w = None ->
  pool_query stmt w =
  (fst (stmt (db w)), set_db w (snd (stmt (db w))) (tl (faults w))).
Proof.
  unfold next_fault, pool_query. intros H.
  destruct (faults w) as [|[e|] rest]; [|discriminate|];
    now destruct (stmt (db w)).
Qed.

Lemma pool_query_db {T : Type} (stmt : DB -> (T + JSError) * DB) (w : World) :
  (forall d e d', stmt d = (inr e, d') -> d' = d) ->
  forall res w', pool_query stmt w = (res, w') ->
    match res with
    | inl v => stmt (db w) = (inl v, db w')
    | inr _ => db w' = db w
    end.
Proof.
  intros Hstmt res w'. unfold pool_query.
  destruct (faults w) as [|[e|] rest].
  - destruct (stmt (db w)) as [r d] eqn:E. intros [= <- <-]. cbn.
    destruct r; [reflexivity|]. now apply Hstmt in E.
  - intros [= <- <-]. reflexivity.
  - destruct (stmt (db w)) as [r d] eqn:E. intros [= <- <-]. cbn.
    destruct r; [reflexivity|]. now apply Hstmt in E.
Qed.

(** A run of [withRetry] over one statement returns what the statement
    returns on the database the run started from: failed attempts leave the
    database as it was. *)
Lemma retry_pool_query_returns {T : Type} (stmt : DB -> (T + JSError) * DB)
    (options : Retry.RetryOptions) :
  (forall d e d', stmt d = (inr e, d') -> d' = d) ->
  forall fuel attempt lastError w v,
    Retry.outcome (Retry.retry_loop (pool_query stmt) options fuel attempt lastError w)
      = Some (inl v) ->
    stmt (db w) =
      (inl v, db (Retry.world
                    (Retry.retry_loop (pool_query stmt) options fuel attempt lastError w))).
Proof.
  intros Hstmt fuel.
  induction fuel as [|fuel IH]; intros attempt lastError w v; cbn [Retry.retry_loop].
  - discriminate.
  - destruct (attempt <=? Retry.maxRetries options); [|discriminate].
    destruct (pool_query stmt w) as [[v'|e] w'] eqn:Epq.
    + cbn. intros [= <-]. exact (pool_query_db stmt w Hstmt _ _ Epq).
    + pose proof (pool_query_db stmt w Hstmt _ _ Epq) as Hdb. cbn in Hdb.
      destruct (negb (Retry.isRetriable options e)
                || (attempt =? Retry.maxRetries options)); [discriminate|].
      cbn [Retry.outcome Retry.world]. intros Hout.
      rewrite <- Hdb. now apply IH.
Qed.

Lemma sql_upsert_no_error (now : Z) (n : NOTAM) (d : DB) (e : JSError) (d' : DB) :
  sql_upsert now n d = (inr e, d') -> d' = d.
Proof.
  unfold sql_upsert. destruct (find (same_notam_id n) (rows d)); discriminate.
Qed.

Lemma create_returns_upsert (env : Env) (now : Z) (n : NOTAM) (w w' : World) (r : Row) :
  create env now n w = (inl r, w') ->
  exists inserted, sql_upsert now n (db w) = (inl (r, inserted), db w').
Proof.
  unfold create, Retry.withRetry.
  set (run := Retry.retry_loop _ _ _ _ _ _).
  destruct (Retry.outcome run) as [[[row inserted]|e]|] eqn:Eout; try discriminate.
  intros [= <- <-]. exists inserted.
  pose proof (retry_pool_query_returns (sql_upsert now n) (defaultRetryOptions env)
                (sql_upsert_no_error now n) _ _ _ _ _ Eout) as H.
  fold run in H. rewrite H. now destruct inserted.
Qed.

(** Without a fault of the pool, [create] returns on its first attempt. *)
Lemma create_returns (env : Env) (now : Z) (n : NOTAM) (w : World) :
  0 <= DB_MAX_RETRIES env -> next_fault w = None ->
  exists r w', create env now n w = (inl r, w').
Proof.
  intros Hmax Hnf. unfold create, Retry.withRetry. cbn [Retry.retry_loop].
  change (Retry.maxRetries (defaultRetryOptions env)) with (DB_MAX_RETRIES env).
  replace (0 <=? DB_MAX_RETRIES env) with true by (symmetry; now apply Z.leb_le).
  rewrite pool_query_no_fault by assumption.
  unfold sql_upsert. destruct (find (same_notam_id n) (rows (db w))); cbn; eauto.
Qed.

Lemma do_update_same (now : Z) (n : NOTAM) (r : Row) :
  same_notam_id n (do_update now n r) = same_notam_id n r.
Proof. reflexivity. Qed.

Lemma do_update_cols (now : Z) (n : NOTAM) (r : Row) :
  same_notam_id n r = true -> cols (do_update now n r) = n.
Proof.
  unfold same_notam_id. intros H. apply String.eqb_eq in H.
  destruct n; cbn in *. now rewrite H.
Qed.

Lemma find_update (now : Z) (n : NOTAM) (l : list Row) :
  find (same_notam_id n)
       (map (fun r => if same_notam_id n r then do_update now n r else r) l)
  = option_map (do_update now n) (find (same_notam_id n) l).
Proof.
  induction l as [|a l IH]; [reflexivity|]. cbn [map find].
  destruct (same_notam_id n a) eqn:E.
  - now rewrite do_update_same, E.
  - now rewrite E.
Qed.

Lemma keys_update (now : Z) (n : NOTAM) (l : list Row) :
  map (fun r => notam_id (cols r))
      (map (fun r => if same_notam_id n r then do_update now n r else r) l)
  = map (fun r => notam_id (cols r)) l.
Proof.
  rewrite map_map. apply map_ext. intros r.
  now destruct (same_notam_id n r).
Qed.


(** What one execution of the upsert statement leaves: the row it returns
    is the one row under that identifier, holds the proposed values, and
    keeps the key of the row it replaced, if there was one. *)
Lemma sql_upsert_spec (now : Z) (n : NOTAM) (d : DB) :
  unique_notam_ids d ->
  exists r inserted d',
    sql_upsert now n d = (inl (r, inserted), d') /\
    unique_notam_ids d' /\
    find (same_notam_id n) (rows d') = Some r /\
    cols r = n /\
    (forall old, find (same_notam_id n) (rows d) = Some old ->
       id r = id old /\ inserted = false).
Proof.
  unfold unique_notam_ids, sql_upsert. intros Hu.
  destruct (find (same_notam_id n) (rows d)) as [old|] eqn:Ef.
  - eexists _, _, _. split; [reflexivity|]. cbn [rows].
    split; [now rewrite keys_update|].
    split; [now rewrite find_update, Ef|].
    split; [apply do_update_cols; now apply find_some in Ef|].
    intros old' [= <-]. now split.
  - eexists _, _, _. split; [reflexivity|]. cbn [rows].
    assert (Hnone : forall x, In x (rows d) -> same_notam_id n x = false)
      by (now apply find_none).
    split; [|split; [|split; [reflexivity|discriminate]]].
    + rewrite map_app. cbn [map cols].
      apply NoDup_app; [exact Hu|repeat constructor; now intros []|].
      intros k Hin [<-|[]].
      apply in_map_iff in Hin as (x & Hk & Hin).
      specialize (Hnone x Hin). unfold same_notam_id in Hnone.
      apply String.eqb_neq in Hnone. now apply Hnone.
    + induction (rows d) as [|a l IH]; cbn [app find].
      * unfold same_notam_id. cbn. now rewrite String.eqb_refl.
      * rewrite (Hnone a) by now left. apply IH.
        -- cbn in Hu. now apply NoDup_cons_iff in Hu.
        -- cbn in Ef. now rewrite (Hnone a) in Ef by now left.
        -- intros x Hx. apply Hnone. now right.
Qed.


(** C8. A [deleteExpired] that the pool lets through keeps exactly the rows
    whose [effective_end] is NULL or not before [now] minus
    [olderThanDays] days, in their order, and so keeps every row without an
    end; the number it returns is the number of rows that are gone. *)
Theorem C8_deleteExpired (now olderThanDays : Z) (w : World) :
  next_fault w = None ->
  exists n w',
    deleteExpired now olderThanDays w = (inl n, w') /\
    (forall r, In r (rows (db w')) <->
       In r (rows (db w)) /\
       ~ (exists e, effective_end (cols r) = Some e /\
                    e < now - 86400000 * olderThanDays)) /\
    (forall r, In r (rows (db w)) -> effective_end (cols r) = None ->
       In r (rows (db w'))) /\
    n = Z.of_nat (List.length (rows (db w))) - Z.of_nat (List.length (rows (db w'))).
Proof.
  intros Hnf. unfold deleteExpired.
  rewrite pool_query_no_fault by assumption. cbn [sql_delete_expired fst snd].
  eexists _, _. split; [reflexivity|]. cbn [set_db db rows].
  assert (Hexp : forall r, expired now olderThanDays r = true <->
            exists e, effective_end (cols r) = Some e /\
                      e < now - 86400000 * olderThanDays).
  { intros r. unfold expired, day_ms.
    destruct (effective_end (cols r)) as [e|].
    - rewrite Z.ltb_lt. split; [intros H; now exists e|now intros (e' & [= <-] & H)].
    - split; [discriminate|now intros (e' & [=] & _)]. }
  split; [|split].
  - intros r. rewrite filter_In, <- Hexp, negb_true_iff.
    now destruct (expired now olderThanDays r).
  - intros r Hin Hnone. apply filter_In. split; [exact Hin|].
    unfold expired. now rewrite Hnone.
  - pose proof (filter_length (expired now olderThanDays) (rows (db w))) as Hlen.
    unfold or_zero.
    destruct (Z.of_nat (List.length (filter (expired now olderThanDays) (rows (db w)))) =? 0)
      eqn:E0; [apply Z.eqb_eq in E0|]; lia.
Qed.

End NOTAMModelFacts.


Lemma C8_deleteExpired_witness :
  NOTAMModel.next_fault Examples.three_ends = None /\
  exists n w',
    NOTAMModel.deleteExpired 10000000000 30 Examples.three_ends = (inl n, w') /\
    (forall r, In r (NOTAMModel.rows (NOTAMModel.db w')) <->
       In r (NOTAMModel.rows (NOTAMModel.db Examples.three_ends)) /\
       ~ (exists e, NOTAMModel.effective_end (NOTAMModel.cols r) = Some e /\
                    e < 10000000000 - 86400000 * 30)) /\
    (forall r, In r (NOTAMModel.rows (NOTAMModel.db Examples.three_ends)) ->
       NOTAMModel.effective_end (NOTAMModel.cols r) = None ->
       In r (NOTAMModel.rows (NOTAMModel.db w'))) /\
    n = Z.of_nat (List.length (NOTAMModel.rows (NOTAMModel.db Examples.three_ends)))
        - Z.of_nat (List.length (NOTAMModel.rows (NOTAMModel.db w'))).
Proof.
  split; [reflexivity|].
  exact (C8_deleteExpired 10000000000 30 Examples.three_ends eq_refl).
Defined.

(** On the table of [Examples.three_ends], thirty days of retention at time
    10000000000 remove the one row that ended before the cutoff. *)
Example deleteExpired_three_ends :
  NOTAMModel.deleteExpired 10000000000 30 Examples.three_ends =
  (inl 1,
   {| NOTAMModel.db :=
        {| NOTAMModel.rows :=
             [Examples.stored 2 (Examples.kjfk "A2/25" "RECENT" None (Some 9000000000));
              Examples.stored 3 (Examples.kjfk "A3/25" "PERM" None None)];
           NOTAMModel.next_id := 4 |};
      NOTAMModel.faults := [];
      NOTAMModel.duplicatesTotal := 0;
      NOTAMModel.tiebreak := Examples.table_order |}).
Proof. reflexivity. Qed.

(** When neither a purpose nor a scope filter is set, [count] counts the rows
    the query selects. *)
Lemma count_agrees_without_purpose_scope (filters : NOTAMModel.NOTAMQueryFilters)
    (w : NOTAMModel.World) :
  NOTAMModel.truthy_string (NOTAMModel.f_purpose filters) = false ->
  NOTAMModel.truthy_string (NOTAMModel.f_scope filters) = false ->
  NOTAMModel.next_fault w = None ->
  fst (NOTAMModel.count (Some filters) w) =
  inl (Z.of_nat (List.length
         (NOTAMModel.selected_by_query filters (NOTAMModel.db w)))).
Proof.
  intros Hp Hs Hnf. unfold NOTAMModel.count.
  rewrite pool_query_no_fault by assumption. cbn [fst NOTAMModel.sql_count].
  unfold NOTAMModel.selected_by_query, NOTAMModel.query_conditions,
    NOTAMModel.count_conditions.
  rewrite Hp, Hs. now rewrite !app_nil_r.
Qed.

(** C1. On a table of two rows with purposes N and B, [count] under the
    filter [{ purpose: 'N' }] answers 2, while the [WHERE] clause of
    [findByFilters] under the same filter selects one row: [count] builds no
    condition for [purpose] (nor for [scope]). *)
Theorem C1_count_ignores_purpose :
  fst (NOTAMModel.count (Some Examples.purpose_N) Examples.two_purposes) = inl 2 /\
  List.length (NOTAMModel.selected_by_query Examples.purpose_N
                 (NOTAMModel.db Examples.two_purposes)) = 1%nat /\
  fst (NOTAMModel.findByFilters Examples.purpose_N Examples.two_purposes) =
    inl [Examples.stored 1 (Examples.kjfk "A1/25" "RWY CLSD" (Some "N") None)].
Proof. repeat split; reflexivity. Qed.

(** ** Parser: the structured path *)

Section ParserFacts.

Import NOTAMModel NOTAMParser.

Variable xml_parse : string -> option JSValue.
Variable Date_parse : string -> option Z.

Lemma first_truthy_absent (v : JSValue) (keys : list string) :
  absent v keys -> first_truthy v keys = JUndefined.
Proof.
  unfold absent. induction keys as [|k rest IH]; intros Ha; [reflexivity|].
  cbn [first_truthy]. rewrite (Ha k) by now left.
  destruct rest as [|k' rest]; [reflexivity|].
  unfold js_or. cbn [truthy]. apply IH. intros k0 Hin. apply Ha. now right.
Qed.

Lemma section_absent (v : JSValue) (keys : list string) :
  absent v keys -> section v keys = None.
Proof.
  intros Ha. unfold section. now rewrite first_truthy_absent.
Qed.

Lemma section_truthy (v s : JSValue) (keys : list string) :
  section v keys = Some s -> truthy s = true.
Proof.
  unfold section. destruct (truthy (first_truthy v keys)) eqn:E; [|discriminate].
  now intros [= <-].
Qed.

Lemma descend_app (a b : list (list string)) :
  forall v, descend v (a ++ b) =
            match descend v a with
            | Some v' => descend v' b
            | None => None
            end.
Proof.
  induction a as [|keys a IH]; intros v; [reflexivity|].
  cbn [app descend]. destruct (section v keys); [apply IH|reflexivity].
Qed.

Lemma navigate_descend (parsed : JSValue) :
  navigate parsed = if nullish parsed then None else descend parsed chain.
Proof.
  unfold navigate, chain. cbn [descend].
  destruct (nullish parsed); [reflexivity|].
  destruct (section parsed message_keys) as [message|]; [|reflexivity].
  destruct (section message member_keys) as [member|]; [|reflexivity].
  destruct (section member event_keys) as [event|]; [|reflexivity].
  destruct (section event timeSlice_keys) as [timeSlice|]; [|reflexivity].
  now destruct (section timeSlice eventTimeSlice_keys).
Qed.

(** C3 (amended). Whenever one of the five sections message, member, event,
    time slice, event time slice is absent under all of its candidate keys in
    the section above it, [parseAIXMMessage] returns null. *)
Theorem C3_missing_section_null (now : Z) (xmlString : string) (parsed v : JSValue)
    (before after : list (list string)) (keys : list string) :
  xml_parse xmlString = Some parsed ->
  chain = (before ++ keys :: after)%list ->
  descend parsed before = Some v ->
  absent v keys ->
  parseAIXMMessage xml_parse Date_parse now xmlString = None.
Proof.
  intros Hparse Hchain Hbefore Habsent.
  unfold parseAIXMMessage. rewrite Hparse, navigate_descend.
  destruct (nullish parsed); [reflexivity|].
  rewrite Hchain, descend_app, Hbefore. cbn [descend].
  now rewrite section_absent.
Qed.

Lemma field_value_absent (data : JSValue) (fieldName : string) :
  includes fieldName "." = false ->
  absent data (candidates fieldName) ->
  field_value data fieldName = JUndefined.
Proof.
  unfold field_value, candidates, absent. intros Hdot Ha. rewrite Hdot.
  destruct (includes fieldName ":").
  - apply Ha. now left.
  - rewrite !Ha by (cbn; auto). reflexivity.
Qed.

Lemma extractField_absent (data : JSValue) (fieldNames : list string) :
  forallb (fun name => negb (includes name ".")) fieldNames = true ->
  absent data (flat_map candidates fieldNames) ->
  extractField data fieldNames = inl None.
Proof.
  induction fieldNames as [|name rest IH]; intros Hdot Ha; [reflexivity|].
  cbn [forallb] in Hdot. apply andb_prop in Hdot as [Hname Hrest].
  apply negb_true_iff in Hname.
  cbn [extractField flat_map] in *.
  rewrite field_value_absent; [cbn [nullish negb]; apply IH; [exact Hrest|]| exact Hname |].
  - intros k Hk. apply Ha, in_or_app. now right.
  - intros k Hk. apply Ha, in_or_app. now left.
Qed.

(** A run of calls returns only if each call returned. *)
Lemma bind_inl {A B : Type} (m : A + JSError) (k : A -> B + JSError) (b : B) :
  JS.bind m k = inl b -> exists a, m = inl a /\ k a = inl b.
Proof.
  destruct m as [a|e]; cbn; [|discriminate]. intros H. now exists a.
Qed.

(** What a record that [extractNOTAMFromData] returns is made of. *)
Lemma extractNOTAMFromData_inversion (now : Z) (data eventTimeSlice : JSValue)
    (rawXml : string) (notam : NOTAM) :
  extractNOTAMFromData Date_parse now data eventTimeSlice rawXml = inl notam ->
  exists series number year window location text qLine purpose' scope' traffic,
    extractField data series_names = inl series /\
    extractField data number_names = inl number /\
    extractField data year_names = inl year /\
    effective_window Date_parse data eventTimeSlice = inl window /\
    extractField data location_names = inl location /\
    extractField data text_names = inl text /\
    extractQLine data = inl qLine /\
    extractField data purpose_names = inl purpose' /\
    extractField data scope_names = inl scope' /\
    extractField data traffic_names = inl traffic /\
    notam =
      {| notam_id :=
           if negb (String.eqb (or_string series "") "")
              && negb (String.eqb (or_string number "") "")
              && negb (String.eqb (or_string year "") "")
           then or_string series "" ++ or_string number "" ++ "/" ++ or_string year ""
           else "UNKNOWN";
         icao_location := or_string location "ZZZZ";
         effective_start := match fst window with Some d => d | None => now end;
         effective_end := snd window;
         schedule := None;
         notam_text := or_string text "";
         q_line := qLine;
         purpose := or_null purpose';
         scope := or_null scope';
         traffic_type := or_null traffic;
         raw_message := Some rawXml |}.
Proof.
  unfold extractNOTAMFromData. intros H.
  apply bind_inl in H as (series & Hseries & H).
  apply bind_inl in H as (number & Hnumber & H).
  apply bind_inl in H as (year & Hyear & H).
  cbv zeta in H.
  apply bind_inl in H as (window & Hwindow & H).
  apply bind_inl in H as (location & Hlocation & H).
  apply bind_inl in H as (text & Htext & H).
  apply bind_inl in H as (qLine & HqLine & H).
  apply bind_inl in H as (purpose' & Hpurpose & H).
  apply bind_inl in H as (scope' & Hscope & H).
  apply bind_inl in H as (traffic & Htraffic & H).
  injection H as <-.
  exists series, number, year, window, location, text, qLine, purpose', scope', traffic.
  repeat (split; [assumption|]). reflexivity.
Qed.

Lemma parseAIXMMessage_inversion (now : Z) (xmlString : string) (notam : NOTAM) :
  parseAIXMMessage xml_parse Date_parse now xmlString = Some notam ->
  exists parsed eventTimeSlice,
    xml_parse xmlString = Some parsed /\
    navigate parsed = Some eventTimeSlice /\
    extractNOTAMFromData Date_parse now (notamData_of eventTimeSlice)
      eventTimeSlice xmlString = inl notam.
Proof.
  unfold parseAIXMMessage.
  destruct (xml_parse xmlString) as [parsed|]; [|discriminate].
  destruct (navigate parsed) as [ets|] eqn:Enav; [|discriminate].
  destruct (extractNOTAMFromData Date_parse now (notamData_of ets) ets xmlString)
    as [n|e] eqn:Ex; [|discriminate].
  intros [= <-]. now exists parsed, ets.
Qed.

Lemma fallback_date_current (pos : JSValue) (d : Z) :
  fallback_date Date_parse pos (Some d) = inl (Some d).
Proof. reflexivity. Qed.

(** The start of the effective window is the direct field when it parses,
    else what [gml:validTime] offers. *)
Lemma effective_start_lookup_order (data eventTimeSlice : JSValue)
    (window : option Z * option Z) :
  effective_window Date_parse data eventTimeSlice = inl window ->
  exists startText,
    extractField data effectiveStart_names = inl startText /\
    match parseDate Date_parse startText with
    | Some d => fst window = Some d
    | None => begin_fallback Date_parse eventTimeSlice = inl (fst window)
    end.
Proof.
  unfold effective_window. intros H.
  apply bind_inl in H as (startText & Hstart & H).
  apply bind_inl in H as (endText & Hend & H).
  exists startText. split; [exact Hstart|].
  cbv zeta in H. unfold validTime_fallback, begin_fallback in *.
  destruct (parseDate Date_parse startText) as [d|];
    destruct (parseDate Date_parse endText) as [d'|];
    try (injection H as <-; reflexivity);
    repeat match type of H with
           | context [if ?b then _ else _] => destruct b
           end;
    try (injection H as <-; reflexivity).
  - rewrite fallback_date_current in H. cbn [JS.bind] in H.
    apply bind_inl in H as (e' & _ & H). now injection H as <-.
  - apply bind_inl in H as (s' & Hs' & H).
    apply bind_inl in H as (e' & _ & H). injection H as <-. exact Hs'.
  - apply bind_inl in H as (s' & Hs' & H).
    apply bind_inl in H as (e' & _ & H). injection H as <-. exact Hs'.
Qed.

Lemma begin_fallback_absent (eventTimeSlice : JSValue) :
  absent eventTimeSlice ["gml:validTime"; "validTime"] ->
  begin_fallback Date_parse eventTimeSlice = inl None.
Proof.
  intros Hvt. unfold begin_fallback.
  now rewrite (first_truthy_absent _ _ Hvt).
Qed.

(** *** Trees without a property [toString] convert without an exception *)

Lemma plain_lookup (key : string) (fields : list (string * JSValue)) :
  plain (JObject fields) = true -> plain (lookup key fields) = true.
Proof.
  cbn [plain]. intros H. apply andb_prop in H as [_ H].
  induction fields as [|[k v] rest IH]; [reflexivity|].
  apply andb_prop in H as [Hv Hrest]. cbn [lookup].
  destruct (String.eqb k key); [exact Hv|exact (IH Hrest)].
Qed.

Lemma plain_prop (v : JSValue) (key : string) :
  plain v = true -> plain (prop v key) = true.
Proof.
  destruct v; try reflexivity. apply plain_lookup.
Qed.

Lemma plain_js_or (a b : JSValue) :
  plain a = true -> plain b = true -> plain (js_or a b) = true.
Proof.
  intros Ha Hb. unfold js_or. now destruct (truthy a).
Qed.

Lemma plain_first_truthy (v : JSValue) (keys : list string) :
  plain v = true -> plain (first_truthy v keys) = true.
Proof.
  intros Hv. induction keys as [|k rest IH]; [reflexivity|].
  cbn [first_truthy]. destruct rest as [|k' rest]; [now apply plain_prop|].
  apply plain_js_or; [now apply plain_prop|exact IH].
Qed.

Lemma plain_walk (parts : list string) :
  forall v, plain v = true -> plain (walk v parts) = true.
Proof.
  induction parts as [|part rest IH]; intros v Hv; [exact Hv|].
  cbn [walk]. destruct (truthy v && typeof_object v); [|reflexivity].
  apply IH. now apply plain_prop.
Qed.

Lemma plain_field_value (data : JSValue) (fieldName : string) :
  plain data = true -> plain (field_value data fieldName) = true.
Proof.
  intros Hd. unfold field_value.
  destruct (includes fieldName "."); [now apply plain_walk|].
  destruct (includes fieldName ":"); [now apply plain_prop|].
  repeat apply plain_js_or; now apply plain_prop.
Qed.

Lemma plain_notamData_of (eventTimeSlice : JSValue) :
  plain eventTimeSlice = true -> plain (notamData_of eventTimeSlice) = true.
Proof.
  intros He. unfold notamData_of.
  apply plain_js_or; [|apply plain_js_or; [now apply plain_first_truthy|exact He]].
  destruct (nullish (first_truthy eventTimeSlice textNOTAM_keys)); [reflexivity|].
  now apply plain_first_truthy, plain_first_truthy.
Qed.

Lemma js_String_plain (v : JSValue) :
  plain v = true -> exists s, js_String v = inl s.
Proof.
  induction v as [ | | [|] | text | s | fields _ | items IH] using JSValue_ind;
    intros Hp; try (eexists; reflexivity).
  - cbn [plain] in Hp. apply andb_prop in Hp as [Hn _].
    apply negb_true_iff in Hn. cbn [js_String]. rewrite Hn. now eexists.
  - cbn [js_String plain] in *.
    induction IH as [|x items Hx _ IHitems]; [now eexists|].
    apply andb_prop in Hp as [Hpx Hitems].
    destruct (IHitems Hitems) as [rest Hrest].
    assert (Hsx : exists sx, match x with
                             | JUndefined | JNull => inl ""
                             | _ => js_String x
                             end = inl sx).
    { destruct (Hx Hpx) as [sx Hsx]. destruct x; eauto. }
    destruct Hsx as [sx Hsx]. rewrite Hsx.
    destruct items as [|y items]; [now eexists|].
    rewrite Hrest. now eexists.
Qed.

Lemma extractField_plain (data : JSValue) (fieldNames : list string) :
  plain data = true -> exists o, extractField data fieldNames = inl o.
Proof.
  intros Hd. induction fieldNames as [|name rest IH]; [now eexists|].
  cbn [extractField]. cbv zeta.
  destruct (nullish (field_value data name)); cbn [negb]; [exact IH|].
  destruct (js_String_plain _ (plain_field_value data name Hd)) as [s ->].
  now eexists.
Qed.

Lemma fallback_date_plain (pos : JSValue) (current : option Z) :
  plain pos = true -> exists o, fallback_date Date_parse pos current = inl o.
Proof.
  intros Hp. unfold fallback_date. destruct current; [now eexists|].
  destruct (truthy pos); [|now eexists].
  destruct (js_String_plain _ Hp) as [s ->]. now eexists.
Qed.

Lemma effective_window_plain (data eventTimeSlice : JSValue) :
  plain data = true -> plain eventTimeSlice = true ->
  exists window, effective_window Date_parse data eventTimeSlice = inl window.
Proof.
  intros Hd He. unfold effective_window.
  destruct (extractField_plain data effectiveStart_names Hd) as [startText ->].
  destruct (extractField_plain data effectiveEnd_names Hd) as [endText ->].
  cbn [JS.bind].
  assert (Hvt : forall s e, exists window,
            validTime_fallback Date_parse eventTimeSlice s e = inl window).
  { intros s e. unfold validTime_fallback.
    set (validTime := first_truthy eventTimeSlice ["gml:validTime"; "validTime"]).
    assert (Hv : plain validTime = true) by now apply plain_first_truthy.
    destruct (truthy validTime && typeof_object validTime); [|now eexists].
    set (timePeriod := first_truthy validTime ["gml:TimePeriod"; "TimePeriod"]).
    assert (Ht : plain timePeriod = true) by now apply plain_first_truthy.
    destruct (truthy timePeriod && typeof_object timePeriod); [|now eexists].
    destruct (fallback_date_plain
                (first_truthy timePeriod ["gml:beginPosition"; "beginPosition"]) s
                (plain_first_truthy _ _ Ht)) as [s' ->].
    destruct (fallback_date_plain
                (first_truthy timePeriod ["gml:endPosition"; "endPosition"]) e
                (plain_first_truthy _ _ Ht)) as [e' ->].
    now eexists. }
  destruct (parseDate Date_parse startText), (parseDate Date_parse endText);
    first [now eexists | apply Hvt].
Qed.

Lemma extractQLine_plain (data : JSValue) :
  plain data = true -> exists q, extractQLine data = inl q.
Proof.
  intros Hd. unfold extractQLine.
  set (qLineData := first_truthy data ["qLine"; "QLine"; "aixm:qLine"]).
  assert (Hq : plain qLineData = true) by now apply plain_first_truthy.
  destruct (negb (truthy qLineData) || negb (typeof_object qLineData)); [now eexists|].
  destruct (extractField_plain qLineData ["purpose"; "Purpose"] Hq) as [? ->].
  destruct (extractField_plain qLineData ["scope"; "Scope"] Hq) as [? ->].
  destruct (extractField_plain qLineData ["trafficType"; "TrafficType"] Hq) as [? ->].
  destruct (extractField_plain qLineData ["lowerAltitude"; "LowerLimit"] Hq) as [? ->].
  destruct (extractField_plain qLineData ["upperAltitude"; "UpperLimit"] Hq) as [? ->].
  destruct (extractField_plain qLineData ["coordinates"; "Coordinates"] Hq) as [? ->].
  now eexists.
Qed.

Lemma extractNOTAMFromData_plain (now : Z) (data eventTimeSlice : JSValue)
    (rawXml : string) :
  plain data = true -> plain eventTimeSlice = true ->
  exists notam,
    extractNOTAMFromData Date_parse now data eventTimeSlice rawXml = inl notam.
Proof.
  intros Hd He. unfold extractNOTAMFromData.
  destruct (extractField_plain data series_names Hd) as [? ->].
  destruct (extractField_plain data number_names Hd) as [? ->].
  destruct (extractField_plain data year_names Hd) as [? ->].
  cbn [JS.bind]. cbv zeta.
  destruct (effective_window_plain data eventTimeSlice Hd He) as [? ->].
  destruct (extractField_plain data location_names Hd) as [? ->].
  destruct (extractField_plain data text_names Hd) as [? ->].
  destruct (extractQLine_plain data Hd) as [? ->].
  destruct (extractField_plain data purpose_names Hd) as [? ->].
  destruct (extractField_plain data scope_names Hd) as [? ->].
  destruct (extractField_plain data traffic_names Hd) as [? ->].
  now eexists.
Qed.

(** C10 (amended). Once the chain down to the event time slice resolves,
    [parseAIXMMessage] returns a record unless the extraction throws, and it
    does not throw when no object under the event time slice has a property
    [toString] of its own.  In every record it returns, the location is
    ['ZZZZ'] when no location key is present, and the location read when
    that is not empty; the effective start is the clock reading when the
    direct field is absent or does not parse and the [gml:validTime]
    section, which the code consults next, offers no date either (in
    particular when there is no such section), the date that section offers
    when it does, and the date read from the direct field when that
    parses. *)
Theorem C10_placeholders_not_null (now : Z) (xmlString : string)
    (parsed eventTimeSlice : JSValue) :
  xml_parse xmlString = Some parsed ->
  navigate parsed = Some eventTimeSlice ->
  (parseAIXMMessage xml_parse Date_parse now xmlString = None ->
   exists error,
     extractNOTAMFromData Date_parse now (notamData_of eventTimeSlice)
       eventTimeSlice xmlString = inr error) /\
  (plain eventTimeSlice = true ->
   exists notam, parseAIXMMessage xml_parse Date_parse now xmlString = Some notam) /\
  (forall notam,
     parseAIXMMessage xml_parse Date_parse now xmlString = Some notam ->
     (absent (notamData_of eventTimeSlice) (flat_map candidates location_names) ->
      icao_location notam = "ZZZZ") /\
     (forall location,
        extractField (notamData_of eventTimeSlice) location_names = inl (Some location) ->
        location <> "" ->
        icao_location notam = location) /\
     (forall startText,
        extractField (notamData_of eventTimeSlice) effectiveStart_names = inl startText ->
        parseDate Date_parse startText = None ->
        begin_fallback Date_parse eventTimeSlice = inl None \/
        absent eventTimeSlice ["gml:validTime"; "validTime"] ->
        effective_start notam = now) /\
     (forall startText d,
        extractField (notamData_of eventTimeSlice) effectiveStart_names = inl startText ->
        parseDate Date_parse startText = None ->
        begin_fallback Date_parse eventTimeSlice = inl (Some d) ->
        effective_start notam = d) /\
     (forall startText d,
        extractField (notamData_of eventTimeSlice) effectiveStart_names = inl startText ->
        parseDate Date_parse startText = Some d ->
        effective_start notam = d)).
Proof.
  intros Hparse Hnav. split; [|split].
  - unfold parseAIXMMessage. rewrite Hparse, Hnav.
    destruct (extractNOTAMFromData Date_parse now (notamData_of eventTimeSlice)
                eventTimeSlice xmlString) as [notam|error]; [discriminate|].
    intros _. now exists error.
  - intros Hplain. unfold parseAIXMMessage. rewrite Hparse, Hnav.
    destruct (extractNOTAMFromData_plain now (notamData_of eventTimeSlice)
                eventTimeSlice xmlString (plain_notamData_of _ Hplain) Hplain)
      as [notam ->].
    now exists notam.
  - intros notam H.
    apply parseAIXMMessage_inversion in H as (parsed' & ets & Hparse' & Hnav' & H).
    assert (ets = eventTimeSlice) as -> by congruence.
    apply extractNOTAMFromData_inversion in H
      as (series & number & year & window & location & text & qLine & p & s & t
          & _ & _ & _ & Hwindow & Hlocation & _ & _ & _ & _ & _ & ->).
    cbn [icao_location effective_start].
    destruct (effective_start_lookup_order _ _ _ Hwindow) as (startText & Hstart & Hfst).
    repeat split.
    + intros Ha. rewrite extractField_absent in Hlocation by (reflexivity || exact Ha).
      now injection Hlocation as <-.
    + intros l Hl Hne. rewrite Hl in Hlocation. injection Hlocation as <-.
      unfold or_string. apply String.eqb_neq in Hne. now rewrite Hne.
    + intros startText' Hstart' Hnone Hfb.
      assert (startText' = startText) as -> by congruence.
      rewrite Hnone in Hfst.
      assert (Hb : begin_fallback Date_parse eventTimeSlice = inl None).
      { destruct Hfb as [Hb|Hvt]; [exact Hb|now apply begin_fallback_absent]. }
      rewrite Hb in Hfst. injection Hfst as <-. reflexivity.
    + intros startText' d Hstart' Hnone Hb.
      assert (startText' = startText) as -> by congruence.
      rewrite Hnone, Hb in Hfst. injection Hfst as <-. reflexivity.
    + intros startText' d Hstart' Hsome.
      assert (startText' = startText) as -> by congruence.
      rewrite Hsome in Hfst. now rewrite Hfst.
Qed.


End ParserFacts.

(** C3 as stated fails at its sixth section: an event time slice without any
    [textNOTAM] section still yields a record. *)
Lemma C3_textNOTAM_counterexample :
  NOTAMParser.descend (Examples.around Examples.slice_without_textNOTAM)
    NOTAMParser.chain = Some Examples.slice_without_textNOTAM /\
  NOTAMParser.absent Examples.slice_without_textNOTAM NOTAMParser.textNOTAM_keys /\
  NOTAMParser.parseAIXMMessage
    (Examples.parses_to (Examples.around Examples.slice_without_textNOTAM))
    Examples.no_Date_parse 1000 Examples.xml_without_textNOTAM
  <> None.
Proof.
  split; [reflexivity|]. split.
  - intros k [<-|[<-|[]]]; reflexivity.
  - discriminate.
Qed.

Lemma C3_missing_section_null_witness :
  Examples.parses_to Examples.invalid_tree "<invalid>xml</invalid>"
    = Some Examples.invalid_tree /\
  NOTAMParser.chain =
    ([] ++ NOTAMParser.message_keys
        :: [NOTAMParser.member_keys; NOTAMParser.event_keys;
            NOTAMParser.timeSlice_keys; NOTAMParser.eventTimeSlice_keys])%list /\
  NOTAMParser.descend Examples.invalid_tree [] = Some Examples.invalid_tree /\
  NOTAMParser.absent Examples.invalid_tree NOTAMParser.message_keys /\
  NOTAMParser.parseAIXMMessage (Examples.parses_to Examples.invalid_tree)
    Examples.no_Date_parse 1000 "<invalid>xml</invalid>" = None.
Proof.
  assert (Ha : NOTAMParser.absent Examples.invalid_tree NOTAMParser.message_keys)
    by (intros k [<-|[<-|[]]]; reflexivity).
  split; [reflexivity|]. split; [reflexivity|]. split; [reflexivity|].
  split; [exact Ha|].
  exact (C3_missing_section_null (Examples.parses_to Examples.invalid_tree)
           Examples.no_Date_parse 1000 "<invalid>xml</invalid>" _ _
           [] _ NOTAMParser.message_keys eq_refl eq_refl eq_refl Ha).
Defined.

(** C10 as stated fails: the chain resolves, and the parse is null all the
    same, on the tree in which the location has a property [toString], as
    an XML parser that keeps element names as property names builds it for
    a location with an element of that name: the conversion of the location
    to text throws and the [catch] returns null. *)
Lemma C10_toString_counterexample :
  NOTAMParser.navigate (Examples.around Examples.slice_with_toString)
    = Some Examples.slice_with_toString /\
  NOTAMParser.prop (NOTAMParser.notamData_of Examples.slice_with_toString) "location"
    = NOTAMParser.JObject [("toString", NOTAMParser.JString "KJFK")] /\
  NOTAMParser.js_String (NOTAMParser.JObject [("toString", NOTAMParser.JString "KJFK")])
    = inr (JS.TypeError "Cannot convert object to primitive value") /\
  NOTAMParser.parseAIXMMessage
    (Examples.parses_to (Examples.around Examples.slice_with_toString))
    Examples.no_Date_parse 1000 Examples.xml_with_toString = None.
Proof. repeat split; reflexivity. Qed.

Lemma C10_placeholders_not_null_witness :
  NOTAMParser.navigate (Examples.around Examples.slice_without_location)
    = Some Examples.slice_without_location /\
  NOTAMParser.plain Examples.slice_without_location = true /\
  NOTAMParser.absent (NOTAMParser.notamData_of Examples.slice_without_location)
    (flat_map NOTAMParser.candidates NOTAMParser.location_names) /\
  NOTAMParser.absent Examples.slice_without_location ["gml:validTime"; "validTime"] /\
  exists notam,
    NOTAMParser.parseAIXMMessage
      (Examples.parses_to (Examples.around Examples.slice_without_location))
      Examples.no_Date_parse 1000 Examples.xml_without_location = Some notam /\
    NOTAMModel.icao_location notam = "ZZZZ" /\
    NOTAMModel.effective_start notam = 1000.
Proof.
  assert (Hloc : NOTAMParser.absent
            (NOTAMParser.notamData_of Examples.slice_without_location)
            (flat_map NOTAMParser.candidates NOTAMParser.location_names)).
  { intros k Hk. cbn in Hk.
    repeat (destruct Hk as [<-|Hk]; [reflexivity|]). destruct Hk. }
  assert (Hvt : NOTAMParser.absent Examples.slice_without_location
                  ["gml:validTime"; "validTime"])
    by (intros k [<-|[<-|[]]]; reflexivity).
  split; [reflexivity|]. split; [reflexivity|].
  split; [exact Hloc|]. split; [exact Hvt|].
  destruct (C10_placeholders_not_null
              (Examples.parses_to (Examples.around Examples.slice_without_location))
              Examples.no_Date_parse 1000 Examples.xml_without_location
              _ _ eq_refl eq_refl)
    as (_ & Hsome & Hrec).
  destruct (Hsome eq_refl) as (notam & Hp).
  destruct (Hrec notam Hp) as (Hl & _ & Hs & _ & _).
  exists notam. split; [exact Hp|].
  split; [exact (Hl Hloc)|].
  exact (Hs None eq_refl eq_refl (or_intror Hvt)).
Defined.

(** A document with a location and a start that parses keeps both, and a
    number beyond 1e21 enters the identifier in exponent form. *)
Example parseAIXMMessage_complete :
  exists notam,
    NOTAMParser.parseAIXMMessage
      (Examples.parses_to (Examples.around Examples.slice_complete))
      Examples.iso_Date_parse 1000 Examples.xml_complete = Some notam /\
    NOTAMModel.notam_id notam = "A1.2345678901234568e+22/2025" /\
    NOTAMModel.icao_location notam = "KJFK" /\
    NOTAMModel.effective_start notam = 1736949600000.
Proof. eexists. split; [reflexivity|]. repeat split. Qed.


(** ** Parser: the legacy text path *)

Section TextFacts.

Import NOTAMModel NOTAMParser.

Variable Date_parse : string -> option Z.
Variable now : Z.

Lemma tags_exclusive (c1 c2 : ascii) (line : string) :
  c1 <> c2 ->
  startsWith line (String c1 ")") = true ->
  startsWith line (String c2 ")") = false.
Proof.
  intros Hne. unfold startsWith. destruct line as [|c r]; [discriminate|].
  cbn [String.prefix].
  destruct (ascii_dec c1 c) as [<-|]; [|discriminate].
  intros _. destruct (ascii_dec c2 c1) as [->|]; [now elim Hne|reflexivity].
Qed.

Lemma upper_not_space (c : ascii) : is_upper c = true -> is_space c = false.
Proof.
  unfold is_upper, is_space. cbv zeta. intros H.
  apply andb_prop in H as [H1 H2].
  apply Nat.leb_le in H1. apply Nat.leb_le in H2.
  apply orb_false_iff. split; [apply orb_false_iff; split|].
  - apply andb_false_iff. right. apply Nat.leb_gt. lia.
  - apply Nat.eqb_neq. lia.
  - apply Nat.eqb_neq. lia.
Qed.

Lemma matches_first_token (line : string) :
  matches_notam_id line = true -> first_token line <> "".
Proof.
  destruct line as [|c r]; [discriminate|]. cbn [matches_notam_id first_token].
  intros H. apply andb_prop in H as [Hu _].
  now rewrite (upper_not_space c Hu).
Qed.

Lemma matches_not_tag (c0 : ascii) (line : string) :
  matches_notam_id line = true -> startsWith line (String c0 ")") = false.
Proof.
  destruct line as [|c [|d r]]; [discriminate| |].
  - cbn. now rewrite andb_false_r.
  - cbn [matches_notam_id digits1]. intros H. apply andb_prop in H as [_ H].
    unfold startsWith. cbn [String.prefix].
    destruct (ascii_dec c0 c); [|reflexivity].
    destruct (ascii_dec ")" d) as [<-|]; [|reflexivity].
    discriminate.
Qed.

Lemma matches_not_tagged (line : string) :
  matches_notam_id line = true -> tagged line = false.
Proof.
  intros H. unfold tagged. now rewrite !(matches_not_tag _ line H).
Qed.

Lemma process_line_notam_id (notam : PartialNOTAM) (line : string) :
  p_notam_id (process_line Date_parse now notam line) =
  if tagged line then p_notam_id notam
  else if negb (truthy_string (p_notam_id notam)) && matches_notam_id line
       then Some (first_token line)
       else p_notam_id notam.
Proof.
  unfold process_line, tagged.
  destruct (startsWith line "A)"); [reflexivity|].
  destruct (startsWith line "B)"); [reflexivity|].
  destruct (startsWith line "C)"); [reflexivity|].
  destruct (startsWith line "D)"); [reflexivity|].
  destruct (startsWith line "E)"); [reflexivity|].
  cbn [orb].
  now destruct (negb (truthy_string (p_notam_id notam)) && matches_notam_id line).
Qed.

Lemma process_line_icao_location (notam : PartialNOTAM) (line : string) :
  p_icao_location (process_line Date_parse now notam line) =
  if startsWith line "A)" then Some (take 10 (trim (drop 2 line)))
  else p_icao_location notam.
Proof.
  unfold process_line.
  destruct (startsWith line "A)"); [reflexivity|].
  destruct (startsWith line "B)"); [reflexivity|].
  destruct (startsWith line "C)"); [reflexivity|].
  destruct (startsWith line "D)"); [reflexivity|].
  destruct (startsWith line "E)"); [reflexivity|].
  now destruct (negb (truthy_string (p_notam_id notam)) && matches_notam_id line).
Qed.

Lemma process_line_effective_start (notam : PartialNOTAM) (line : string) :
  is_assigned (p_effective_start (process_line Date_parse now notam line)) =
  is_assigned (p_effective_start notam) || startsWith line "B)".
Proof.
  unfold process_line.
  destruct (startsWith line "A)") eqn:EA.
  - rewrite (tags_exclusive "A" "B" line) by (assumption || discriminate).
    cbn. now rewrite orb_false_r.
  - destruct (startsWith line "B)"); [cbn; now rewrite orb_true_r|].
    rewrite orb_false_r.
    destruct (startsWith line "C)"); [reflexivity|].
    destruct (startsWith line "D)"); [reflexivity|].
    destruct (startsWith line "E)"); [reflexivity|].
    now destruct (negb (truthy_string (p_notam_id notam)) && matches_notam_id line).
Qed.

Lemma process_line_identified (notam : PartialNOTAM) (line : string) :
  truthy_string (p_notam_id (process_line Date_parse now notam line)) =
  truthy_string (p_notam_id notam) || matches_notam_id line.
Proof.
  rewrite process_line_notam_id.
  destruct (matches_notam_id line) eqn:Em.
  - rewrite (matches_not_tagged line Em).
    destruct (truthy_string (p_notam_id notam)) eqn:Et; cbn [negb andb orb].
    + exact Et.
    + cbn [truthy_string]. apply negb_true_iff, String.eqb_neq.
      now apply matches_first_token.
  - rewrite andb_false_r, orb_false_r. now destruct (tagged line).
Qed.

Lemma fold_identified (lines : list string) :
  forall notam,
    truthy_string (p_notam_id (fold_left (process_line Date_parse now) lines notam)) =
    truthy_string (p_notam_id notam) || existsb matches_notam_id lines.
Proof.
  induction lines as [|x lines IH]; intros notam; cbn [fold_left existsb].
  - now rewrite orb_false_r.
  - now rewrite IH, process_line_identified, orb_assoc.
Qed.

Lemma fold_effective_start (lines : list string) :
  forall notam,
    is_assigned (p_effective_start (fold_left (process_line Date_parse now) lines notam)) =
    is_assigned (p_effective_start notam)
    || existsb (fun l => startsWith l "B)") lines.
Proof.
  induction lines as [|x lines IH]; intros notam; cbn [fold_left existsb].
  - now rewrite orb_false_r.
  - now rewrite IH, process_line_effective_start, orb_assoc.
Qed.

Lemma find_app_first {A : Type} (p : A -> bool) (a b : list A) :
  find p (a ++ b) = match find p a with
                    | Some y => Some y
                    | None => find p b
                    end.
Proof.
  induction a as [|x a IH]; [reflexivity|]. cbn [app find].
  now destruct (p x).
Qed.

Lemma fold_icao_location (lines : list string) :
  forall notam,
    p_icao_location (fold_left (process_line Date_parse now) lines notam) =
    match last_with "A)" lines with
    | Some line => Some (take 10 (trim (drop 2 line)))
    | None => p_icao_location notam
    end.
Proof.
  unfold last_with.
  induction lines as [|x lines IH]; intros notam; [reflexivity|].
  cbn [fold_left rev]. rewrite IH, find_app_first.
  destruct (find (fun l => startsWith l "A)") (rev lines)); [reflexivity|].
  rewrite process_line_icao_location. cbn [find].
  now destruct (startsWith x "A)").
Qed.

Lemma complete_iff (notam : PartialNOTAM) :
  complete notam <> None <->
  truthy_string (p_notam_id notam) = true /\
  truthy_string (p_icao_location notam) = true /\
  is_assigned (p_effective_start notam) = true.
Proof.
  unfold complete, truthy_string, is_assigned.
  destruct (p_notam_id notam) as [i|], (p_icao_location notam) as [l|],
    (p_effective_start notam) as [t|];
    try (split; [intros H; now elim H|intros (H1 & H2 & H3); discriminate]).
  destruct (negb (String.eqb i "")), (negb (String.eqb l ""));
    cbn [andb];
    (split; [intros H; try (now elim H); now repeat split
            |intros (H1 & H2 & H3); discriminate]).
Qed.

Lemma take_empty (n : nat) (s : string) : take (S n) s = "" <-> s = "".
Proof.
  destruct s; cbn; split; (reflexivity || discriminate).
Qed.

(** C9 (amended). [parseTextNOTAM] returns a record if and only if some line
    matches the identifier pattern, the last line tagged [A)] has text that
    is not blank after the tag, and some line is tagged [B)]. *)
Theorem C9_text_requirements (text : string) :
  parseTextNOTAM Date_parse now text <> None <->
  (exists line, In line (lines_of text) /\ matches_notam_id line = true) /\
  (exists line, last_with "A)" (lines_of text) = Some line /\
                trim (drop 2 line) <> "") /\
  (exists line, In line (lines_of text) /\ startsWith line "B)" = true).
Proof.
  unfold parseTextNOTAM, process_lines.
  rewrite complete_iff, fold_identified, fold_effective_start, fold_icao_location.
  cbn [p_notam_id p_icao_location p_effective_start truthy_string is_assigned orb].
  rewrite !existsb_exists.
  apply and_iff_compat_l. apply and_iff_compat_r.
  destruct (last_with "A)" (lines_of text)) as [line|].
  - cbn [truthy_string]. rewrite negb_true_iff, String.eqb_neq, take_empty.
    split.
    + intros H. now exists line.
    + now intros (line' & [= <-] & H).
  - split; [discriminate|now intros (line' & [=] & _)].
Qed.

End TextFacts.

(** C9 as stated fails: with an identifier line, an [A)] line and a [B)] line
    all present, and all three fields assigned when the lines have been
    processed, the parse is still null when the location assigned is the
    empty string. *)
Lemma C9_blank_location_counterexample :
  (exists line, In line (NOTAMParser.lines_of Examples.text_blank_location) /\
                NOTAMParser.matches_notam_id line = true) /\
  (exists line, In line (NOTAMParser.lines_of Examples.text_blank_location) /\
                NOTAMParser.startsWith line "A)" = true) /\
  (exists line, In line (NOTAMParser.lines_of Examples.text_blank_location) /\
                NOTAMParser.startsWith line "B)" = true) /\
  NOTAMParser.p_notam_id
    (NOTAMParser.process_lines Examples.no_Date_parse 1000 Examples.text_blank_location)
    = Some "A1/25" /\
  NOTAMParser.p_icao_location
    (NOTAMParser.process_lines Examples.no_Date_parse 1000 Examples.text_blank_location)
    = Some "" /\
  NOTAMParser.p_effective_start
    (NOTAMParser.process_lines Examples.no_Date_parse 1000 Examples.text_blank_location)
    = Some 1736949600000 /\
  NOTAMParser.parseTextNOTAM Examples.no_Date_parse 1000 Examples.text_blank_location
    = None.
Proof.
  assert (Hlines : NOTAMParser.lines_of Examples.text_blank_location
                   = ["A1/25"; "A)"; "B) 2501151400"]) by reflexivity.
  rewrite Hlines.
  split; [exists "A1/25"; split; [now left|reflexivity]|].
  split; [exists "A)"; split; [right; now left|reflexivity]|].
  split; [exists "B) 2501151400"; split; [right; right; now left|reflexivity]|].
  repeat split; reflexivity.
Qed.

(** Dates of the legacy format, on an engine that leaves them to the
    fixed-width branches. *)
Example parseDate_examples :
  NOTAMParser.parseDate Examples.no_Date_parse (Some "PERM") = None /\
  NOTAMParser.parseDate Examples.no_Date_parse (Some "permanent") = None /\
  NOTAMParser.parseDate Examples.no_Date_parse (Some "2501151400") = Some 1736949600000 /\
  NOTAMParser.parseDate Examples.no_Date_parse (Some "202501151400") = Some 1736949600000 /\
  NOTAMParser.parseDate Examples.no_Date_parse (Some "tomorrow") = None /\
  NOTAMParser.parseDate Examples.no_Date_parse None = None.
Proof. repeat split; reflexivity. Qed.

(** The legacy text of the unit tests parses. *)
Example parseTextNOTAM_kjfk :
  exists notam,
    NOTAMParser.parseTextNOTAM Examples.no_Date_parse 1000 Examples.text_kjfk
      = Some notam /\
    NOTAMModel.notam_id notam = "A2/1234" /\
    NOTAMModel.icao_location notam = "KJFK" /\
    NOTAMModel.notam_text notam = "RWY 04L/22R CLSD".
Proof. eexists. split; [reflexivity|]. repeat split. Qed.

(** ** Per-message handler *)

Section HandlerFacts.

Import CircuitBreaker NOTAMModel NOTAMIngestionService.

Variable xml_parse : string -> option NOTAMParser.JSValue.
Variable Date_parse : string -> option Z.
Variable env : Env.
Variable options : CircuitBreakerOptions.

Lemma processMessage_unparsed (clock : Clock) (messageBody : string) (w : World) :
  parse xml_parse Date_parse (t_parse clock) messageBody = None ->
  processMessage xml_parse Date_parse env clock messageBody w = (inl tt, w).
Proof.
  intros Hp. unfold processMessage. now rewrite Hp.
Qed.

(** What the handler does with an admitted message whose payload parses to
    null: [processMessage] returns, so [recordSuccess] runs before the
    message is acknowledged. *)
Lemma handleMessage_unparsed (clock : Clock) (message : Message)
    (messageBody : string) (s : Service) :
  fst (isRequestAllowed options (t_admission clock) (circuitBreaker s)) = true ->
  messageBody_of message = inl (Some messageBody) ->
  parse xml_parse Date_parse (t_parse clock) messageBody = None ->
  handleMessage xml_parse Date_parse env options clock message s =
  acknowledge_in_try options clock message
    (recordSuccess (snd (isRequestAllowed options (t_admission clock) (circuitBreaker s))))
    (world s).
Proof.
  intros Hallowed Hbody Hparse. unfold handleMessage.
  destruct (isRequestAllowed options (t_admission clock) (circuitBreaker s))
    as [allowed cb].
  cbn [fst snd] in *. subst allowed. cbn [negb].
  now rewrite Hbody, processMessage_unparsed.
Qed.

End HandlerFacts.

(** C2. A breaker that is closed and has counted two connection failures
    (threshold 3) admits a message whose text has no identifier line, so that
    it parses to null.  The handler acknowledges the message and reports
    nothing, and the breaker's failure counter is 0 afterwards: the handler
    has called [recordSuccess].  On the same breaker a message without any
    payload, the other input the handler drops, is acknowledged too and
    leaves the breaker as it was. *)
Theorem C2_null_parse_resets_counter :
  NOTAMIngestionService.messageBody_of Examples.incomplete_message
    = inl (Some "E) RWY 04L/22R CLSD") /\
  NOTAMIngestionService.parse Examples.no_xml_parse Examples.no_Date_parse
    (NOTAMIngestionService.t_parse Examples.clock2000) "E) RWY 04L/22R CLSD" = None /\
  NOTAMIngestionService.circuitBreaker Examples.two_down
    = {| CircuitBreaker.failures := 2;
         CircuitBreaker.lastFailure := Some 1000;
         CircuitBreaker.isOpen := false |} /\
  NOTAMIngestionService.handleMessage Examples.no_xml_parse Examples.no_Date_parse
    Examples.env3 Examples.breaker3 Examples.clock2000
    Examples.incomplete_message Examples.two_down
    = {| NOTAMIngestionService.service :=
           {| NOTAMIngestionService.circuitBreaker :=
                {| CircuitBreaker.failures := 0;
                   CircuitBreaker.lastFailure := Some 1000;
                   CircuitBreaker.isOpen := false |};
              NOTAMIngestionService.world := Examples.empty_world |};
         NOTAMIngestionService.acknowledged := true;
         NOTAMIngestionService.captured := None |} /\
  NOTAMIngestionService.messageBody_of Examples.empty_message = inl None /\
  NOTAMIngestionService.handleMessage Examples.no_xml_parse Examples.no_Date_parse
    Examples.env3 Examples.breaker3 Examples.clock2000
    Examples.empty_message Examples.two_down
    = {| NOTAMIngestionService.service := Examples.two_down;
         NOTAMIngestionService.acknowledged := true;
         NOTAMIngestionService.captured := None |}.
Proof. repeat split; reflexivity. Qed.


(** * Further properties of the resilience layer *)

Section CircuitBreakerMore.

Import CircuitBreaker.

Variable o : CircuitBreakerOptions.

(** A closed breaker has always counted fewer failures than the threshold:
    the counter cannot reach the threshold without the breaker opening. *)
Theorem closed_below_threshold (s : CircuitBreakerState) :
  1 <= threshold o -> reachable o s -> isOpen s = false ->
  0 <= failures s < threshold o.
Proof.
  intros Hthr Hr. induction Hr as [|s c Hr IH]; [cbn; lia|].
  destruct c as [now| |now e]; cbn [call].
  - unfold isRequestAllowed. destruct (isOpen s) eqn:Eo; cbn [negb snd].
    + destruct (timeSinceLastFailure now s >? timeout o); cbn [snd].
      * intros _. cbn. lia.
      * congruence.
    + intros _. now apply IH.
  - unfold recordSuccess. destruct (failures s >? 0); cbn.
    + intros _. lia.
    + exact IH.
  - unfold recordFailure. destruct (isConnectionErrorOpt o e); cbn [negb]; [|exact IH].
    cbv zeta. cbn [failures].
    destruct (failures s + 1 >=? threshold o) eqn:Eg; cbn; [discriminate|].
    intros Hc. specialize (IH Hc).
    rewrite Z.geb_leb in Eg. apply Z.leb_gt in Eg. lia.
Qed.

(** From any closed state, a run of qualifying failures adds its length to
    the counter and opens the breaker exactly when the counter reaches the
    threshold; so after a success or a timeout reset, which zero the counter,
    it takes a full [threshold] of them to open it again. *)
Theorem qualifying_failures_accumulate (fs : list (Z * JSError))
    (s : CircuitBreakerState) :
  all_qualifying o fs = true -> fs <> [] -> isOpen s = false ->
  failures (recordFailures o fs s) = failures s + Z.of_nat (List.length fs) /\
  (isOpen (recordFailures o fs s) = true <->
   threshold o <= failures s + Z.of_nat (List.length fs)).
Proof.
  intros Hq Hne Hc. split; [now apply recordFailures_failures|].
  rewrite recordFailures_isOpen, Hc by assumption. cbn [orb].
  destruct fs as [|f fs]; [now elim Hne|].
  cbn [List.length Nat.eqb negb andb]. apply Z.leb_le.
Qed.

(** [execute] fails fast on an open breaker within its timeout: it throws
    the circuit-open error, does not run the operation and changes neither
    the breaker nor the world.  On a breaker that admits the call it runs the
    operation once and hands back the operation's own result and world. *)
Theorem execute_fail_fast {T W : Type} (t_check t_fail : Z)
    (operation : W -> (T + JSError) * W) (s : CircuitBreakerState) (w : W) :
  (isOpen s = true -> timeSinceLastFailure t_check s <= timeout o ->
   execute o t_check t_fail operation s w
   = (inr (Error "Circuit breaker is open"), s, w)) /\
  (isOpen s = false \/ timeSinceLastFailure t_check s > timeout o ->
   fst (fst (execute o t_check t_fail operation s w)) = fst (operation w) /\
   snd (execute o t_check t_fail operation s w) = snd (operation w)).
Proof.
  unfold execute, isRequestAllowed. split.
  - intros Ho Hle. rewrite Ho. cbn [negb].
    destruct (timeSinceLastFailure t_check s >? timeout o) eqn:Et; [|reflexivity].
    rewrite Z.gtb_ltb in Et. apply Z.ltb_lt in Et. lia.
  - intros H.
    assert (Hallowed :
      (if negb (isOpen s) then (true, s)
       else if timeSinceLastFailure t_check s >? timeout o then (true, reset s)
            else (false, s)) = (true, s) \/
      (if negb (isOpen s) then (true, s)
       else if timeSinceLastFailure t_check s >? timeout o then (true, reset s)
            else (false, s)) = (true, reset s)).
    { destruct (isOpen s); cbn [negb]; [|now left].
      destruct H as [H|H]; [discriminate|].
      replace (timeSinceLastFailure t_check s >? timeout o) with true; [now right|].
      symmetry. rewrite Z.gtb_ltb. apply Z.ltb_lt. lia. }
    destruct Hallowed as [-> | ->]; cbn [negb];
      destruct (operation w) as [[v|e] w']; now split.
Qed.

End CircuitBreakerMore.

Lemma closed_below_threshold_witness :
  1 <= CircuitBreaker.threshold Examples.breaker3 /\
  CircuitBreaker.reachable Examples.breaker3
    (CircuitBreaker.recordFailures Examples.breaker3 Examples.two_failures
       CircuitBreaker.initial) /\
  CircuitBreaker.isOpen
    (CircuitBreaker.recordFailures Examples.breaker3 Examples.two_failures
       CircuitBreaker.initial) = false /\
  0 <= CircuitBreaker.failures
         (CircuitBreaker.recordFailures Examples.breaker3 Examples.two_failures
            CircuitBreaker.initial) < 3.
Proof.
  assert (H : 1 <= CircuitBreaker.threshold Examples.breaker3) by (cbn; lia).
  assert (Hr : CircuitBreaker.reachable Examples.breaker3
                 (CircuitBreaker.recordFailures Examples.breaker3 Examples.two_failures
                    CircuitBreaker.initial)).
  { apply reachable_recordFailures. apply CircuitBreaker.reachable_initial. }
  split; [exact H|]. split; [exact Hr|]. split; [reflexivity|].
  exact (closed_below_threshold Examples.breaker3 _ H Hr eq_refl).
Defined.

Lemma qualifying_failures_accumulate_witness :
  CircuitBreaker.all_qualifying Examples.breaker3 Examples.three_failures = true /\
  Examples.three_failures <> [] /\
  CircuitBreaker.isOpen (CircuitBreaker.recordSuccess Examples.two_down_breaker) = false /\
  CircuitBreaker.failures
    (CircuitBreaker.recordFailures Examples.breaker3 Examples.three_failures
       (CircuitBreaker.recordSuccess Examples.two_down_breaker)) = 3 /\
  CircuitBreaker.isOpen
    (CircuitBreaker.recordFailures Examples.breaker3 Examples.three_failures
       (CircuitBreaker.recordSuccess Examples.two_down_breaker)) = true.
Proof.
  assert (Hne : Examples.three_failures <> []) by discriminate.
  destruct (qualifying_failures_accumulate Examples.breaker3 Examples.three_failures
              (CircuitBreaker.recordSuccess Examples.two_down_breaker)
              eq_refl Hne eq_refl) as [Hf Ho].
  split; [reflexivity|]. split; [exact Hne|]. split; [reflexivity|].
  split; [exact Hf|]. apply Ho. cbn. lia.
Defined.

Lemma execute_fail_fast_witness :
  CircuitBreaker.isOpen Examples.opened = true /\
  CircuitBreaker.timeSinceLastFailure 2000 Examples.opened
    <= CircuitBreaker.timeout Examples.breaker3 /\
  CircuitBreaker.execute Examples.breaker3 2000 2000 Examples.always_succeeds
    Examples.opened O
  = (inr (Error "Circuit breaker is open"), Examples.opened, O) /\
  fst (fst (CircuitBreaker.execute Examples.breaker3 7000 7000 Examples.always_econnreset
              Examples.opened O)) = inr Examples.econnreset.
Proof.
  assert (Hle : CircuitBreaker.timeSinceLastFailure 2000 Examples.opened
                <= CircuitBreaker.timeout Examples.breaker3) by (cbn; lia).
  split; [reflexivity|]. split; [exact Hle|]. split.
  - exact (proj1 (execute_fail_fast Examples.breaker3 2000 2000
                    Examples.always_succeeds Examples.opened O) eq_refl Hle).
  - apply (proj2 (execute_fail_fast Examples.breaker3 7000 7000
                    Examples.always_econnreset Examples.opened O)).
    right. cbn. lia.
Defined.

(** Every error the circuit breaker counts is one [withRetry] retries by
    default: the messages of [isConnectionError] are among those of
    [isRetriableDatabaseError]. *)
Theorem connection_errors_are_retriable (error : JSError) :
  CircuitBreaker.isConnectionError error = true ->
  Retry.isRetriableDatabaseError error = true.
Proof.
  destruct error as [| | |code message]; try discriminate.
  cbn [CircuitBreaker.isConnectionError Retry.isRetriableDatabaseError].
  unfold message_includes_some. intros H.
  apply orb_true_iff. right.
  change Retry.retriableMessages
    with (CircuitBreaker.connectionErrorMessages
          ++ ["Client has encountered a connection error"])%list.
  rewrite existsb_app, H. reflexivity.
Qed.

Lemma connection_errors_are_retriable_witness :
  CircuitBreaker.isConnectionError Examples.econnreset = true /\
  Retry.isRetriableDatabaseError Examples.econnreset = true.
Proof.
  split; [reflexivity|].
  exact (connection_errors_are_retriable Examples.econnreset eq_refl).
Defined.

Section RetryMore.

Import Retry.

Context {T W : Type}.
Variable operation : W -> (T + JSError) * W.
Variable options : RetryOptions.

Lemma retry_loop_shape (fuel : nat) :
  forall attempt lastError w,
    (Z.to_nat (maxRetries options - attempt + 1) < fuel)%nat ->
    let r := retry_loop operation options fuel attempt lastError w in
    Z.of_nat (List.length (invocations r))
      <= Z.max 0 (maxRetries options - attempt + 1) /\
    List.length (sleeps r) = Nat.pred (List.length (invocations r)) /\
    Forall (fun d => d <= maxBackoff options) (sleeps r) /\
    (attempt <= maxRetries options -> invocations r <> []).
Proof.
  induction fuel as [|fuel IH]; intros attempt lastError w Hfuel; [lia|].
  cbn zeta. cbn [retry_loop].
  destruct (attempt <=? maxRetries options) eqn:Ele.
  - apply Z.leb_le in Ele.
    destruct (operation w) as [[v|e] w'].
    + cbn. repeat split; try lia; [constructor|discriminate].
    + destruct (negb (isRetriable options e) || (attempt =? maxRetries options))
        eqn:Estop.
      * cbn. repeat split; try lia; [constructor|discriminate].
      * apply orb_false_iff in Estop as [_ Hlast]. apply Z.eqb_neq in Hlast.
        destruct (IH (attempt + 1) e w') as (Hlen & Hsl & Hall & Hne); [lia|].
        cbn [invocations sleeps List.length].
        specialize (Hne ltac:(lia)).
        repeat split.
        -- lia.
        -- rewrite Hsl.
           destruct (invocations (retry_loop operation options fuel (attempt + 1) e w'));
             [now elim Hne|reflexivity].
        -- constructor; [apply Z.le_min_r|exact Hall].
        -- discriminate.
  - apply Z.leb_gt in Ele. cbn. repeat split; try lia; constructor.
Qed.

(** Whatever the operation does, [withRetry] invokes it at most
    [maxRetries + 1] times, sleeps exactly once between two invocations, and
    never sleeps longer than [maxBackoff]. *)
Theorem withRetry_bounds (w : W) :
  Z.of_nat (List.length (invocations (withRetry operation options w)))
    <= Z.max 0 (maxRetries options + 1) /\
  List.length (sleeps (withRetry operation options w))
    = Nat.pred (List.length (invocations (withRetry operation options w))) /\
  Forall (fun d => d <= maxBackoff options) (sleeps (withRetry operation options w)).
Proof.
  destruct (retry_loop_shape (S (Z.to_nat (maxRetries options + 1))) 0
              ThrownUndefined w) as (H1 & H2 & H3 & _); [lia|].
  fold (withRetry operation options w) in H1, H2, H3.
  rewrite Z.sub_0_r in H1. now repeat split.
Qed.

Lemma retry_loop_trace (fuel : nat) :
  forall attempt lastError w,
    attempt <= maxRetries options ->
    (Z.to_nat (maxRetries options - attempt + 1) < fuel)%nat ->
    let r := retry_loop operation options fuel attempt lastError w in
    exists pre last,
      invocations r = (pre ++ [last])%list /\
      outcome r = Some last /\
      Forall (fun x => exists e, x = inr e /\ isRetriable options e = true) pre /\
      (forall e, last = inr e ->
         isRetriable options e = false \/
         attempt + Z.of_nat (List.length pre) = maxRetries options).
Proof.
  induction fuel as [|fuel IH]; intros attempt lastError w Hle Hfuel; [lia|].
  cbn zeta. cbn [retry_loop].
  replace (attempt <=? maxRetries options) with true
    by (symmetry; now apply Z.leb_le).
  destruct (operation w) as [[v|e] w'].
  - exists [], (inl v). cbn. repeat split; [constructor|discriminate].
  - destruct (isRetriable options e) eqn:Eret; cbn [negb orb].
    + destruct (attempt =? maxRetries options) eqn:Elast.
      * apply Z.eqb_eq in Elast. exists [], (inr e). cbn.
        repeat split; [constructor|]. intros e' _. right. lia.
      * apply Z.eqb_neq in Elast.
        destruct (IH (attempt + 1) e w') as (pre & last & Hinv & Hout & Hpre & Hlast);
          [lia|lia|].
        exists (inr e :: pre), last. cbn [invocations outcome app List.length].
        rewrite Hinv. repeat split; [exact Hout| |].
        -- constructor; [now exists e|exact Hpre].
        -- intros e' He'. destruct (Hlast e' He') as [H|H]; [now left|right; lia].
    + exists [], (inr e). cbn. repeat split; [constructor|].
      intros e' [= <-]. now left.
Qed.

(** With [maxRetries] not negative, what [withRetry] returns or throws is
    what the last invocation returned or threw, unchanged; every invocation
    before the last threw a retriable error; and an error is only passed on
    when it is not retriable or when it is that of attempt [maxRetries]. *)
Theorem withRetry_trace (w : W) :
  0 <= maxRetries options ->
  exists pre last,
    invocations (withRetry operation options w) = (pre ++ [last])%list /\
    outcome (withRetry operation options w) = Some last /\
    Forall (fun x => exists e, x = inr e /\ isRetriable options e = true) pre /\
    (forall e, last = inr e ->
       isRetriable options e = false \/
       Z.of_nat (List.length pre) = maxRetries options).
Proof.
  intros Hmax.
  destruct (retry_loop_trace (S (Z.to_nat (maxRetries options + 1))) 0
              ThrownUndefined w) as (pre & last & H1 & H2 & H3 & H4); [lia|lia|].
  exists pre, last. fold (withRetry operation options w) in H1, H2.
  repeat split; assumption.
Qed.

(** With a negative [maxRetries] the loop body never runs: the operation is
    not invoked and [withRetry] throws [lastError], still undefined. *)
Theorem withRetry_negative_maxRetries (w : W) :
  maxRetries options < 0 ->
  withRetry operation options w =
  {| outcome := Some (inr ThrownUndefined); invocations := [];
     sleeps := []; world := w |}.
Proof.
  intros Hneg. unfold withRetry. cbn [retry_loop].
  replace (0 <=? maxRetries options) with false; [reflexivity|].
  symmetry. apply Z.leb_gt. lia.
Qed.

End RetryMore.

(** The delay grows with the attempt number, up to the cap. *)
Theorem calculateBackoff_monotone (attempt attempt' base max : Z) :
  0 <= base -> 0 <= attempt <= attempt' ->
  Retry.calculateBackoff attempt base max
    <= Retry.calculateBackoff attempt' base max <= max.
Proof.
  intros Hb Ha. unfold Retry.calculateBackoff. split; [|apply Z.le_min_r].
  apply Z.min_le_compat_r. apply Z.mul_le_mono_nonneg_l; [exact Hb|].
  apply Z.pow_le_mono_r; lia.
Qed.

Lemma withRetry_trace_witness :
  0 <= Retry.maxRetries Examples.retry2 /\
  exists pre last,
    Retry.invocations
      (Retry.withRetry Examples.fails_twice Examples.retry2 O) = (pre ++ [last])%list /\
    Retry.outcome (Retry.withRetry Examples.fails_twice Examples.retry2 O) = Some last /\
    last = inl "success" /\ List.length pre = 2%nat.
Proof.
  assert (H : 0 <= Retry.maxRetries Examples.retry2) by (cbn; lia).
  split; [exact H|].
  destruct (withRetry_trace Examples.fails_twice Examples.retry2 O H)
    as (pre & last & Hinv & Hout & _ & _).
  exists pre, last. split; [exact Hinv|]. split; [exact Hout|].
  assert (Hl : last = inl "success")
    by (cbn in Hout; now injection Hout as <-).
  split; [exact Hl|].
  assert (Hlen : List.length
            (Retry.invocations (Retry.withRetry Examples.fails_twice Examples.retry2 O))
            = 3%nat) by reflexivity.
  rewrite Hinv, length_app in Hlen. cbn [List.length] in Hlen. lia.
Defined.

Lemma withRetry_negative_maxRetries_witness :
  Retry.maxRetries Examples.retry_negative < 0 /\
  Retry.withRetry Examples.always_succeeds Examples.retry_negative O =
  {| Retry.outcome := Some (inr ThrownUndefined); Retry.invocations := [];
     Retry.sleeps := []; Retry.world := O |}.
Proof.
  assert (H : Retry.maxRetries Examples.retry_negative < 0) by (cbn; lia).
  split; [exact H|].
  exact (withRetry_negative_maxRetries Examples.always_succeeds
           Examples.retry_negative O H).
Defined.

Lemma calculateBackoff_monotone_witness :
  0 <= 1000 /\ 0 <= 1 <= 4 /\
  Retry.calculateBackoff 1 1000 10000 <= Retry.calculateBackoff 4 1000 10000 <= 10000.
Proof.
  assert (Hb : 0 <= 1000) by lia. assert (Ha : 0 <= 1 <= 4) by lia.
  split; [exact Hb|]. split; [exact Ha|].
  exact (calculateBackoff_monotone 1 4 1000 10000 Hb Ha).
Defined.

(** * Further properties of the record store *)

Section CreateFacts.

Import NOTAMModel.

Lemma pool_query_duplicates {T : Type} (stmt : DB -> (T + JSError) * DB) (w : World) :
  duplicatesTotal (snd (pool_query stmt w)) = duplicatesTotal w.
Proof.
  unfold pool_query.
  destruct (faults w) as [|[e|] rest]; try reflexivity;
    now destruct (stmt (db w)).
Qed.

(** A run of [withRetry] over one statement that does not return leaves the
    table as it was, and no run touches the duplicates counter. *)
Lemma retry_pool_query_frame {T : Type} (stmt : DB -> (T + JSError) * DB)
    (options : Retry.RetryOptions) :
  (forall d e d', stmt d = (inr e, d') -> d' = d) ->
  forall fuel attempt lastError w,
    let r := Retry.retry_loop (pool_query stmt) options fuel attempt lastError w in
    duplicatesTotal (Retry.world r) = duplicatesTotal w /\
    ((forall v, Retry.outcome r <> Some (inl v)) -> db (Retry.world r) = db w).
Proof.
  intros Hstmt fuel.
  induction fuel as [|fuel IH]; intros attempt lastError w; cbn zeta;
    cbn [Retry.retry_loop]; [now split|].
  destruct (attempt <=? Retry.maxRetries options); [|now split].
  pose proof (pool_query_duplicates stmt w) as Hdup.
  destruct (pool_query stmt w) as [[v|e] w'] eqn:Epq; cbn [snd] in Hdup.
  - cbn. split; [exact Hdup|]. intros H. now elim (H v).
  - pose proof (pool_query_db stmt w Hstmt _ _ Epq) as Hdb. cbn in Hdb.
    destruct (negb (Retry.isRetriable options e)
              || (attempt =? Retry.maxRetries options)).
    + cbn. now split.
    + cbn [Retry.outcome Retry.world].
      destruct (IH (attempt + 1) e w') as [H1 H2].
      split; [congruence|]. intros H. rewrite H2 by exact H. exact Hdb.
Qed.





End CreateFacts.




Section TransientFaults.

Import NOTAMModel.

Context {T : Type}.
Variable stmt : DB -> (T + JSError) * DB.
Variable options : Retry.RetryOptions.




End TransientFaults.

Section CreateUnderFaults.

Import NOTAMModel.

Variable env : Env.



End CreateUnderFaults.



(** * Further properties of the queries *)

Section QueryFacts.

Import NOTAMModel.

Lemma insert_desc_In (rank : Row -> Z) (r x : Row) (l : list Row) :
  In x (insert_desc rank r l) <-> x = r \/ In x l.
Proof.
  induction l as [|a l IH]; cbn [insert_desc].
  - cbn. intuition congruence.
  - destruct (comes_before rank r a); cbn [In].
    + intuition congruence.
    + rewrite IH. intuition congruence.
Qed.

Lemma order_In (rank : Row -> Z) (x : Row) (l : list Row) :
  In x (order_by_effective_start_desc rank l) <-> In x l.
Proof.
  unfold order_by_effective_start_desc.
  induction l as [|a l IH]; cbn [fold_right In]; [reflexivity|].
  rewrite insert_desc_In, IH. intuition congruence.
Qed.

Lemma insert_desc_length (rank : Row -> Z) (r : Row) (l : list Row) :
  List.length (insert_desc rank r l) = S (List.length l).
Proof.
  induction l as [|a l IH]; cbn [insert_desc]; [reflexivity|].
  destruct (comes_before rank r a);
    cbn [List.length]; [reflexivity|now rewrite IH].
Qed.

Lemma order_length (rank : Row -> Z) (l : list Row) :
  List.length (order_by_effective_start_desc rank l) = List.length l.
Proof.
  unfold order_by_effective_start_desc.
  induction l as [|a l IH]; cbn [fold_right List.length]; [reflexivity|].
  now rewrite insert_desc_length, IH.
Qed.



(** Where no row of the list starts when [r] does, the place of [r] does
    not depend on the ranking. *)
Lemma insert_desc_no_tie (rank1 rank2 : Row -> Z) (r : Row) (l : list Row) :
  (forall x, In x l -> effective_start (cols x) <> effective_start (cols r)) ->
  insert_desc rank1 r l = insert_desc rank2 r l.
Proof.
  induction l as [|a l IH]; intros Hne; [reflexivity|].
  cbn [insert_desc].
  assert (Ha : (effective_start (cols a) =? effective_start (cols r)) = false)
    by (apply Z.eqb_neq, Hne; now left).
  unfold comes_before. rewrite Ha. cbn [andb].
  rewrite IH by (intros x Hx; apply Hne; now right). reflexivity.
Qed.

Lemma order_no_ties (rank1 rank2 : Row -> Z) (l : list Row) :
  NoDup (map (fun r => effective_start (cols r)) l) ->
  order_by_effective_start_desc rank1 l = order_by_effective_start_desc rank2 l.
Proof.
  unfold order_by_effective_start_desc.
  induction l as [|a l IH]; intros Hnd; [reflexivity|].
  cbn [map] in Hnd. apply NoDup_cons_iff in Hnd as [Ha Hnd].
  cbn [fold_right]. rewrite (IH Hnd).
  apply insert_desc_no_tie. intros x Hx Heq. apply Ha.
  apply (proj1 (order_In rank2 x l)) in Hx.
  rewrite <- Heq. now apply (in_map (fun r => effective_start (cols r))).
Qed.


Lemma In_firstn {A : Type} (n : nat) (l : list A) (x : A) :
  In x (firstn n l) -> In x l.
Proof.
  revert l. induction n as [|n IH]; intros [|a l]; cbn; try tauto.
  intros [H|H]; [now left|right; now apply IH].
Qed.

Lemma In_skipn {A : Type} (n : nat) (l : list A) (x : A) :
  In x (skipn n l) -> In x l.
Proof.
  revert l. induction n as [|n IH]; intros [|a l]; cbn; try tauto.
  intros H. right. now apply IH.
Qed.



Lemma firstn_add {A : Type} (a b : nat) (l : list A) :
  firstn (a + b) l = (firstn a l ++ firstn b (skipn a l))%list.
Proof.
  revert l. induction a as [|a IH]; intros l; [reflexivity|].
  destruct l as [|x l]; cbn [Nat.add firstn skipn app].
  - now rewrite firstn_nil.
  - now rewrite IH.
Qed.

Lemma sql_select_inversion (rank : Row -> Z) (filters : NOTAMQueryFilters) (d : DB) :
  forall res d', sql_select rank filters d = (res, d') ->
    d' = d /\
    forall page, res = inl page ->
      0 <= limit_of filters /\ 0 <= offset_of filters /\
      page = firstn (Z.to_nat (limit_of filters))
               (skipn (Z.to_nat (offset_of filters))
                  (order_by_effective_start_desc rank (selected_by_query filters d))).
Proof.
  intros res d'. unfold sql_select.
  destruct (limit_of filters <? 0) eqn:El; [intros [= <- <-]; now split|].
  destruct (offset_of filters <? 0) eqn:Eo; [intros [= <- <-]; now split|].
  apply Z.ltb_ge in El. apply Z.ltb_ge in Eo.
  intros [= <- <-]. split; [reflexivity|]. intros page [= <-]. now repeat split.
Qed.

Lemma findByFilters_inversion (filters : NOTAMQueryFilters) (w w' : World)
    (page : list Row) :
  findByFilters filters w = (inl page, w') ->
  db w' = db w /\
  0 <= limit_of filters /\ 0 <= offset_of filters /\
  page = firstn (Z.to_nat (limit_of filters))
           (skipn (Z.to_nat (offset_of filters))
              (order_by_effective_start_desc (tiebreak w filters)
                 (selected_by_query filters (db w)))).
Proof.
  intros H. unfold findByFilters in H.
  assert (Hstmt : forall d e d',
            sql_select (tiebreak w filters) filters d = (inr e, d') -> d' = d)
    by (intros d e d' E; now apply sql_select_inversion in E).
  pose proof (pool_query_db (sql_select (tiebreak w filters) filters) w Hstmt _ _ H)
    as Hdb.
  cbn in Hdb.
  destruct (sql_select_inversion (tiebreak w filters) filters (db w) _ _ Hdb)
    as [Hd Hpage].
  split; [exact Hd|]. now apply Hpage.
Qed.

Lemma where_clause_query (filters : NOTAMQueryFilters) (r : Row) :
  where_clause (query_conditions filters) r = true ->
  (forall l, f_location filters = Some l -> l <> "" -> icao_location (cols r) = l) /\
  (forall t, f_start filters = Some t ->
     effective_end (cols r) = None \/
     exists e, effective_end (cols r) = Some e /\ t <= e) /\
  (forall t, f_end filters = Some t -> effective_start (cols r) <= t) /\
  (forall p, f_purpose filters = Some p -> p <> "" -> purpose (cols r) = Some p) /\
  (forall p, f_scope filters = Some p -> p <> "" -> scope (cols r) = Some p).
Proof.
  unfold where_clause, query_conditions. rewrite !forallb_app.
  intros H. repeat (apply andb_prop in H as [? H]).
  repeat split.
  - intros l Hl Hne. rewrite Hl in *. cbn [truthy_string] in *.
    apply String.eqb_neq in Hne. rewrite Hne in *. cbn in *.
    rewrite andb_true_r in *. now apply String.eqb_eq.
  - intros t Ht. rewrite Ht in *. cbn in *.
    destruct (effective_end (cols r)) as [e|]; [right|now left].
    exists e. split; [reflexivity|].
    rewrite andb_true_r, Z.geb_leb in *. now apply Z.leb_le.
  - intros t Ht. rewrite Ht in *. cbn in *.
    rewrite andb_true_r in *. now apply Z.leb_le.
  - intros p Hp Hne. rewrite Hp in *. cbn [truthy_string] in *.
    apply String.eqb_neq in Hne. rewrite Hne in *. cbn in *.
    rewrite andb_true_r in *.
    destruct (purpose (cols r)) as [c|]; [|discriminate].
    cbn in *. f_equal. now apply String.eqb_eq.
  - intros p Hp Hne. rewrite Hp in *. cbn [truthy_string] in *.
    apply String.eqb_neq in Hne. rewrite Hne in *. cbn in *.
    rewrite andb_true_r in *.
    destruct (scope (cols r)) as [c|]; [|discriminate].
    cbn in *. f_equal. now apply String.eqb_eq.
Qed.

(** Every row [findByFilters] returns is a row of the table and passes each
    filter that is set: the location, the lower bound on the end (a row
    without end passes), the upper bound on the start, the purpose and the
    scope. *)
Theorem findByFilters_sound (filters : NOTAMQueryFilters) (w w' : World)
    (page : list Row) (r : Row) :
  findByFilters filters w = (inl page, w') ->
  In r page ->
  In r (rows (db w)) /\
  (forall l, f_location filters = Some l -> l <> "" -> icao_location (cols r) = l) /\
  (forall t, f_start filters = Some t ->
     effective_end (cols r) = None \/
     exists e, effective_end (cols r) = Some e /\ t <= e) /\
  (forall t, f_end filters = Some t -> effective_start (cols r) <= t) /\
  (forall p, f_purpose filters = Some p -> p <> "" -> purpose (cols r) = Some p) /\
  (forall p, f_scope filters = Some p -> p <> "" -> scope (cols r) = Some p).
Proof.
  intros H Hin. apply findByFilters_inversion in H as (_ & _ & _ & ->).
  apply In_firstn, In_skipn in Hin. apply (proj1 (order_In _ _ _)) in Hin.
  unfold selected_by_query in Hin. apply filter_In in Hin as [Hin Hw].
  split; [exact Hin|]. now apply where_clause_query.
Qed.


(** Pages tile where the sort key decides: on a table in which no two rows
    that pass the filters start at the same time, whatever the server's
    ranking of equal keys for each of the three statements, the page of [l1]
    rows at offset [o] followed by the page of [l2] rows at offset [o + l1]
    is the page of [l1 + l2] rows at offset [o]; no row is skipped or
    repeated between pages. *)
Theorem findByFilters_pages_tile (filters : NOTAMQueryFilters) (w : World)
    (l1 l2 o : Z) :
  next_fault w = None -> 0 < l1 -> 0 < l2 -> 0 <= o ->
  no_ties filters (db w) ->
  exists p1 p2 p12,
    fst (findByFilters (with_page filters l1 o) w) = inl p1 /\
    fst (findByFilters (with_page filters l2 (o + l1)) w) = inl p2 /\
    fst (findByFilters (with_page filters (l1 + l2) o) w) = inl p12 /\
    (p1 ++ p2)%list = p12.
Proof.
  intros Hnf H1 H2 Ho Hties.
  assert (Hlim : forall l off, 0 < l -> limit_of (with_page filters l off) = l).
  { intros l off Hl. unfold limit_of, with_page. cbn.
    destruct (l =? 0) eqn:E; [apply Z.eqb_eq in E; lia|reflexivity]. }
  assert (Hoff : forall l off, offset_of (with_page filters l off) = off).
  { intros l off. unfold offset_of, with_page, or_zero. cbn.
    destruct (off =? 0) eqn:E; [apply Z.eqb_eq in E; lia|reflexivity]. }
  assert (Hrun : forall l off, 0 < l -> 0 <= off ->
            fst (findByFilters (with_page filters l off) w) =
            inl (firstn (Z.to_nat l)
                   (skipn (Z.to_nat off)
                      (order_by_effective_start_desc (tiebreak w filters)
                         (selected_by_query filters (db w)))))).
  { intros l off Hl Hoff0. unfold findByFilters.
    rewrite pool_query_no_fault by assumption. cbn [fst].
    unfold sql_select. rewrite Hlim, Hoff by assumption.
    replace (l <? 0) with false by (symmetry; apply Z.ltb_ge; lia).
    replace (off <? 0) with false by (symmetry; apply Z.ltb_ge; lia).
    cbn [fst].
    change (filter (where_clause (query_conditions (with_page filters l off)))
              (rows (db w)))
      with (selected_by_query filters (db w)).
    now rewrite (order_no_ties (tiebreak w (with_page filters l off))
                   (tiebreak w filters) _ Hties). }
  eexists _, _, _.
  split; [apply Hrun; lia|]. split; [apply Hrun; lia|]. split; [apply Hrun; lia|].
  replace (Z.to_nat (l1 + l2)) with (Z.to_nat l1 + Z.to_nat l2)%nat by lia.
  replace (Z.to_nat (o + l1)) with (Z.to_nat l1 + Z.to_nat o)%nat by lia.
  now rewrite firstn_add, skipn_skipn.
Qed.

Lemma filter_length_implies {A : Type} (p q : A -> bool) (l : list A) :
  (forall x, p x = true -> q x = true) ->
  (List.length (filter p l) <= List.length (filter q l))%nat.
Proof.
  intros Hpq. induction l as [|a l IH]; [reflexivity|]. cbn [filter].
  destruct (p a) eqn:Ep.
  - rewrite (Hpq a Ep). cbn [List.length]. lia.
  - destruct (q a); cbn [List.length]; lia.
Qed.

(** The total never under-reports: a [count] made after [findByFilters]
    with the same filters answers at least the number of rows of the page,
    and at most the number of rows of the table. *)
Theorem count_covers_page (filters : NOTAMQueryFilters) (w w1 w2 : World)
    (page : list Row) (total : Z) :
  findByFilters filters w = (inl page, w1) ->
  count (Some filters) w1 = (inl total, w2) ->
  Z.of_nat (List.length page) <= total <= Z.of_nat (List.length (rows (db w))).
Proof.
  intros Hq Hc. apply findByFilters_inversion in Hq as (Hdb & _ & _ & ->).
  unfold count in Hc.
  assert (Hstmt : forall d e d', sql_count (Some filters) d = (inr e, d') -> d' = d)
    by (intros d e d'; discriminate).
  pose proof (pool_query_db (sql_count (Some filters)) w1 Hstmt _ _ Hc) as H.
  cbn in H. injection H as <- _. rewrite Hdb. split.
  - apply Nat2Z.inj_le.
    rewrite length_firstn, length_skipn, order_length.
    pose proof (filter_length_implies
                  (where_clause (query_conditions filters))
                  (where_clause (count_conditions (Some filters)))
                  (rows (db w))) as Hle.
    unfold selected_by_query.
    assert (Himp : forall x, where_clause (query_conditions filters) x = true ->
                             where_clause (count_conditions (Some filters)) x = true).
    { intros x. unfold where_clause, query_conditions, count_conditions.
      rewrite !forallb_app. intros Hx.
      repeat (apply andb_prop in Hx as [? Hx]).
      repeat (apply andb_true_intro; split); assumption. }
    specialize (Hle Himp). eapply Nat.le_trans; [|exact Hle]. lia.
  - apply Nat2Z.inj_le, filter_length_le.
Qed.

End QueryFacts.

Lemma findByFilters_sound_witness :
  NOTAMModel.findByFilters Examples.purpose_N Examples.two_purposes
    = (inl [Examples.stored 1 (Examples.kjfk "A1/25" "RWY CLSD" (Some "N") None)],
       Examples.two_purposes) /\
  NOTAMModel.purpose
    (NOTAMModel.cols (Examples.stored 1 (Examples.kjfk "A1/25" "RWY CLSD" (Some "N") None)))
    = Some "N" /\
  In (Examples.stored 1 (Examples.kjfk "A1/25" "RWY CLSD" (Some "N") None))
     (NOTAMModel.rows (NOTAMModel.db Examples.two_purposes)).
Proof.
  destruct (findByFilters_sound Examples.purpose_N Examples.two_purposes
              Examples.two_purposes _ _ eq_refl (or_introl eq_refl))
    as (Hin & _ & _ & _ & Hp & _).
  split; [reflexivity|]. split; [|exact Hin].
  apply (Hp "N" eq_refl). discriminate.
Defined.


Lemma findByFilters_pages_tile_witness :
  NOTAMModel.next_fault Examples.three_starts = None /\
  0 < 1 /\ 0 < 2 /\ 0 <= 0 /\
  NOTAMModel.no_ties Examples.location_KJFK (NOTAMModel.db Examples.three_starts) /\
  exists p1 p2 p12,
    fst (NOTAMModel.findByFilters
           (NOTAMModel.with_page Examples.location_KJFK 1 0) Examples.three_starts)
      = inl p1 /\
    fst (NOTAMModel.findByFilters
           (NOTAMModel.with_page Examples.location_KJFK 2 (0 + 1)) Examples.three_starts)
      = inl p2 /\
    fst (NOTAMModel.findByFilters
           (NOTAMModel.with_page Examples.location_KJFK (1 + 2) 0) Examples.three_starts)
      = inl p12 /\
    (p1 ++ p2)%list = p12.
Proof.
  assert (H1 : 0 < 1) by lia. assert (H2 : 0 < 2) by lia.
  assert (H0 : 0 <= 0) by lia.
  assert (Ht : NOTAMModel.no_ties Examples.location_KJFK
                 (NOTAMModel.db Examples.three_starts)).
  { unfold NOTAMModel.no_ties. cbn.
    repeat constructor; cbn; intuition discriminate. }
  split; [reflexivity|]. split; [exact H1|]. split; [exact H2|]. split; [exact H0|].
  split; [exact Ht|].
  exact (findByFilters_pages_tile Examples.location_KJFK Examples.three_starts
           1 2 0 eq_refl H1 H2 H0 Ht).
Defined.

(** Without that, pages need not tile: on two rows that start together, a
    server that ranks them one way for a page of one row and the other way
    for a page of two returns the rows 1 and 2 on the two pages of one, and
    2 before 1 on the page of two. *)
Example pages_on_tied_rows :
  fst (NOTAMModel.findByFilters
         (NOTAMModel.with_page Examples.location_KJFK 1 0) Examples.tied_rows)
    = inl [Examples.stored 1 (Examples.kjfk "A1/25" "FIRST" None None)] /\
  fst (NOTAMModel.findByFilters
         (NOTAMModel.with_page Examples.location_KJFK 1 1) Examples.tied_rows)
    = inl [Examples.stored 2 (Examples.kjfk "A2/25" "SECOND" None None)] /\
  fst (NOTAMModel.findByFilters
         (NOTAMModel.with_page Examples.location_KJFK 2 0) Examples.tied_rows)
    = inl [Examples.stored 2 (Examples.kjfk "A2/25" "SECOND" None None);
           Examples.stored 1 (Examples.kjfk "A1/25" "FIRST" None None)].
Proof. repeat split; reflexivity. Qed.

Lemma count_covers_page_witness :
  NOTAMModel.findByFilters Examples.purpose_N Examples.two_purposes
    = (inl [Examples.stored 1 (Examples.kjfk "A1/25" "RWY CLSD" (Some "N") None)],
       Examples.two_purposes) /\
  NOTAMModel.count (Some Examples.purpose_N) Examples.two_purposes
    = (inl 2, Examples.two_purposes) /\
  Z.of_nat (List.length
              [Examples.stored 1 (Examples.kjfk "A1/25" "RWY CLSD" (Some "N") None)])
    <= 2 <= Z.of_nat (List.length (NOTAMModel.rows (NOTAMModel.db Examples.two_purposes))).
Proof.
  split; [reflexivity|]. split; [reflexivity|].
  exact (count_covers_page Examples.purpose_N Examples.two_purposes
           Examples.two_purposes Examples.two_purposes _ 2 eq_refl eq_refl).
Defined.

Section PruneFacts.

Import NOTAMModel.

Lemma deleteExpired_inversion (now olderThanDays : Z) (w w' : World) (n : Z) :
  deleteExpired now olderThanDays w = (inl n, w') ->
  n = Z.of_nat (List.length (filter (expired now olderThanDays) (rows (db w)))) /\
  db w' = {| rows := filter (fun r => negb (expired now olderThanDays r)) (rows (db w));
             next_id := next_id (db w) |}.
Proof.
  unfold deleteExpired.
  destruct (pool_query (sql_delete_expired now olderThanDays) w) as [[c|e] w1] eqn:Epq;
    [|discriminate].
  intros [= <- <-].
  assert (Hstmt : forall d e d',
            sql_delete_expired now olderThanDays d = (inr e, d') -> d' = d)
    by (intros d e d'; discriminate).
  pose proof (pool_query_db _ w Hstmt _ _ Epq) as H. cbn in H.
  injection H as <- <-. split; [|reflexivity].
  unfold or_zero.
  destruct (Z.of_nat (List.length (filter (expired now olderThanDays) (rows (db w)))) =? 0)
    eqn:E; [apply Z.eqb_eq in E; lia|reflexivity].
Qed.

Lemma filter_all {A : Type} (p : A -> bool) (l : list A) :
  (forall x, In x l -> p x = true) -> filter p l = l.
Proof.
  induction l as [|a l IH]; intros H; [reflexivity|]. cbn [filter].
  rewrite (H a) by now left. f_equal. apply IH. intros x Hx. apply H. now right.
Qed.

Lemma filter_none {A : Type} (p : A -> bool) (l : list A) :
  (forall x, In x l -> p x = false) -> filter p l = [].
Proof.
  induction l as [|a l IH]; intros H; [reflexivity|]. cbn [filter].
  rewrite (H a) by now left. apply IH. intros x Hx. apply H. now right.
Qed.

(** Pruning twice removes nothing the second time: after a [deleteExpired],
    another one whose cutoff is not later removes no row, returns 0 and leaves
    the table as the first one left it. *)
Theorem deleteExpired_again (now1 days1 now2 days2 : Z) (w w1 w2 : World)
    (n1 n2 : Z) :
  deleteExpired now1 days1 w = (inl n1, w1) ->
  deleteExpired now2 days2 w1 = (inl n2, w2) ->
  now2 - 86400000 * days2 <= now1 - 86400000 * days1 ->
  n2 = 0 /\ db w2 = db w1.
Proof.
  intros H1 H2 Hcut.
  apply deleteExpired_inversion in H1 as [_ Hdb1].
  apply deleteExpired_inversion in H2 as [-> Hdb2].
  assert (Hnone : forall x, In x (rows (db w1)) -> expired now2 days2 x = false).
  { intros x Hx. rewrite Hdb1 in Hx. cbn [rows] in Hx.
    apply filter_In in Hx as [_ Hx]. apply negb_true_iff in Hx.
    unfold expired, day_ms in *.
    destruct (effective_end (cols x)) as [e|]; [|reflexivity].
    apply Z.ltb_ge in Hx. apply Z.ltb_ge. lia. }
  rewrite Hdb2. rewrite (filter_none _ _ Hnone). split; [reflexivity|].
  rewrite filter_all by (intros x Hx; now rewrite (Hnone x Hx)).
  now destruct (db w1).
Qed.

(** Pruning keeps the [UNIQUE] constraint and never touches the sequence of
    row ids. *)
Theorem deleteExpired_keeps_constraints (now olderThanDays : Z) (w w' : World)
    (n : Z) :
  unique_notam_ids (db w) ->
  deleteExpired now olderThanDays w = (inl n, w') ->
  unique_notam_ids (db w') /\ next_id (db w') = next_id (db w).
Proof.
  unfold unique_notam_ids. intros Hu H.
  apply deleteExpired_inversion in H as [_ ->]. cbn [rows next_id].
  split; [|reflexivity].
  induction (rows (db w)) as [|a l IH]; [constructor|].
  cbn [map] in Hu. apply NoDup_cons_iff in Hu as [Hnotin Hu].
  cbn [filter]. destruct (negb (expired now olderThanDays a)); [|now apply IH].
  cbn [map]. constructor; [|now apply IH].
  intros Hin. apply Hnotin. apply in_map_iff in Hin as (x & Hx & Hin).
  apply filter_In in Hin as [Hin _]. rewrite <- Hx.
  now apply (in_map (fun r => notam_id (cols r))).
Qed.

End PruneFacts.

Lemma deleteExpired_again_witness :
  NOTAMModel.deleteExpired 10000000000 30 Examples.three_ends
    = (inl 1, Examples.three_ends_pruned) /\
  NOTAMModel.deleteExpired 10000000000 30 Examples.three_ends_pruned
    = (inl 0, Examples.three_ends_pruned) /\
  10000000000 - 86400000 * 30 <= 10000000000 - 86400000 * 30 /\
  NOTAMModel.db Examples.three_ends_pruned = NOTAMModel.db Examples.three_ends_pruned.
Proof.
  assert (Hc : 10000000000 - 86400000 * 30 <= 10000000000 - 86400000 * 30) by lia.
  split; [reflexivity|]. split; [reflexivity|]. split; [exact Hc|].
  exact (proj2 (deleteExpired_again 10000000000 30 10000000000 30
                  Examples.three_ends Examples.three_ends_pruned
                  Examples.three_ends_pruned 1 0 eq_refl eq_refl Hc)).
Defined.

Lemma deleteExpired_keeps_constraints_witness :
  NOTAMModel.unique_notam_ids (NOTAMModel.db Examples.three_ends) /\
  NOTAMModel.deleteExpired 10000000000 30 Examples.three_ends
    = (inl 1, Examples.three_ends_pruned) /\
  NOTAMModel.unique_notam_ids (NOTAMModel.db Examples.three_ends_pruned) /\
  NOTAMModel.next_id (NOTAMModel.db Examples.three_ends_pruned) = 4.
Proof.
  assert (Hu : NOTAMModel.unique_notam_ids (NOTAMModel.db Examples.three_ends)).
  { unfold NOTAMModel.unique_notam_ids. cbn.
    repeat constructor; cbn; intuition discriminate. }
  split; [exact Hu|]. split; [reflexivity|].
  exact (deleteExpired_keeps_constraints 10000000000 30 Examples.three_ends
           Examples.three_ends_pruned 1 Hu eq_refl).
Defined.

(** * Further properties of the parser *)

Section XmlRecordFacts.

Import NOTAMModel NOTAMParser.

Variable xml_parse : string -> option JSValue.
Variable Date_parse : string -> option Z.

Lemma or_string_nonempty (o : option string) (d : string) :
  d <> "" -> or_string o d <> "".
Proof.
  intros Hd. unfold or_string. destruct o as [s|]; [|exact Hd].
  destruct (String.eqb s "") eqn:E; [exact Hd|]. now apply String.eqb_neq.
Qed.

Lemma or_null_nonempty (o : option string) : or_null o <> Some "".
Proof.
  unfold or_null. destruct o as [s|]; [|discriminate].
  destruct (String.eqb s "") eqn:E; [discriminate|].
  apply String.eqb_neq in E. congruence.
Qed.

(** Every record of the structured path carries the raw XML it came from,
    has no schedule, and has neither an empty identifier nor an empty
    location; its purpose, scope and traffic type are null or not empty. *)
Theorem parseAIXMMessage_record (now : Z) (xmlString : string) (notam : NOTAM) :
  parseAIXMMessage xml_parse Date_parse now xmlString = Some notam ->
  raw_message notam = Some xmlString /\
  schedule notam = None /\
  notam_id notam <> "" /\
  icao_location notam <> "" /\
  purpose notam <> Some "" /\
  scope notam <> Some "" /\
  traffic_type notam <> Some "".
Proof.
  intros H. apply parseAIXMMessage_inversion in H as (parsed & ets & _ & _ & H).
  apply extractNOTAMFromData_inversion in H
    as (series & number & year & window & location & text & qLine & p & s & t
        & _ & _ & _ & _ & _ & _ & _ & _ & _ & _ & ->).
  cbn [raw_message schedule notam_id icao_location purpose scope traffic_type].
  repeat split; try apply or_null_nonempty.
  - destruct (or_string series "") as [|c series'] eqn:Es; [discriminate|].
    cbn [String.eqb negb andb].
    match goal with
    | |- (if ?b then _ else _) <> _ => destruct b; discriminate
    end.
  - apply or_string_nonempty. discriminate.
Qed.

Lemma extractField_first (data : JSValue) (name : string) (rest : list string) :
  includes name "." = false -> includes name ":" = false ->
  truthy (prop data name) = true ->
  extractField data (name :: rest) =
  (s <- js_String (prop data name) ;; inl (Some s)).
Proof.
  intros Hdot Hcolon Ht.
  assert (Hfv : field_value data name = prop data name).
  { unfold field_value. rewrite Hdot, Hcolon. unfold js_or at 1. now rewrite Ht. }
  cbn [extractField]. cbv zeta. rewrite Hfv.
  destruct (prop data name); try discriminate; reflexivity.
Qed.

(** The identifier of a record of the structured path.  With series, number
    and year present under their plain keys and converting to text that is
    not empty, it is [series ++ number ++ "/" ++ year], each in the text
    [String()] gives it; with the series, the number or the year under none
    of its keys, it is ["UNKNOWN"]. *)
Theorem parseAIXMMessage_identifier (now : Z) (xmlString : string)
    (parsed eventTimeSlice : JSValue) (notam : NOTAM) :
  xml_parse xmlString = Some parsed ->
  navigate parsed = Some eventTimeSlice ->
  parseAIXMMessage xml_parse Date_parse now xmlString = Some notam ->
  (forall series number year,
     truthy (prop (notamData_of eventTimeSlice) "series") = true ->
     truthy (prop (notamData_of eventTimeSlice) "number") = true ->
     truthy (prop (notamData_of eventTimeSlice) "year") = true ->
     js_String (prop (notamData_of eventTimeSlice) "series") = inl series ->
     js_String (prop (notamData_of eventTimeSlice) "number") = inl number ->
     js_String (prop (notamData_of eventTimeSlice) "year") = inl year ->
     series <> "" -> number <> "" -> year <> "" ->
     notam_id notam = series ++ number ++ "/" ++ year) /\
  (absent (notamData_of eventTimeSlice) (flat_map candidates series_names) \/
   absent (notamData_of eventTimeSlice) (flat_map candidates number_names) \/
   absent (notamData_of eventTimeSlice) (flat_map candidates year_names) ->
   notam_id notam = "UNKNOWN").
Proof.
  intros Hparse Hnav H.
  apply parseAIXMMessage_inversion in H as (parsed' & ets & Hparse' & Hnav' & H).
  assert (ets = eventTimeSlice) as -> by congruence.
  set (data := notamData_of eventTimeSlice) in *.
  apply extractNOTAMFromData_inversion in H
    as (series & number & year & window & location & text & qLine & p & s & t
        & Hseries & Hnumber & Hyear & _ & _ & _ & _ & _ & _ & _ & ->).
  cbn [notam_id]. split.
  - intros series' number' year' Hs Hn Hy Hs' Hn' Hy' Hse Hne Hye.
    unfold series_names, number_names, year_names in *.
    rewrite (extractField_first data "series") in Hseries
      by first [assumption|vm_compute; reflexivity].
    rewrite (extractField_first data "number") in Hnumber
      by first [assumption|vm_compute; reflexivity].
    rewrite (extractField_first data "year") in Hyear
      by first [assumption|vm_compute; reflexivity].
    rewrite Hs' in Hseries. rewrite Hn' in Hnumber. rewrite Hy' in Hyear.
    cbn [JS.bind] in *.
    injection Hseries as <-. injection Hnumber as <-. injection Hyear as <-.
    unfold or_string.
    apply String.eqb_neq in Hse. apply String.eqb_neq in Hne.
    apply String.eqb_neq in Hye. rewrite Hse, Hne, Hye. cbv iota.
    rewrite Hse, Hne, Hye. reflexivity.
  - intros [Ha|[Ha|Ha]].
    + rewrite (extractField_absent data series_names eq_refl Ha) in Hseries.
      injection Hseries as <-. reflexivity.
    + rewrite (extractField_absent data number_names eq_refl Ha) in Hnumber.
      injection Hnumber as <-.
      cbn [or_string String.eqb negb andb]. now rewrite andb_false_r.
    + rewrite (extractField_absent data year_names eq_refl Ha) in Hyear.
      injection Hyear as <-.
      cbn [or_string String.eqb negb andb]. now rewrite !andb_false_r.
Qed.

End XmlRecordFacts.

Lemma parseAIXMMessage_record_witness :
  exists notam,
    NOTAMParser.parseAIXMMessage
      (Examples.parses_to (Examples.around Examples.slice_without_location))
      Examples.no_Date_parse 1000 Examples.xml_without_location = Some notam /\
    NOTAMModel.raw_message notam = Some Examples.xml_without_location /\
    NOTAMModel.icao_location notam <> "".
Proof.
  eexists. split; [reflexivity|].
  destruct (parseAIXMMessage_record
              (Examples.parses_to (Examples.around Examples.slice_without_location))
              Examples.no_Date_parse 1000 Examples.xml_without_location _ eq_refl)
    as (H1 & _ & _ & H2 & _).
  split; [exact H1|exact H2].
Defined.

Lemma parseAIXMMessage_identifier_witness :
  Examples.parses_to (Examples.around Examples.slice_complete) Examples.xml_complete
    = Some (Examples.around Examples.slice_complete) /\
  NOTAMParser.navigate (Examples.around Examples.slice_complete)
    = Some Examples.slice_complete /\
  NOTAMParser.prop (NOTAMParser.notamData_of Examples.slice_complete) "number"
    = NOTAMParser.JNumber "1.2345678901234568e+22" /\
  exists notam,
    NOTAMParser.parseAIXMMessage
      (Examples.parses_to (Examples.around Examples.slice_complete))
      Examples.iso_Date_parse 1000 Examples.xml_complete = Some notam /\
    NOTAMModel.notam_id notam = "A1.2345678901234568e+22/2025".
Proof.
  split; [reflexivity|]. split; [reflexivity|]. split; [reflexivity|].
  eexists. split; [reflexivity|].
  destruct (parseAIXMMessage_identifier
              (Examples.parses_to (Examples.around Examples.slice_complete))
              Examples.iso_Date_parse 1000 Examples.xml_complete _ _ _
              eq_refl eq_refl eq_refl) as (Hid & _).
  apply (Hid "A" "1.2345678901234568e+22" "2025");
    first [reflexivity | discriminate].
Defined.


Section TextRecordFacts.

Import NOTAMModel NOTAMParser.

Variable Date_parse : string -> option Z.
Variable now : Z.

Lemma digit_not_space (c : ascii) : is_digit c = true -> is_space c = false.
Proof.
  unfold is_digit, is_space. cbv zeta. intros H.
  apply andb_prop in H as [H1 H2].
  apply Nat.leb_le in H1. apply Nat.leb_le in H2.
  apply orb_false_iff. split; [apply orb_false_iff; split|].
  - apply andb_false_iff. right. apply Nat.leb_gt. lia.
  - apply Nat.eqb_neq. lia.
  - apply Nat.eqb_neq. lia.
Qed.

Lemma first_token_no_space (s : string) (c : ascii) :
  In c (list_ascii_of_string (first_token s)) -> is_space c = false.
Proof.
  induction s as [|a s IH]; cbn [first_token]; [intros []|].
  destruct (is_space a) eqn:E; [intros []|].
  cbn [list_ascii_of_string In]. intros [<-|H]; [exact E|now apply IH].
Qed.

Lemma skip_digits_first_token (r : string) (x : ascii) (y : string) :
  skip_digits r = String x y -> is_space x = false ->
  skip_digits (first_token r) = String x (first_token y).
Proof.
  induction r as [|c r IH]; [discriminate|]. cbn [skip_digits].
  destruct (is_digit c) eqn:Ed.
  - intros H Hx. cbn [first_token]. rewrite (digit_not_space c Ed).
    cbn [skip_digits]. rewrite Ed. now apply IH.
  - intros [= <- <-] Hx. cbn [first_token]. rewrite Hx.
    cbn [skip_digits]. now rewrite Ed.
Qed.

Lemma first_token_matches (line : string) :
  matches_notam_id line = true -> matches_notam_id (first_token line) = true.
Proof.
  destruct line as [|c rest]; [discriminate|]. cbn [matches_notam_id].
  intros H. apply andb_prop in H as [Hu H].
  cbn [first_token]. rewrite (upper_not_space c Hu). cbn [matches_notam_id].
  rewrite Hu. cbn [andb].
  destruct rest as [|d r1]; [discriminate|]. cbn [digits1] in *.
  destruct (is_digit d) eqn:Ed; [|discriminate].
  cbn [first_token]. rewrite (digit_not_space d Ed). cbn [digits1]. rewrite Ed.
  destruct (skip_digits r1) as [|x rest'] eqn:Es; [discriminate|].
  destruct (Ascii.eqb x "/") eqn:Ex.
  - apply Ascii.eqb_eq in Ex. subst x.
    rewrite (skip_digits_first_token r1 "/" rest' Es eq_refl).
    destruct rest' as [|d' r2]; [discriminate|]. cbn [digits1] in *.
    destruct (is_digit d') eqn:Ed'; [|discriminate].
    cbn [first_token]. rewrite (digit_not_space d' Ed'). cbn [digits1].
    now rewrite Ed'.
  - exfalso. apply Ascii.eqb_neq in Ex. revert H.
    destruct x as [[] [] [] [] [] [] [] []]; try discriminate.
    now elim Ex.
Qed.

Lemma take_length (n : nat) (s : string) : (String.length (take n s) <= n)%nat.
Proof.
  revert s. induction n as [|n IH]; intros [|c s]; cbn; try lia.
  specialize (IH s). lia.
Qed.

Lemma fold_notam_id (lines : list string) :
  forall notam,
    (p_notam_id notam = None ->
     p_notam_id (fold_left (process_line Date_parse now) lines notam)
     = option_map first_token (find matches_notam_id lines)) /\
    (truthy_string (p_notam_id notam) = true ->
     p_notam_id (fold_left (process_line Date_parse now) lines notam)
     = p_notam_id notam).
Proof.
  induction lines as [|x lines IH]; intros notam; cbn [fold_left find];
    [split; [now intros ->|reflexivity]|].
  pose proof (process_line_notam_id Date_parse now notam x) as Hstep.
  destruct (IH (process_line Date_parse now notam x)) as [IHnone IHsome].
  split.
  - intros Hnone. rewrite Hnone in Hstep. cbn [truthy_string negb andb] in Hstep.
    destruct (matches_notam_id x) eqn:Em.
    + rewrite (matches_not_tagged x Em) in Hstep.
      rewrite IHsome; rewrite Hstep; [reflexivity|].
      cbn [truthy_string]. apply negb_true_iff, String.eqb_neq.
      now apply matches_first_token.
    + apply IHnone. rewrite Hstep. now destruct (tagged x).
  - intros Hsome. rewrite Hsome in Hstep. cbn [negb andb] in Hstep.
    rewrite IHsome; rewrite Hstep; now destruct (tagged x).
Qed.

Lemma fold_last_with {A : Type} (g : PartialNOTAM -> A) (tag : string)
    (v : string -> A) :
  (forall notam line,
     g (process_line Date_parse now notam line) =
     if startsWith line tag then v line else g notam) ->
  forall lines notam,
    g (fold_left (process_line Date_parse now) lines notam) =
    match last_with tag lines with
    | Some line => v line
    | None => g notam
    end.
Proof.
  intros Hstep. unfold last_with.
  induction lines as [|x lines IH]; intros notam; [reflexivity|].
  cbn [fold_left rev]. rewrite IH, find_app_first.
  destruct (find (fun l => startsWith l tag) (rev lines)); [reflexivity|].
  rewrite Hstep. cbn [find]. now destruct (startsWith x tag).
Qed.

Ltac other_tag H c1 c2 :=
  rewrite (tags_exclusive c1 c2 _ ltac:(discriminate) H).

Lemma process_line_effective_start_value (notam : PartialNOTAM) (line : string) :
  p_effective_start (process_line Date_parse now notam line) =
  if startsWith line "B)"
  then Some match parseDate Date_parse (Some (trim (drop 2 line))) with
            | Some d => d
            | None => now
            end
  else p_effective_start notam.
Proof.
  unfold process_line.
  destruct (startsWith line "A)") eqn:EA; [now other_tag EA "A"%char "B"%char|].
  destruct (startsWith line "B)"); [reflexivity|].
  destruct (startsWith line "C)"); [reflexivity|].
  destruct (startsWith line "D)"); [reflexivity|].
  destruct (startsWith line "E)"); [reflexivity|].
  now destruct (negb (truthy_string (p_notam_id notam)) && matches_notam_id line).
Qed.

Lemma process_line_effective_end (notam : PartialNOTAM) (line : string) :
  p_effective_end (process_line Date_parse now notam line) =
  if startsWith line "C)"
  then Some (parseDate Date_parse (Some (trim (drop 2 line))))
  else p_effective_end notam.
Proof.
  unfold process_line.
  destruct (startsWith line "A)") eqn:EA; [now other_tag EA "A"%char "C"%char|].
  destruct (startsWith line "B)") eqn:EB; [now other_tag EB "B"%char "C"%char|].
  destruct (startsWith line "C)"); [reflexivity|].
  destruct (startsWith line "D)"); [reflexivity|].
  destruct (startsWith line "E)"); [reflexivity|].
  now destruct (negb (truthy_string (p_notam_id notam)) && matches_notam_id line).
Qed.

Lemma process_line_schedule (notam : PartialNOTAM) (line : string) :
  p_schedule (process_line Date_parse now notam line) =
  if startsWith line "D)" then Some (trim (drop 2 line)) else p_schedule notam.
Proof.
  unfold process_line.
  destruct (startsWith line "A)") eqn:EA; [now other_tag EA "A"%char "D"%char|].
  destruct (startsWith line "B)") eqn:EB; [now other_tag EB "B"%char "D"%char|].
  destruct (startsWith line "C)") eqn:EC; [now other_tag EC "C"%char "D"%char|].
  destruct (startsWith line "D)"); [reflexivity|].
  destruct (startsWith line "E)"); [reflexivity|].
  now destruct (negb (truthy_string (p_notam_id notam)) && matches_notam_id line).
Qed.

Lemma process_line_notam_text (notam : PartialNOTAM) (line : string) :
  p_notam_text (process_line Date_parse now notam line) =
  if startsWith line "E)" then trim (drop 2 line) else p_notam_text notam.
Proof.
  unfold process_line.
  destruct (startsWith line "A)") eqn:EA; [now other_tag EA "A"%char "E"%char|].
  destruct (startsWith line "B)") eqn:EB; [now other_tag EB "B"%char "E"%char|].
  destruct (startsWith line "C)") eqn:EC; [now other_tag EC "C"%char "E"%char|].
  destruct (startsWith line "D)") eqn:ED; [now other_tag ED "D"%char "E"%char|].
  destruct (startsWith line "E)"); [reflexivity|].
  now destruct (negb (truthy_string (p_notam_id notam)) && matches_notam_id line).
Qed.

Lemma process_line_raw_message (notam : PartialNOTAM) (line : string) :
  p_raw_message (process_line Date_parse now notam line) = p_raw_message notam.
Proof.
  unfold process_line.
  repeat match goal with
         | |- context [if ?b then _ else _] => destruct b; try reflexivity
         end.
Qed.

Lemma fold_raw_message (lines : list string) :
  forall notam,
    p_raw_message (fold_left (process_line Date_parse now) lines notam)
    = p_raw_message notam.
Proof.
  induction lines as [|x lines IH]; intros notam; [reflexivity|].
  cbn [fold_left]. now rewrite IH, process_line_raw_message.
Qed.

(** What [parseTextNOTAM] returns, field by field, in terms of the lines. *)
Lemma parseTextNOTAM_fields (text : string) (notam : NOTAM) :
  parseTextNOTAM Date_parse now text = Some notam ->
  (exists line, find matches_notam_id (lines_of text) = Some line /\
                notam_id notam = first_token line) /\
  (exists line, last_with "A)" (lines_of text) = Some line /\
                icao_location notam = take 10 (trim (drop 2 line))) /\
  (exists line, last_with "B)" (lines_of text) = Some line /\
                effective_start notam =
                match parseDate Date_parse (Some (trim (drop 2 line))) with
                | Some d => d
                | None => now
                end) /\
  effective_end notam =
    match last_with "C)" (lines_of text) with
    | Some line => parseDate Date_parse (Some (trim (drop 2 line)))
    | None => None
    end /\
  schedule notam =
    match last_with "D)" (lines_of text) with
    | Some line => Some (trim (drop 2 line))
    | None => None
    end /\
  notam_text notam =
    match last_with "E)" (lines_of text) with
    | Some line => trim (drop 2 line)
    | None => text
    end /\
  raw_message notam = Some text /\
  q_line notam = None /\ purpose notam = None /\
  scope notam = None /\ traffic_type notam = None /\
  icao_location notam <> "".
Proof.
  unfold parseTextNOTAM, process_lines.
  set (init := {| p_notam_id := None; p_icao_location := None;
                  p_effective_start := None; p_effective_end := None;
                  p_schedule := None; p_notam_text := text;
                  p_raw_message := text |}).
  set (final := fold_left (process_line Date_parse now) (lines_of text) init).
  pose proof (proj1 (fold_notam_id (lines_of text) init) eq_refl) as Hid.
  pose proof (fold_last_with p_icao_location "A)"
                (fun l => Some (take 10 (trim (drop 2 l))))
                (process_line_icao_location Date_parse now) (lines_of text) init) as Hloc.
  pose proof (fold_last_with p_effective_start "B)" _
                process_line_effective_start_value (lines_of text) init) as Hst.
  pose proof (fold_last_with p_effective_end "C)" _
                process_line_effective_end (lines_of text) init) as Hen.
  pose proof (fold_last_with p_schedule "D)" _
                process_line_schedule (lines_of text) init) as Hsch.
  pose proof (fold_last_with p_notam_text "E)" _
                process_line_notam_text (lines_of text) init) as Htxt.
  pose proof (fold_raw_message (lines_of text) init) as Hraw.
  fold final in Hid, Hloc, Hst, Hen, Hsch, Htxt, Hraw.
  cbn [init p_icao_location p_effective_start p_effective_end p_schedule
       p_notam_text p_raw_message] in Hloc, Hst, Hen, Hsch, Htxt, Hraw.
  unfold complete.
  destruct (p_notam_id final) as [i|]; [|discriminate].
  destruct (p_icao_location final) as [l|]; [|discriminate].
  destruct (p_effective_start final) as [t|]; [|discriminate].
  destruct (negb (String.eqb i "") && negb (String.eqb l "")) eqn:Eg; [|discriminate].
  intros [= <-].
  cbn [notam_id icao_location effective_start effective_end schedule notam_text
       raw_message q_line purpose scope traffic_type].
  apply andb_prop in Eg as [_ El]. apply negb_true_iff, String.eqb_neq in El.
  repeat split; try reflexivity.
  - destruct (find matches_notam_id (lines_of text)) as [line|]; [|discriminate].
    exists line. split; [reflexivity|]. cbn in Hid. congruence.
  - destruct (last_with "A)" (lines_of text)) as [line|]; [|discriminate].
    exists line. split; [reflexivity|]. congruence.
  - destruct (last_with "B)" (lines_of text)) as [line|]; [|discriminate].
    exists line. split; [reflexivity|]. congruence.
  - rewrite Hen. now destruct (last_with "C)" (lines_of text)).
  - exact Hsch.
  - exact Htxt.
  - now rewrite Hraw.
  - exact El.
Qed.

(** The identifier of a legacy text is the first token of the first line
    that matches the identifier pattern; it matches the pattern itself and
    holds no white space. *)
Theorem parseTextNOTAM_identifier (text : string) (notam : NOTAM) :
  parseTextNOTAM Date_parse now text = Some notam ->
  (exists line, find matches_notam_id (lines_of text) = Some line /\
                notam_id notam = first_token line) /\
  matches_notam_id (notam_id notam) = true /\
  (forall c, In c (list_ascii_of_string (notam_id notam)) -> is_space c = false).
Proof.
  intros H. apply parseTextNOTAM_fields in H as ((line & Hfind & Hid) & _).
  split; [now exists line|]. rewrite Hid. split.
  - apply first_token_matches. now apply find_some in Hfind.
  - intros c. apply first_token_no_space.
Qed.

(** For each tag the last line that carries it decides: the location is the
    text of the last [A)] line cut to ten characters, the start the date of
    the last [B)] line or the clock reading if that does not parse, the end
    the date of the last [C)] line, the schedule the text of the last [D)]
    line, the body the text of the last [E)] line; without a [C)] or [D)]
    line the end and the schedule are null, without an [E)] line the body is
    the whole input. *)
Theorem parseTextNOTAM_last_line_wins (text : string) (notam : NOTAM) :
  parseTextNOTAM Date_parse now text = Some notam ->
  (exists line, last_with "A)" (lines_of text) = Some line /\
                icao_location notam = take 10 (trim (drop 2 line))) /\
  (exists line, last_with "B)" (lines_of text) = Some line /\
                effective_start notam =
                match parseDate Date_parse (Some (trim (drop 2 line))) with
                | Some d => d
                | None => now
                end) /\
  effective_end notam =
    match last_with "C)" (lines_of text) with
    | Some line => parseDate Date_parse (Some (trim (drop 2 line)))
    | None => None
    end /\
  schedule notam =
    match last_with "D)" (lines_of text) with
    | Some line => Some (trim (drop 2 line))
    | None => None
    end /\
  notam_text notam =
    match last_with "E)" (lines_of text) with
    | Some line => trim (drop 2 line)
    | None => text
    end.
Proof.
  intros H. apply parseTextNOTAM_fields in H as (_ & H1 & H2 & H3 & H4 & H5 & _).
  now repeat split.
Qed.

(** Every record of the legacy path carries the raw text it came from and no
    q-line, purpose, scope or traffic type; its location has between one and
    ten characters. *)
Theorem parseTextNOTAM_record (text : string) (notam : NOTAM) :
  parseTextNOTAM Date_parse now text = Some notam ->
  raw_message notam = Some text /\
  q_line notam = None /\ purpose notam = None /\
  scope notam = None /\ traffic_type notam = None /\
  icao_location notam <> "" /\
  (String.length (icao_location notam) <= 10)%nat.
Proof.
  intros H.
  apply parseTextNOTAM_fields in H
    as (_ & (line & _ & Hloc) & _ & _ & _ & _ & H1 & H2 & H3 & H4 & H5 & H6).
  repeat split; try assumption.
  rewrite Hloc. apply take_length.
Qed.

(** A legacy text whose last [C)] line reads PERM or PERMANENT, in any
    letter case, has no end, whatever the engine's date parser would make of
    that word; so has a text without a [C)] line. *)
Theorem parseTextNOTAM_permanent (text : string) (notam : NOTAM) :
  parseTextNOTAM Date_parse now text = Some notam ->
  (last_with "C)" (lines_of text) = None \/
   exists line, last_with "C)" (lines_of text) = Some line /\
     (toUpperCase (trim (drop 2 line)) = "PERM" \/
      toUpperCase (trim (drop 2 line)) = "PERMANENT")) ->
  effective_end notam = None.
Proof.
  intros H Hc. apply parseTextNOTAM_fields in H as (_ & _ & _ & -> & _).
  destruct Hc as [-> | (line & -> & Hperm)]; [reflexivity|].
  unfold parseDate.
  destruct (String.eqb (trim (drop 2 line)) ""); [reflexivity|].
  destruct Hperm as [-> | ->]; reflexivity.
Qed.

End TextRecordFacts.

Lemma parseTextNOTAM_identifier_witness :
  exists notam,
    NOTAMParser.parseTextNOTAM Examples.no_Date_parse 1000 Examples.text_two_headers
      = Some notam /\
    NOTAMModel.notam_id notam = "A2/1234" /\
    NOTAMParser.matches_notam_id (NOTAMModel.notam_id notam) = true.
Proof.
  eexists. split; [reflexivity|].
  destruct (parseTextNOTAM_identifier Examples.no_Date_parse 1000
              Examples.text_two_headers _ eq_refl) as ((line & Hf & Hid) & Hm & _).
  split; [|exact Hm].
  rewrite Hid. cbn in Hf. now injection Hf as <-.
Defined.

Lemma parseTextNOTAM_last_line_wins_witness :
  exists notam,
    NOTAMParser.parseTextNOTAM Examples.no_Date_parse 1000 Examples.text_two_headers
      = Some notam /\
    NOTAMModel.icao_location notam = "KLAX" /\
    NOTAMModel.schedule notam = None.
Proof.
  eexists. split; [reflexivity|].
  destruct (parseTextNOTAM_last_line_wins Examples.no_Date_parse 1000
              Examples.text_two_headers _ eq_refl)
    as ((line & Hl & Hloc) & _ & _ & Hsch & _).
  split; [|exact Hsch].
  rewrite Hloc. cbn in Hl. now injection Hl as <-.
Defined.

Lemma parseTextNOTAM_record_witness :
  exists notam,
    NOTAMParser.parseTextNOTAM Examples.no_Date_parse 1000 Examples.text_kjfk
      = Some notam /\
    NOTAMModel.raw_message notam = Some Examples.text_kjfk /\
    (String.length (NOTAMModel.icao_location notam) <= 10)%nat.
Proof.
  eexists. split; [reflexivity|].
  destruct (parseTextNOTAM_record Examples.no_Date_parse 1000 Examples.text_kjfk
              _ eq_refl) as (H1 & _ & _ & _ & _ & _ & H2).
  split; [exact H1|exact H2].
Defined.

Lemma parseTextNOTAM_permanent_witness :
  exists notam,
    NOTAMParser.parseTextNOTAM Examples.no_Date_parse 1000 Examples.text_two_headers
      = Some notam /\
    NOTAMParser.last_with "C)" (NOTAMParser.lines_of Examples.text_two_headers)
      = Some "C) perm" /\
    NOTAMModel.effective_end notam = None.
Proof.
  eexists. split; [reflexivity|]. split; [reflexivity|].
  apply (parseTextNOTAM_permanent Examples.no_Date_parse 1000
           Examples.text_two_headers _ eq_refl).
  right. exists "C) perm". split; [reflexivity|]. now left.
Defined.

(** * Further properties of the per-message handler *)

Section HandlerMore.

Import CircuitBreaker NOTAMModel NOTAMIngestionService.

Variable xml_parse : string -> option NOTAMParser.JSValue.
Variable Date_parse : string -> option Z.
Variable env : Env.
Variable options : CircuitBreakerOptions.



Lemma create_unique (now : Z) (n : NOTAM) (w : World) :
  unique_notam_ids (db w) ->
  unique_notam_ids (db (snd (create env now n w))).
Proof.
  intros Hu. destruct (create env now n w) as [[r|e] w'] eqn:Ec; cbn [snd].
  - apply create_returns_upsert in Ec as [ins Ec].
    destruct (sql_upsert_spec now n (db w) Hu) as (r0 & i0 & d' & E & Hu' & _).
    rewrite Ec in E. now injection E as <- <- <-.
  - revert Ec. unfold create, Retry.withRetry.
    set (run := Retry.retry_loop _ _ _ _ _ _).
    pose proof (retry_pool_query_frame (sql_upsert now n) (defaultRetryOptions env)
                  (sql_upsert_no_error now n)
                  (S (Z.to_nat (Retry.maxRetries (defaultRetryOptions env) + 1)))
                  0 ThrownUndefined w) as [_ Hdb].
    fold run in Hdb.
    destruct (Retry.outcome run) as [[[row inserted]|e0]|] eqn:Eout; [discriminate| |];
      intros [= _ <-]; (rewrite Hdb; [exact Hu|intros v; discriminate]).
Qed.

Lemma caught_reachable (clock : Clock) (error : JSError) (cb : CircuitBreakerState)
    (w : World) :
  reachable options cb ->
  reachable options (circuitBreaker (service (caught options clock error cb w))).
Proof.
  intros Hr. exact (reachable_call options _ (CallRecordFailure (t_failure clock) error) Hr).
Qed.

Lemma acknowledge_in_try_reachable (clock : Clock) (message : Message)
    (cb : CircuitBreakerState) (w : World) :
  reachable options cb ->
  reachable options
    (circuitBreaker (service (acknowledge_in_try options clock message cb w))).
Proof.
  intros Hr. unfold acknowledge_in_try.
  destruct (acknowledge message); [exact Hr|now apply caught_reachable].
Qed.

Lemma acknowledge_in_try_world (clock : Clock) (message : Message)
    (cb : CircuitBreakerState) (w : World) :
  world (service (acknowledge_in_try options clock message cb w)) = w.
Proof.
  unfold acknowledge_in_try. now destruct (acknowledge message).
Qed.

(** The handler keeps the service well formed: its breaker stays in a state
    the breaker's own calls can reach, and its table keeps the [UNIQUE]
    constraint on the identifier. *)
Theorem handleMessage_keeps_invariants (clock : Clock) (message : Message)
    (s : Service) :
  reachable options (circuitBreaker s) ->
  unique_notam_ids (db (world s)) ->
  reachable options
    (circuitBreaker
       (service (handleMessage xml_parse Date_parse env options clock message s))) /\
  unique_notam_ids
    (db (world
       (service (handleMessage xml_parse Date_parse env options clock message s)))).
Proof.
  intros Hr Hu. unfold handleMessage, processMessage.
  pose proof (reachable_call options _ (CallIsRequestAllowed (t_admission clock)) Hr)
    as Hr1. cbn [call] in Hr1.
  destruct (isRequestAllowed options (t_admission clock) (circuitBreaker s))
    as [[|] cb1]; cbn [negb snd] in *; [|now split].
  pose proof (reachable_call options _ CallRecordSuccess Hr1) as Hr2.
  cbn [call] in Hr2.
  destruct (messageBody_of message) as [[body|]|e0].
  - destruct (parse xml_parse Date_parse (t_parse clock) body) as [notam|].
    + pose proof (create_unique (t_store clock) notam (world s) Hu) as Hu'.
      destruct (create env (t_store clock) notam (world s)) as [[r|e] w'];
        cbn [snd] in Hu'.
      * rewrite acknowledge_in_try_world.
        split; [now apply acknowledge_in_try_reachable|exact Hu'].
      * split; [now apply caught_reachable|exact Hu'].
    + rewrite acknowledge_in_try_world.
      split; [now apply acknowledge_in_try_reachable|exact Hu].
  - destruct (debugContext message).
    + rewrite acknowledge_in_try_world.
      split; [now apply acknowledge_in_try_reachable|exact Hu].
    + split; [now apply caught_reachable|exact Hu].
  - split; [now apply caught_reachable|exact Hu].
Qed.



End HandlerMore.



Lemma handleMessage_keeps_invariants_witness :
  CircuitBreaker.reachable Examples.breaker3
    (NOTAMIngestionService.circuitBreaker Examples.two_down) /\
  NOTAMModel.unique_notam_ids
    (NOTAMModel.db (NOTAMIngestionService.world Examples.two_down)) /\
  CircuitBreaker.reachable Examples.breaker3
    (NOTAMIngestionService.circuitBreaker
       (NOTAMIngestionService.service
          (NOTAMIngestionService.handleMessage Examples.no_xml_parse
             Examples.no_Date_parse Examples.env3 Examples.breaker3
             Examples.clock2000 Examples.kjfk_message Examples.two_down))) /\
  NOTAMModel.unique_notam_ids
    (NOTAMModel.db
       (NOTAMIngestionService.world
          (NOTAMIngestionService.service
             (NOTAMIngestionService.handleMessage Examples.no_xml_parse
                Examples.no_Date_parse Examples.env3 Examples.breaker3
                Examples.clock2000 Examples.kjfk_message Examples.two_down)))).
Proof.
  assert (Hr : CircuitBreaker.reachable Examples.breaker3
                 (NOTAMIngestionService.circuitBreaker Examples.two_down)).
  { apply reachable_recordFailures. apply CircuitBreaker.reachable_initial. }
  assert (Hu : NOTAMModel.unique_notam_ids
                 (NOTAMModel.db (NOTAMIngestionService.world Examples.two_down)))
    by constructor.
  split; [exact Hr|]. split; [exact Hu|].
  exact (handleMessage_keeps_invariants Examples.no_xml_parse Examples.no_Date_parse
           Examples.env3 Examples.breaker3 Examples.clock2000
           Examples.kjfk_message Examples.two_down Hr Hu).
Defined.


(** * Configuration of the broker session *)

(** [getSolaceConfig] never returns a configuration with an empty user name,
    password or queue name, and the credentials it returns are those of the
    environment; with a credential missing it throws the credentials error,
    whatever the destination; and it takes the name out of a destination
    written [/queue/NAME] or [/topic/NAME]. *)
Theorem getSolaceConfig_complete (env : SolaceConfig.ProcessEnv) :
  (forall config, SolaceConfig.getSolaceConfig env = inl config ->
     SolaceConfig.username config <> "" /\
     SolaceConfig.password config <> "" /\
     SolaceConfig.queueName config <> "" /\
     SolaceConfig.JMS_USERNAME env = Some (SolaceConfig.username config) /\
     SolaceConfig.JMS_PASSWORD env = Some (SolaceConfig.password config)) /\
  (NOTAMModel.truthy_string (SolaceConfig.JMS_USERNAME env) = false \/
   NOTAMModel.truthy_string (SolaceConfig.JMS_PASSWORD env) = false ->
   SolaceConfig.getSolaceConfig env =
   inr (Error "Solace credentials not configured. Set JMS_USERNAME and JMS_PASSWORD environment variables.")) /\
  (forall name,
     SolaceConfig.strip_prefix ("/queue/" ++ name) = name /\
     SolaceConfig.strip_prefix ("/topic/" ++ name) = name).
Proof.
  split; [|split].
  - intros config. unfold SolaceConfig.getSolaceConfig. cbv zeta.
    cbn [SolaceConfig.username SolaceConfig.password SolaceConfig.queueName].
    destruct (SolaceConfig.JMS_USERNAME env) as [u|];
      [|cbn; discriminate].
    destruct (SolaceConfig.JMS_PASSWORD env) as [pw|];
      [|cbn; rewrite orb_true_r; discriminate].
    cbn [NOTAMParser.or_string].
    destruct (String.eqb u "") eqn:Eu; [cbn; discriminate|].
    destruct (String.eqb pw "") eqn:Ep; [cbn; rewrite Eu; cbn; discriminate|].
    rewrite Eu, Ep. cbn [orb].
    destruct (String.eqb
                (SolaceConfig.strip_prefix
                   (NOTAMParser.or_string (SolaceConfig.JMS_DESTINATION env) "")) "")
      eqn:Eq; [discriminate|].
    intros [= <-]. cbn.
    apply String.eqb_neq in Eu. apply String.eqb_neq in Ep.
    apply String.eqb_neq in Eq. now repeat split.
  - unfold SolaceConfig.getSolaceConfig, NOTAMModel.truthy_string. cbv zeta.
    cbn [SolaceConfig.username SolaceConfig.password].
    intros [H|H].
    + destruct (SolaceConfig.JMS_USERNAME env) as [u|]; cbn [NOTAMParser.or_string].
      * apply negb_false_iff in H. rewrite H. reflexivity.
      * reflexivity.
    + destruct (SolaceConfig.JMS_PASSWORD env) as [pw|]; cbn [NOTAMParser.or_string].
      * apply negb_false_iff in H. rewrite H. cbn. now rewrite orb_true_r.
      * cbn. now rewrite orb_true_r.
  - intros name. unfold SolaceConfig.strip_prefix, NOTAMParser.startsWith.
    split; cbn; now destruct name.
Qed.

Lemma getSolaceConfig_complete_witness :
  exists config,
    SolaceConfig.getSolaceConfig Examples.jms_env = inl config /\
    SolaceConfig.username config <> "" /\
    SolaceConfig.queueName config = "faa.notam.all" /\
    SolaceConfig.url config = "tcps://swim.faa.gov:55443".
Proof.
  eexists. split; [reflexivity|].
  destruct (proj1 (getSolaceConfig_complete Examples.jms_env) _ eq_refl) as (H & _).
  split; [exact H|]. split; reflexivity.
Defined.

(** * Bearer token authentication *)

Section AuthFacts.

Import Auth.

Variable env : NOTAMModel.Env.

Lemma auth_retry_frame {T : Type} (stmt : list ApiToken -> T)
    (options : Retry.RetryOptions) :
  forall fuel attempt lastError w,
    let r := Retry.retry_loop (pool_query stmt) options fuel attempt lastError w in
    api_tokens (Retry.world r) = api_tokens w /\
    (forall v, Retry.outcome r = Some (inl v) -> v = stmt (api_tokens w)).
Proof.
  induction fuel as [|fuel IH]; intros attempt lastError w; cbn zeta;
    cbn [Retry.retry_loop]; [split; [reflexivity|discriminate]|].
  destruct (attempt <=? Retry.maxRetries options);
    [|split; [reflexivity|discriminate]].
  assert (Hpq : api_tokens (snd (pool_query stmt w)) = api_tokens w /\
                forall v, fst (pool_query stmt w) = inl v -> v = stmt (api_tokens w)).
  { unfold pool_query. destruct (faults w) as [|[e|] rest]; cbn;
      (split; [reflexivity|]); intros v; congruence. }
  destruct (pool_query stmt w) as [[v|e] w'] eqn:Epq; cbn [fst snd] in Hpq;
    destruct Hpq as [Htok Hval].
  - cbn. split; [exact Htok|]. intros v' [= <-]. now apply Hval.
  - destruct (negb (Retry.isRetriable options e)
              || (attempt =? Retry.maxRetries options)).
    + cbn. split; [exact Htok|discriminate].
    + cbn [Retry.outcome Retry.world].
      destruct (IH (attempt + 1) e w') as [H1 H2].
      split; [congruence|]. intros v Hv. rewrite (H2 v Hv). now rewrite Htok.
Qed.

(** The middleware either answers or calls [next()], never both and never
    neither, and its own query leaves the token table as it was.  It calls
    [next()] only for a header that splits at its single space into
    [Bearer] and a token stored in an active row, whose id and name it
    attaches to the request. *)
Theorem authenticateToken_sound (authHeader : option string) (w : World) :
  (next (authenticateToken env authHeader w) = true <->
   response (authenticateToken env authHeader w) = None) /\
  api_tokens (world (authenticateToken env authHeader w)) = api_tokens w /\
  (next (authenticateToken env authHeader w) = true ->
   exists header wanted row,
     authHeader = Some header /\
     NOTAMParser.split " " header = ["Bearer"; wanted] /\
     In row (api_tokens w) /\ token row = wanted /\ is_active row = true /\
     req_token (authenticateToken env authHeader w) = Some (id row, name row) /\
     touched (authenticateToken env authHeader w) = Some (id row)).
Proof.
  unfold authenticateToken.
  destruct authHeader as [header|];
    [|cbn; repeat split; discriminate].
  destruct (String.eqb header ""); [cbn; repeat split; discriminate|].
  cbv zeta.
  destruct (negb (Nat.eqb (List.length (NOTAMParser.split " " header)) 2)
            || negb (String.eqb (nth 0 (NOTAMParser.split " " header) "") "Bearer"))
    eqn:Eform; [cbn; repeat split; discriminate|].
  apply orb_false_iff in Eform as [Elen Ehead].
  apply negb_false_iff in Elen. apply negb_false_iff in Ehead.
  apply Nat.eqb_eq in Elen. apply String.eqb_eq in Ehead.
  unfold Retry.withRetry.
  set (run := Retry.retry_loop _ _ _ _ _ _).
  destruct (auth_retry_frame
              (select_token (nth 1 (NOTAMParser.split " " header) ""))
              (NOTAMModel.defaultRetryOptions env)
              (S (Z.to_nat (Retry.maxRetries (NOTAMModel.defaultRetryOptions env) + 1)))
              0 ThrownUndefined w) as [Htok Hval].
  fold run in Htok, Hval.
  destruct (Retry.outcome run) as [[[|row rows]|e]|] eqn:Eout;
    cbn [reject response next world req_token touched];
    try (repeat split; (discriminate || assumption)).
  split; [now split|]. split; [exact Htok|]. intros _.
  specialize (Hval _ eq_refl).
  assert (Hin : In row (select_token (nth 1 (NOTAMParser.split " " header) "")
                          (api_tokens w))) by (rewrite <- Hval; now left).
  apply filter_In in Hin as [Hin Hrow]. apply andb_prop in Hrow as [Ht Ha].
  apply String.eqb_eq in Ht.
  exists header, (nth 1 (NOTAMParser.split " " header) ""), row.
  repeat split; try assumption.
  destruct (NOTAMParser.split " " header) as [|a [|b [|c l]]]; try discriminate.
  cbn in *. now subst.
Qed.

Lemma split_no_separator (sep : ascii) (t : string) :
  (forall c, In c (list_ascii_of_string t) -> c <> sep) ->
  NOTAMParser.split sep t = [t].
Proof.
  induction t as [|c t IH]; intros H; [reflexivity|].
  cbn [NOTAMParser.split].
  replace (Ascii.eqb c sep) with false
    by (symmetry; apply Ascii.eqb_neq, H; now left).
  rewrite IH; [reflexivity|]. intros c' Hc'. apply H. now right.
Qed.

Lemma bearer_split (t : string) :
  (forall c, In c (list_ascii_of_string t) -> c <> " "%char) ->
  NOTAMParser.split " " ("Bearer " ++ t) = ["Bearer"; t].
Proof.
  intros H. cbn. now rewrite (split_no_separator " " t H).
Qed.

(** The answers of the middleware to a header [Bearer <token>] whose token
    holds no space.  When the pool lets the query through, an active row
    under that token lets the request pass with that row's id and name, and
    no such row gives 401; when the query throws an error that is not
    retriable the answer is 500, not 401.  A missing or empty header gives
    401 without any query. *)
Theorem authenticateToken_answers (wanted : string) (w : World) :
  0 <= NOTAMModel.DB_MAX_RETRIES env ->
  (forall c, In c (list_ascii_of_string wanted) -> c <> " "%char) ->
  ((forall e rest, faults w <> Some e :: rest) ->
   match select_token wanted (api_tokens w) with
   | [] =>
       response (authenticateToken env (Some ("Bearer " ++ wanted)) w)
       = Some {| status := 401; error := "Invalid or inactive token" |}
   | row :: _ =>
       next (authenticateToken env (Some ("Bearer " ++ wanted)) w) = true /\
       req_token (authenticateToken env (Some ("Bearer " ++ wanted)) w)
       = Some (id row, name row)
   end) /\
  (forall e rest, faults w = Some e :: rest ->
     Retry.isRetriableDatabaseError e = false ->
     response (authenticateToken env (Some ("Bearer " ++ wanted)) w)
     = Some {| status := 500; error := "Internal server error" |}) /\
  authenticateToken env None w = reject 401 "Missing authorization header" w /\
  authenticateToken env (Some "") w = reject 401 "Missing authorization header" w.
Proof.
  intros Hmax Hns.
  assert (Hle : (0 <=? NOTAMModel.DB_MAX_RETRIES env) = true) by now apply Z.leb_le.
  assert (Hform : forall k : Outcome -> Prop,
            k (let token := wanted in
               let run := Retry.withRetry (pool_query (select_token token))
                            (NOTAMModel.defaultRetryOptions env) w in
               match Retry.outcome run with
               | Some (inl []) => reject 401 "Invalid or inactive token" (Retry.world run)
               | Some (inl (row :: _)) =>
                   {| response := None; next := true;
                      req_token := Some (id row, name row);
                      touched := Some (id row); world := Retry.world run |}
               | Some (inr _) | None =>
                   reject 500 "Internal server error" (Retry.world run)
               end) ->
            k (authenticateToken env (Some ("Bearer " ++ wanted)) w)).
  { intros k Hk. unfold authenticateToken.
    change (String.eqb ("Bearer " ++ wanted) "") with false. cbv iota zeta.
    rewrite (bearer_split wanted Hns). exact Hk. }
  split; [|split; [|split; reflexivity]].
  - intros Hnf.
    destruct (select_token wanted (api_tokens w)) as [|row rows] eqn:Esel.
    + apply Hform. cbv zeta. unfold Retry.withRetry. cbn [Retry.retry_loop].
      change (Retry.maxRetries (NOTAMModel.defaultRetryOptions env))
        with (NOTAMModel.DB_MAX_RETRIES env). rewrite Hle.
      unfold pool_query.
      destruct (faults w) as [|[e|] rest]; [|now elim (Hnf e rest)|];
        rewrite Esel; reflexivity.
    + apply Hform. cbv zeta. unfold Retry.withRetry. cbn [Retry.retry_loop].
      change (Retry.maxRetries (NOTAMModel.defaultRetryOptions env))
        with (NOTAMModel.DB_MAX_RETRIES env). rewrite Hle.
      unfold pool_query.
      destruct (faults w) as [|[e|] rest]; [|now elim (Hnf e rest)|];
        rewrite Esel; now split.
  - intros e rest Hf He. apply Hform. cbv zeta.
    unfold Retry.withRetry. cbn [Retry.retry_loop].
    change (Retry.maxRetries (NOTAMModel.defaultRetryOptions env))
      with (NOTAMModel.DB_MAX_RETRIES env). rewrite Hle.
    change (Retry.isRetriable (NOTAMModel.defaultRetryOptions env))
      with Retry.isRetriableDatabaseError.
    unfold pool_query. rewrite Hf, He. reflexivity.
Qed.

End AuthFacts.

Lemma authenticateToken_sound_witness :
  Auth.next (Auth.authenticateToken Examples.env3 (Some "Bearer dev-token-12345")
               Examples.dev_tokens) = true /\
  Auth.req_token (Auth.authenticateToken Examples.env3 (Some "Bearer dev-token-12345")
                    Examples.dev_tokens) = Some (1, "Development Token") /\
  exists header wanted row,
    Some "Bearer dev-token-12345" = Some header /\
    NOTAMParser.split " " header = ["Bearer"; wanted] /\
    In row (Auth.api_tokens Examples.dev_tokens) /\
    Auth.token row = wanted /\ Auth.is_active row = true /\
    Auth.req_token (Auth.authenticateToken Examples.env3
                      (Some "Bearer dev-token-12345") Examples.dev_tokens)
      = Some (Auth.id row, Auth.name row) /\
    Auth.touched (Auth.authenticateToken Examples.env3
                    (Some "Bearer dev-token-12345") Examples.dev_tokens)
      = Some (Auth.id row).
Proof.
  split; [reflexivity|]. split; [reflexivity|].
  exact (proj2 (proj2 (authenticateToken_sound Examples.env3
                         (Some "Bearer dev-token-12345") Examples.dev_tokens))
           eq_refl).
Defined.

Lemma authenticateToken_answers_witness :
  0 <= NOTAMModel.DB_MAX_RETRIES Examples.env3 /\
  Auth.response (Auth.authenticateToken Examples.env3 (Some ("Bearer " ++ "revoked"))
                   Examples.dev_tokens)
    = Some {| Auth.status := 401; Auth.error := "Invalid or inactive token" |}.
Proof.
  assert (H : 0 <= NOTAMModel.DB_MAX_RETRIES Examples.env3) by (cbn; lia).
  split; [exact H|].
  assert (Hns : forall c, In c (list_ascii_of_string "revoked") -> c <> " "%char).
  { intros c Hc. cbn in Hc.
    repeat (destruct Hc as [<-|Hc]; [discriminate|]). destruct Hc. }
  destruct (authenticateToken_answers Examples.env3 "revoked" Examples.dev_tokens H Hns)
    as [Hq _].
  apply Hq. intros e rest. discriminate.
Defined.
